(** * BASE ORM: the lazy query builder and the migration engine

    A shallow embedding of [base/utils.py], [base/connections.py],
    [base/query.py], [base/migrations.py] and the column definitions of
    [base/fields.py], followed by the properties of the query builder and
    of the migration manager.

    Python values are an inductive type, exceptions are an error result,
    the connection is threaded explicitly through every call together with
    a trace of what was sent to it, and the builder objects that the
    chaining methods allocate and mutate live in an object store. *)

From Stdlib Require Import ZArith Ascii List Lia DecimalString.
From Stdlib Require String.
From stdpp Require Import base option list gmap strings.

Local Open Scope Z_scope.
Local Open Scope stdpp_scope.

(* ===================================================================== *)
(** * Python values, exceptions and string primitives                     *)
(* ===================================================================== *)

(** The values that travel through lookups, parameters and rows: [None],
    booleans, integers, text, lists and tuples.  Other Python objects
    (floats, bytes, sets, dictionaries, generators and the like) are not
    modelled; what is proved is proved of calls that carry these values,
    and text is a string of bytes. *)
#[warnings="-register-all"]
Inductive value : Type :=
| VNone
| VBool (b : bool)
| VInt (n : Z)
| VStr (s : string)
| VList (xs : list value)
| VTuple (xs : list value).

(** The exception classes of [base/exceptions.py] and the built-in ones the
    modelled code can raise. *)
Inductive exn_class : Type :=
| DoesNotExist
| MultipleObjectsReturned
| MigrationError
| ORMConnectionError
| QueryError
| TypeError
| IndexError
| ValueError
| OverflowError
| OtherError.

Record exn : Type := Exn { exn_cls : exn_class; exn_msg : string }.

Inductive result (A : Type) : Type :=
| Ok (a : A)
| Raise (e : exn).
Arguments Ok {A} a.
Arguments Raise {A} e.

Global Instance result_ret : MRet result := fun A a => Ok a.

Global Instance result_bind : MBind result := fun A B k r =>
  match r with
  | Ok a => k a
  | Raise e => Raise e
  end.

(** A [for] loop that threads an accumulator and stops at the first
    exception. *)
Fixpoint for_each {A S} (step : S -> A -> result S) (s : S) (xs : list A)
  : result S :=
  match xs with
  | [] => Ok s
  | x :: xs' => s' ← step s x; for_each step s' xs'
  end.

(** [str(n)] for an [int]. *)
Definition str_of_Z (n : Z) : string :=
  NilZero.string_of_int (Z.to_int n).

(** [sep.join(parts)]. *)
Definition join (sep : string) (parts : list string) : string :=
  String.concat sep parts.

(** [s.startswith(p)] and [s.endswith(p)]. *)
Definition startswith (p s : string) : bool := String.prefix p s.

Definition endswith (p s : string) : bool :=
  let n := String.length s in
  let k := String.length p in
  if (k <=? n)%nat then String.eqb (String.substring (n - k) k s) p
  else false.

(** [s[1:]]. *)
Definition drop_first (s : string) : string :=
  match s with
  | EmptyString => EmptyString
  | String _ rest => rest
  end.

(** [s[:-3]]. *)
Definition drop_last3 (s : string) : string :=
  String.substring 0 (String.length s - 3) s.

(** [pat in s]. *)
Fixpoint contains (pat s : string) : bool :=
  if String.prefix pat s then true
  else match s with
       | EmptyString => false
       | String _ rest => contains pat rest
       end.

(** [s.split(sep)] for a non-empty [sep]: a left-to-right scan; [skip]
    counts the characters of a separator that was just matched and [cur]
    holds the piece being read, reversed. *)
Fixpoint split_go (sep s : string) (skip : nat) (cur : string) : list string :=
  match s with
  | EmptyString => [String.rev cur]
  | String c rest =>
      match skip with
      | S k => split_go sep rest k cur
      | O =>
          if String.prefix sep s
          then String.rev cur
                 :: split_go sep rest (String.length sep - 1) EmptyString
          else split_go sep rest 0 (String c cur)
      end
  end.

Definition split (sep s : string) : list string :=
  split_go sep s 0 EmptyString.

(** [s.replace(old, new, 1)]: the first occurrence only. *)
Fixpoint replace_first (old new s : string) : string :=
  if String.prefix old s
  then new +:+ String.substring (String.length old)
                 (String.length s - String.length old) s
  else match s with
       | EmptyString => EmptyString
       | String c rest => String c (replace_first old new rest)
       end.

(** How many times the character [c] occurs in [s]. *)
Fixpoint count_char (c : ascii) (s : string) : nat :=
  match s with
  | EmptyString => 0%nat
  | String a rest =>
      ((if Ascii.eqb a c then 1 else 0) + count_char c rest)%nat
  end.

(** Truthiness, as [if value:] tests it. *)
Definition py_truthy (v : value) : bool :=
  match v with
  | VNone => false
  | VBool b => b
  | VInt n => negb (n =? 0)
  | VStr s => negb (String.eqb s EmptyString)
  | VList xs | VTuple xs => match xs with [] => false | _ => true end
  end.

Definition py_type_name (v : value) : string :=
  match v with
  | VNone => "NoneType"
  | VBool _ => "bool"
  | VInt _ => "int"
  | VStr _ => "str"
  | VList _ => "list"
  | VTuple _ => "tuple"
  end.

(** [len(value)], on the values modelled. *)
Definition py_len (v : value) : result nat :=
  match v with
  | VStr s => Ok (String.length s)
  | VList xs | VTuple xs => Ok (length xs)
  | _ => Raise (Exn TypeError
                  ("object of type '" +:+ py_type_name v +:+ "' has no len()"))
  end.

(** The elements [list.extend(value)] appends, on the values modelled:
    the items of a list or tuple, the characters of a string. *)
Definition py_iter (v : value) : result (list value) :=
  match v with
  | VStr s => Ok (map (fun c => VStr (String c EmptyString))
                      (String.list_ascii_of_string s))
  | VList xs | VTuple xs => Ok xs
  | _ => Raise (Exn TypeError
                  ("'" +:+ py_type_name v +:+ "' object is not iterable"))
  end.

(** [str(value)], as f-strings apply it, is the interpreter's and is taken
    as given. *)
Class Formatter := py_str : value -> string.

(* ===================================================================== *)
(** * base/utils.py                                                       *)
(* ===================================================================== *)

Definition last_part (parts : list string) : string :=
  List.last parts EmptyString.

Definition parse_lookup (lookup : string) : string * string :=
  if contains "__" lookup
  then let parts := split "__" lookup in
       (join "__" (removelast parts), last_part parts)
  else (lookup, "exact").

Definition get_operator_sql (operator : string) : string :=
  if String.eqb operator "exact" then "="
  else if String.eqb operator "gt" then ">"
  else if String.eqb operator "gte" then ">="
  else if String.eqb operator "lt" then "<"
  else if String.eqb operator "lte" then "<="
  else if String.eqb operator "ne" then "!="
  else if String.eqb operator "in" then "IN"
  else if String.eqb operator "contains" then "LIKE"
  else if String.eqb operator "icontains" then "LIKE"
  else if String.eqb operator "startswith" then "LIKE"
  else if String.eqb operator "istartswith" then "LIKE"
  else if String.eqb operator "endswith" then "LIKE"
  else if String.eqb operator "iendswith" then "LIKE"
  else if String.eqb operator "isnull" then "IS NULL"
  else if String.eqb operator "range" then "BETWEEN"
  else "=".

Definition format_value_for_operator `{Formatter} (v : value) (operator : string)
  : value :=
  if String.eqb operator "contains" || String.eqb operator "icontains"
  then VStr ("%" +:+ py_str v +:+ "%")
  else if String.eqb operator "startswith" || String.eqb operator "istartswith"
  then VStr (py_str v +:+ "%")
  else if String.eqb operator "endswith" || String.eqb operator "iendswith"
  then VStr ("%" +:+ py_str v)
  else v.

(* ===================================================================== *)
(** * base/connections.py                                                 *)
(* ===================================================================== *)

(** A [sqlite3.Row]: the columns of one result row, by position and by
    name. *)
Definition row : Type := list (string * value).

Record cursor : Type := Cursor { fetchall : list row; rowcount : Z }.

Definition fetchone (cur : cursor) : option row := head (fetchall cur).

(** Why [sqlite3] did not run a statement: an [sqlite3.Error], with its
    message, or the [OverflowError] it raises when an integer parameter
    does not fit in 64 bits. *)
Inductive engine_error : Type :=
| SqliteError (msg : string)
| IntTooLarge.

(** A parameter that binds without overflow. *)
Definition fits_int64 (v : value) : bool :=
  match v with
  | VInt n => (- 2 ^ 63 <=? n) && (n <? 2 ^ 63)
  | _ => true
  end.

(** The storage engine behind an open connection ([sqlite3]): a statement
    either is not run, for one of the two reasons above, or yields a new
    database and a cursor.  The overflow can only come from a parameter
    that does not fit. *)
Class Engine (DB : Type) : Type := {
  engine_execute : DB -> string -> list value -> engine_error + (DB * cursor);
  engine_commit : DB -> DB;
  engine_overflow : forall d sql params,
    engine_execute d sql params = inl IntTooLarge ->
    forallb fits_int64 params = false
}.

(** What a connection was asked to do, in order. *)
Inductive event : Type :=
| EvExecute (sql : string) (params : list value)
| EvCommit.

Record Connection (DB : Type) : Type :=
  Conn { conn_db : DB; conn_trace : list event }.
Arguments Conn {DB} conn_db conn_trace.
Arguments conn_db {DB} c.
Arguments conn_trace {DB} c.

(** Code that talks to the connection and may raise. *)
Definition CM (DB A : Type) : Type :=
  Connection DB -> Connection DB * result A.
Global Typeclasses Opaque CM.

Global Instance CM_ret DB : MRet (CM DB) := fun A a c => (c, Ok a).

Global Instance CM_bind DB : MBind (CM DB) := fun A B k m c =>
  match m c with
  | (c', Ok a) => k a c'
  | (c', Raise e) => (c', Raise e)
  end.

Definition lift {DB A} (r : result A) : CM DB A := fun c => (c, r).

Definition raise {DB A} (cls : exn_class) (msg : string) : CM DB A :=
  fun c => (c, Raise (Exn cls msg)).

(** [try: body except Exception as e: handler(e)]. *)
Definition try_except {DB A} (body : CM DB A) (handler : exn -> CM DB A)
  : CM DB A := fun c =>
  match body c with
  | (c', Ok a) => (c', Ok a)
  | (c', Raise e) => handler e c'
  end.

Definition newline : string := String (ascii_of_nat 10) EmptyString.

Section connection.
Context {DB : Type} `{Engine DB}.

(** [Connection.execute]: a [sqlite3.Error] is wrapped in the ORM's
    connection error; the [OverflowError] is not an [sqlite3.Error] and
    passes through as it is. *)
Definition execute (sql : string) (params : list value) : CM DB cursor :=
  fun c =>
    let trace := conn_trace c ++ [EvExecute sql params] in
    match engine_execute (conn_db c) sql params with
    | inr (d, cur) => (Conn d trace, Ok cur)
    | inl (SqliteError e) =>
        (Conn (conn_db c) trace,
         Raise (Exn ORMConnectionError
                  ("Query execution failed: " +:+ e +:+ newline
                     +:+ "SQL: " +:+ sql)))
    | inl IntTooLarge =>
        (Conn (conn_db c) trace,
         Raise (Exn OverflowError
                  "Python int too large to convert to SQLite INTEGER"))
    end.

Definition commit : CM DB unit := fun c =>
  (Conn (engine_commit (conn_db c)) (conn_trace c ++ [EvCommit]), Ok tt).
End connection.

(* ===================================================================== *)
(** * The record layer the query builder is given                         *)
(* ===================================================================== *)

Record Field : Type := {
  get_db_column : string;
  to_python : value -> result value
}.

(** A model class: its name, its table and its fields in declaration
    order. *)
Record Model : Type := {
  __name__ : string;
  _table_name : string;
  _fields : list (string * Field)
}.

(** What a query hands back for a row: a [dict] under [values], otherwise
    a model instance given by its attributes. *)
Inductive instance : Type :=
| DictRow (d : row)
| ModelInstance (attrs : list (string * value)).

Fixpoint setattr (name : string) (v : value) (attrs : list (string * value))
  : list (string * value) :=
  match attrs with
  | [] => [(name, v)]
  | (k, w) :: rest =>
      if String.eqb k name then (k, v) :: rest
      else (k, w) :: setattr name v rest
  end.

(** How [sqlite3.Row] compares a key with a column name: equal, or both
    ASCII and equal once upper-case letters are lowered. *)
Definition is_ascii (s : string) : bool :=
  forallb (fun a => (nat_of_ascii a <? 128)%nat) (String.list_ascii_of_string s).

Definition to_lower (a : ascii) : ascii :=
  let n := nat_of_ascii a in
  if ((65 <=? n) && (n <=? 90))%nat then ascii_of_nat (n + 32) else a.

Fixpoint lower (s : string) : string :=
  match s with
  | EmptyString => EmptyString
  | String a rest => String (to_lower a) (lower rest)
  end.

Definition equal_ignore_case (key name : string) : bool :=
  String.eqb key name
  || (is_ascii key && is_ascii name && String.eqb (lower key) (lower name)).

(** The value [row[key]] finds: that of the first column whose name the
    key matches. *)
Fixpoint row_lookup (key : string) (r : row) : option value :=
  match r with
  | [] => None
  | (name, v) :: rest =>
      if equal_ignore_case key name then Some v else row_lookup key rest
  end.

(** [key in row.keys()]: the names themselves, compared exactly. *)
Definition row_has_key (key : string) (r : row) : bool :=
  existsb (String.eqb key) (map fst r).

(** [row[0]]. *)
Definition row_first (r : row) : option value :=
  match r with
  | [] => None
  | (_, v) :: _ => Some v
  end.

(* ===================================================================== *)
(** * base/query.py                                                       *)
(* ===================================================================== *)

(** A [(field_name, operator, value)] triple. *)
Definition triple : Type := string * string * value.

(** [**kwargs]: lookups with their values, in the order they were
    written. *)
Definition kwargs : Type := list (string * value).

Module QuerySet.

(** The state of one builder, read as a value. *)
Record t : Type := mk {
  model : Model;
  _filters : list triple;
  _excludes : list triple;
  _order_by : list string;
  _limit : option Z;
  _offset : option Z;
  _select_related : list string;
  _distinct : bool;
  _values_fields : option (list string);
  _cache : option (list row)
}.

Definition __init__ (m : Model) : t :=
  mk m [] [] [] None None [] false None None.

Definition with_filters (fs : list triple) (qs : t) : t :=
  mk (model qs) fs (_excludes qs) (_order_by qs) (_limit qs) (_offset qs)
     (_select_related qs) (_distinct qs) (_values_fields qs) (_cache qs).
Definition with_excludes (es : list triple) (qs : t) : t :=
  mk (model qs) (_filters qs) es (_order_by qs) (_limit qs) (_offset qs)
     (_select_related qs) (_distinct qs) (_values_fields qs) (_cache qs).
Definition with_order_by (o : list string) (qs : t) : t :=
  mk (model qs) (_filters qs) (_excludes qs) o (_limit qs) (_offset qs)
     (_select_related qs) (_distinct qs) (_values_fields qs) (_cache qs).
Definition with_limit (n : option Z) (qs : t) : t :=
  mk (model qs) (_filters qs) (_excludes qs) (_order_by qs) n (_offset qs)
     (_select_related qs) (_distinct qs) (_values_fields qs) (_cache qs).
Definition with_offset (n : option Z) (qs : t) : t :=
  mk (model qs) (_filters qs) (_excludes qs) (_order_by qs) (_limit qs) n
     (_select_related qs) (_distinct qs) (_values_fields qs) (_cache qs).
Definition with_select_related (r : list string) (qs : t) : t :=
  mk (model qs) (_filters qs) (_excludes qs) (_order_by qs) (_limit qs)
     (_offset qs) r (_distinct qs) (_values_fields qs) (_cache qs).
Definition with_distinct (d : bool) (qs : t) : t :=
  mk (model qs) (_filters qs) (_excludes qs) (_order_by qs) (_limit qs)
     (_offset qs) (_select_related qs) d (_values_fields qs) (_cache qs).
Definition with_values_fields (v : option (list string)) (qs : t) : t :=
  mk (model qs) (_filters qs) (_excludes qs) (_order_by qs) (_limit qs)
     (_offset qs) (_select_related qs) (_distinct qs) v (_cache qs).
Definition with_cache (c : option (list row)) (qs : t) : t :=
  mk (model qs) (_filters qs) (_excludes qs) (_order_by qs) (_limit qs)
     (_offset qs) (_select_related qs) (_distinct qs) (_values_fields qs) c.

(** ** Chaining methods *)

Definition _clone (self : t) : t :=
  let qs := __init__ (model self) in
  let qs := with_filters (_filters self) qs in
  let qs := with_excludes (_excludes self) qs in
  let qs := with_order_by (_order_by self) qs in
  let qs := with_limit (_limit self) qs in
  let qs := with_offset (_offset self) qs in
  let qs := with_select_related (_select_related self) qs in
  let qs := with_distinct (_distinct self) qs in
  let qs := with_values_fields (_values_fields self) qs in
  qs.

Definition filter (self : t) (kw : kwargs) : t :=
  fold_left
    (fun qs '(lookup, v) =>
       let '(field_name, operator) := parse_lookup lookup in
       with_filters (_filters qs ++ [(field_name, operator, v)]) qs)
    kw (_clone self).

Definition exclude (self : t) (kw : kwargs) : t :=
  fold_left
    (fun qs '(lookup, v) =>
       let '(field_name, operator) := parse_lookup lookup in
       with_excludes (_excludes qs ++ [(field_name, operator, v)]) qs)
    kw (_clone self).

Definition order_by (self : t) (fields : list string) : t :=
  with_order_by fields (_clone self).

Definition limit (self : t) (n : Z) : t :=
  with_limit (Some n) (_clone self).

Definition offset (self : t) (n : Z) : t :=
  with_offset (Some n) (_clone self).

Definition distinct (self : t) : t :=
  with_distinct true (_clone self).

Definition values (self : t) (fields : list string) : t :=
  with_values_fields
    (match fields with [] => None | _ => Some fields end) (_clone self).

Definition select_related (self : t) (fields : list string) : t :=
  let qs := _clone self in
  with_select_related (_select_related qs ++ fields) qs.

(** ** SQL synthesis *)

Section synthesis.
Context `{Formatter}.

(** [','.join('?' * n)]. *)
Definition placeholders (n : nat) : string :=
  join "," (repeat "?" n).

(** The loops of [_build_where_clause] carry the two lists
    [conditions] and [params]. *)
Definition clauses : Type := list string * list value.

Definition filter_step (acc : clauses) (f : triple) : result clauses :=
  let '(conditions, params) := acc in
  let '(field_name, operator, v) := f in
  let sql_op := get_operator_sql operator in
  if String.eqb operator "isnull" then
    if py_truthy v
    then Ok (conditions ++ [field_name +:+ " IS NULL"], params)
    else Ok (conditions ++ [field_name +:+ " IS NOT NULL"], params)
  else if String.eqb operator "in" then
    n ← py_len v;
    let conditions :=
      conditions
        ++ [field_name +:+ " " +:+ sql_op +:+ " (" +:+ placeholders n +:+ ")"] in
    items ← py_iter v;
    Ok (conditions, params ++ items)
  else if String.eqb operator "range" then
    let conditions := conditions ++ [field_name +:+ " BETWEEN ? AND ?"] in
    items ← py_iter v;
    Ok (conditions, params ++ items)
  else
    let formatted_value := format_value_for_operator v operator in
    Ok (conditions ++ [field_name +:+ " " +:+ sql_op +:+ " ?"],
        params ++ [formatted_value]).

Definition exclude_step (acc : clauses) (f : triple) : result clauses :=
  let '(conditions, params) := acc in
  let '(field_name, operator, v) := f in
  let sql_op := get_operator_sql operator in
  if String.eqb operator "isnull" then
    if py_truthy v
    then Ok (conditions ++ [field_name +:+ " IS NOT NULL"], params)
    else Ok (conditions ++ [field_name +:+ " IS NULL"], params)
  else if String.eqb operator "in" then
    n ← py_len v;
    let conditions :=
      conditions
        ++ [field_name +:+ " NOT " +:+ sql_op +:+ " (" +:+ placeholders n +:+ ")"] in
    items ← py_iter v;
    Ok (conditions, params ++ items)
  else
    let formatted_value := format_value_for_operator v operator in
    Ok (conditions ++ ["NOT (" +:+ field_name +:+ " " +:+ sql_op +:+ " ?)"],
        params ++ [formatted_value]).

Definition _build_where_clause (self : t) : result (string * list value) :=
  acc ← for_each filter_step ([], []) (_filters self);
  '(conditions, params) ← for_each exclude_step acc (_excludes self);
  match conditions with
  | _ :: _ => Ok (" WHERE " +:+ join " AND " conditions, params)
  | [] => Ok (EmptyString, params)
  end.

Definition order_part (field : string) : string :=
  if startswith "-" field then drop_first field +:+ " DESC"
  else field +:+ " ASC".

Definition _build_sql (self : t) : result (string * list value) :=
  let table_name := _table_name (model self) in
  let select_fields :=
    match _values_fields self with
    | Some ((_ :: _) as fields) => join ", " fields
    | _ => "*"
    end in
  let sql :=
    if _distinct self
    then "SELECT DISTINCT " +:+ select_fields +:+ " FROM " +:+ table_name
    else "SELECT " +:+ select_fields +:+ " FROM " +:+ table_name in
  '(where_clause, params) ← _build_where_clause self;
  let sql := sql +:+ where_clause in
  let sql :=
    match _order_by self with
    | _ :: _ => sql +:+ " ORDER BY " +:+ join ", " (map order_part (_order_by self))
    | [] => sql
    end in
  let sql :=
    match _limit self with
    | Some n => sql +:+ " LIMIT " +:+ str_of_Z n
    | None => sql
    end in
  let sql :=
    match _offset self with
    | Some n => sql +:+ " OFFSET " +:+ str_of_Z n
    | None => sql
    end in
  Ok (sql, params).
End synthesis.

(** ** Execution and terminal methods *)

Section execution.
Context `{Formatter} {DB : Type} `{Engine DB}.

(** [_execute] returns the rows and leaves them in the builder's
    cache. *)
Definition _execute (self : t) : CM DB (list row * t) :=
  match _cache self with
  | Some rows => mret (rows, self)
  | None =>
      '(sql, params) ← lift (_build_sql self);
      cur ← execute sql params;
      mret (fetchall cur, with_cache (Some (fetchall cur)) self)
  end.

Definition load_field (r : row) (inst : list (string * value))
  (f : string * Field) : result (list (string * value)) :=
  let '(field_name, field) := f in
  let db_column := get_db_column field in
  if row_has_key db_column r then
    match row_lookup db_column r with
    | Some v => w ← to_python field v; Ok (setattr field_name w inst)
    | None => Raise (Exn IndexError "No item with that key")
    end
  else Ok inst.

Definition _create_instance (self : t) (r : row) : result instance :=
  match _values_fields self with
  | Some (_ :: _) => Ok (DictRow r)
  | _ =>
      attrs ← for_each (load_field r) [("_loaded_from_db", VBool true)]
                (_fields (model self));
      Ok (ModelInstance attrs)
  end.

Definition all (self : t) : CM DB (list instance * t) :=
  '(rows, self') ← _execute self;
  results ← lift (mapM (_create_instance self) rows);
  mret (results, self').

Definition get (self : t) (kw : kwargs) : CM DB instance :=
  let qs := filter self kw in
  '(results, _) ← all qs;
  match results with
  | [] =>
      raise DoesNotExist
        (__name__ (model self) +:+ " matching query does not exist")
  | [x] => mret x
  | _ =>
      raise MultipleObjectsReturned
        ("get() returned " +:+ str_of_Z (Z.of_nat (length results)) +:+ " "
           +:+ __name__ (model self) +:+ " objects")
  end.

Definition first (self : t) : CM DB (option instance) :=
  let qs := limit self 1 in
  '(results, _) ← all qs;
  mret (head results).

Definition flip_direction (f : string) : string :=
  if negb (startswith "-" f) then "-" +:+ f else drop_first f.

Definition last (self : t) : CM DB (option instance) :=
  let qs :=
    limit
      (order_by self
         (map flip_direction
            (match _order_by self with [] => ["id"] | o => o end)))
      1 in
  '(results, _) ← all qs;
  mret (head results).

Definition exists_ (self : t) : CM DB bool :=
  '(sql, params) ← lift (_build_sql self);
  let sql := replace_first "SELECT *" "SELECT 1" sql in
  cur ← execute sql params;
  mret (match fetchone cur with Some _ => true | None => false end).

Definition count (self : t) : CM DB value :=
  let table_name := _table_name (model self) in
  '(where_clause, params) ← lift (_build_where_clause self);
  let sql := "SELECT COUNT(*) FROM " +:+ table_name +:+ where_clause in
  cur ← execute sql params;
  match fetchone cur with
  | None => raise TypeError "'NoneType' object is not subscriptable"
  | Some r =>
      match row_first r with
      | Some v => mret v
      | None => raise IndexError "No item with that key"
      end
  end.

Definition __len__ (self : t) : CM DB value := count self.

Definition delete (self : t) : CM DB Z :=
  let table_name := _table_name (model self) in
  '(where_clause, params) ← lift (_build_where_clause self);
  if String.eqb where_clause EmptyString then
    raise QueryError
      "Cannot delete without filters (use Model.objects.all().delete())"
  else
    let sql := "DELETE FROM " +:+ table_name +:+ where_clause in
    cur ← execute sql params;
    _ ← commit;
    mret (rowcount cur).
End execution.

End QuerySet.

(* ===================================================================== *)
(** * Builders as objects: the chaining methods in an object store        *)
(* ===================================================================== *)

(** The chaining methods allocate a new builder and mutate its lists in
    place ([append], [extend]).  Here builders and their lists are cells
    of a store and fields hold references, so that sharing between a
    builder and its clone is visible. *)
Module Store.

Definition loc : Type := nat.

Record builder : Type := Builder {
  o_model : Model;
  o_filters : loc;
  o_excludes : loc;
  o_order_by : loc;
  o_limit : option Z;
  o_offset : option Z;
  o_select_related : loc;
  o_distinct : bool;
  o_values_fields : option loc;
  o_cache : option (list row)
}.

Inductive cell : Type :=
| Triples (l : list triple)
| Names (l : list string)
| Object (o : builder).

(** Cells are never freed; a new cell takes the next location. *)
Definition store : Type := list cell.

(** Store-passing code; [None] is a dereference of a location that does
    not hold what the code expects. *)
Definition SM (A : Type) : Type := store -> option (A * store).
Global Typeclasses Opaque SM.

Global Instance SM_ret : MRet SM := fun A a h => Some (a, h).

Global Instance SM_bind : MBind SM := fun A B k m h =>
  match m h with
  | Some (a, h') => k a h'
  | None => None
  end.

Definition stuck {A} : SM A := fun _ => None.

Definition alloc (c : cell) : SM loc := fun h => Some (length h, h ++ [c]).

Definition load (l : loc) : SM cell := fun h =>
  match h !! l with
  | Some c => Some (c, h)
  | None => None
  end.

Definition write (l : loc) (c : cell) : SM unit := fun h =>
  match h !! l with
  | Some _ => Some (tt, <[l := c]> h)
  | None => None
  end.

Definition load_triples (l : loc) : SM (list triple) :=
  c ← load l;
  match c with Triples x => mret x | _ => stuck end.

Definition load_names (l : loc) : SM (list string) :=
  c ← load l;
  match c with Names x => mret x | _ => stuck end.

Definition load_object (l : loc) : SM builder :=
  c ← load l;
  match c with Object o => mret o | _ => stuck end.

(** [qs.attr = ...]. *)
Definition set_attr (qs : loc) (f : builder -> builder) : SM unit :=
  o ← load_object qs;
  write qs (Object (f o)).

Definition set_filters (l : loc) (o : builder) : builder :=
  Builder (o_model o) l (o_excludes o) (o_order_by o) (o_limit o) (o_offset o)
    (o_select_related o) (o_distinct o) (o_values_fields o) (o_cache o).
Definition set_excludes (l : loc) (o : builder) : builder :=
  Builder (o_model o) (o_filters o) l (o_order_by o) (o_limit o) (o_offset o)
    (o_select_related o) (o_distinct o) (o_values_fields o) (o_cache o).
Definition set_order_by (l : loc) (o : builder) : builder :=
  Builder (o_model o) (o_filters o) (o_excludes o) l (o_limit o) (o_offset o)
    (o_select_related o) (o_distinct o) (o_values_fields o) (o_cache o).
Definition set_limit (n : option Z) (o : builder) : builder :=
  Builder (o_model o) (o_filters o) (o_excludes o) (o_order_by o) n (o_offset o)
    (o_select_related o) (o_distinct o) (o_values_fields o) (o_cache o).
Definition set_offset (n : option Z) (o : builder) : builder :=
  Builder (o_model o) (o_filters o) (o_excludes o) (o_order_by o) (o_limit o) n
    (o_select_related o) (o_distinct o) (o_values_fields o) (o_cache o).
Definition set_select_related (l : loc) (o : builder) : builder :=
  Builder (o_model o) (o_filters o) (o_excludes o) (o_order_by o) (o_limit o)
    (o_offset o) l (o_distinct o) (o_values_fields o) (o_cache o).
Definition set_distinct (d : bool) (o : builder) : builder :=
  Builder (o_model o) (o_filters o) (o_excludes o) (o_order_by o) (o_limit o)
    (o_offset o) (o_select_related o) d (o_values_fields o) (o_cache o).
Definition set_values_fields (v : option loc) (o : builder) : builder :=
  Builder (o_model o) (o_filters o) (o_excludes o) (o_order_by o) (o_limit o)
    (o_offset o) (o_select_related o) (o_distinct o) v (o_cache o).

(** [QuerySet(model)]: four fresh empty lists, no paging, no cache. *)
Definition __init__ (m : Model) : SM loc :=
  fl ← alloc (Triples []);
  el ← alloc (Triples []);
  ol ← alloc (Names []);
  sl ← alloc (Names []);
  alloc (Object (Builder m fl el ol None None sl false None None)).

(** [_clone]: the three lists and [_select_related] are copied, the
    projection list is shared, the cache is left as [__init__] set it. *)
Definition _clone (self : loc) : SM loc :=
  me ← load_object self;
  qs ← __init__ (o_model me);
  fs ← load_triples (o_filters me);
  fl ← alloc (Triples fs);
  _ ← set_attr qs (set_filters fl);
  es ← load_triples (o_excludes me);
  el ← alloc (Triples es);
  _ ← set_attr qs (set_excludes el);
  ob ← load_names (o_order_by me);
  ol ← alloc (Names ob);
  _ ← set_attr qs (set_order_by ol);
  _ ← set_attr qs (set_limit (o_limit me));
  _ ← set_attr qs (set_offset (o_offset me));
  sr ← load_names (o_select_related me);
  sl ← alloc (Names sr);
  _ ← set_attr qs (set_select_related sl);
  _ ← set_attr qs (set_distinct (o_distinct me));
  _ ← set_attr qs (set_values_fields (o_values_fields me));
  mret qs.

(** [qs._filters.append(x)] and [qs._excludes.append(x)]. *)
Definition append_filter (qs : loc) (x : triple) : SM unit :=
  o ← load_object qs;
  fs ← load_triples (o_filters o);
  write (o_filters o) (Triples (fs ++ [x])).

Definition append_exclude (qs : loc) (x : triple) : SM unit :=
  o ← load_object qs;
  es ← load_triples (o_excludes o);
  write (o_excludes o) (Triples (es ++ [x])).

Fixpoint for_kwargs (body : string -> value -> SM unit) (kw : kwargs)
  : SM unit :=
  match kw with
  | [] => mret tt
  | (lookup, v) :: rest => _ ← body lookup v; for_kwargs body rest
  end.

Definition filter (self : loc) (kw : kwargs) : SM loc :=
  qs ← _clone self;
  _ ← for_kwargs
        (fun lookup v =>
           let '(field_name, operator) := parse_lookup lookup in
           append_filter qs (field_name, operator, v))
        kw;
  mret qs.

Definition exclude (self : loc) (kw : kwargs) : SM loc :=
  qs ← _clone self;
  _ ← for_kwargs
        (fun lookup v =>
           let '(field_name, operator) := parse_lookup lookup in
           append_exclude qs (field_name, operator, v))
        kw;
  mret qs.

Definition order_by (self : loc) (fields : list string) : SM loc :=
  qs ← _clone self;
  l ← alloc (Names fields);
  _ ← set_attr qs (set_order_by l);
  mret qs.

Definition limit (self : loc) (n : Z) : SM loc :=
  qs ← _clone self;
  _ ← set_attr qs (set_limit (Some n));
  mret qs.

Definition offset (self : loc) (n : Z) : SM loc :=
  qs ← _clone self;
  _ ← set_attr qs (set_offset (Some n));
  mret qs.

Definition distinct (self : loc) : SM loc :=
  qs ← _clone self;
  _ ← set_attr qs (set_distinct true);
  mret qs.

Definition values (self : loc) (fields : list string) : SM loc :=
  qs ← _clone self;
  _ ← match fields with
      | [] => set_attr qs (set_values_fields None)
      | _ => l ← alloc (Names fields);
             set_attr qs (set_values_fields (Some l))
      end;
  mret qs.

Definition select_related (self : loc) (fields : list string) : SM loc :=
  qs ← _clone self;
  o ← load_object qs;
  sr ← load_names (o_select_related o);
  _ ← write (o_select_related o) (Names (sr ++ fields));
  mret qs.

(** The chaining methods, as one call. *)
Inductive chain_call : Type :=
| CallFilter (kw : kwargs)
| CallExclude (kw : kwargs)
| CallOrderBy (fields : list string)
| CallLimit (n : Z)
| CallOffset (n : Z)
| CallDistinct
| CallValues (fields : list string)
| CallSelectRelated (fields : list string).

Definition call (m : chain_call) (self : loc) : SM loc :=
  match m with
  | CallFilter kw => filter self kw
  | CallExclude kw => exclude self kw
  | CallOrderBy fields => order_by self fields
  | CallLimit n => limit self n
  | CallOffset n => offset self n
  | CallDistinct => distinct self
  | CallValues fields => values self fields
  | CallSelectRelated fields => select_related self fields
  end.

(** The same calls on builder states read as values. *)
Definition call_value (m : chain_call) (q : QuerySet.t) : QuerySet.t :=
  match m with
  | CallFilter kw => QuerySet.filter q kw
  | CallExclude kw => QuerySet.exclude q kw
  | CallOrderBy fields => QuerySet.order_by q fields
  | CallLimit n => QuerySet.limit q n
  | CallOffset n => QuerySet.offset q n
  | CallDistinct => QuerySet.distinct q
  | CallValues fields => QuerySet.values q fields
  | CallSelectRelated fields => QuerySet.select_related q fields
  end.

(** The state of the builder at [l], every field read through the
    store. *)
Definition get_triples (h : store) (l : loc) : option (list triple) :=
  match h !! l with Some (Triples x) => Some x | _ => None end.

Definition get_names (h : store) (l : loc) : option (list string) :=
  match h !! l with Some (Names x) => Some x | _ => None end.

Definition get_object (h : store) (l : loc) : option builder :=
  match h !! l with Some (Object o) => Some o | _ => None end.

Definition view (h : store) (l : loc) : option QuerySet.t :=
  o ← get_object h l;
  fs ← get_triples h (o_filters o);
  es ← get_triples h (o_excludes o);
  ob ← get_names h (o_order_by o);
  sr ← get_names h (o_select_related o);
  vf ← match o_values_fields o with
       | None => Some None
       | Some r => Some <$> get_names h r
       end;
  Some (QuerySet.mk (o_model o) fs es ob (o_limit o) (o_offset o) sr
          (o_distinct o) vf (o_cache o)).

(** [self._cache = rows], the one write a terminal method makes to its
    receiver. *)
Definition set_cache (c : option (list row)) (o : builder) : builder :=
  Builder (o_model o) (o_filters o) (o_excludes o) (o_order_by o) (o_limit o)
    (o_offset o) (o_select_related o) (o_distinct o) (o_values_fields o) c.

End Store.

(* ===================================================================== *)
(** * base/migrations.py                                                  *)
(* ===================================================================== *)

Inductive Operation : Type :=
| CreateTable (table_name : string) (fields : list (string * string))
| DropTable (table_name : string)
| AddColumn (table_name column_name column_definition : string).

Record Migration : Type := {
  name : string;
  operations : list Operation
}.

(** The migrations directory: the file names [os.listdir] returns, and
    what running a migration file leaves in [operations] (or the exception
    reading or running it raises). *)
Class FileSystem : Type := {
  listdir : string -> list string;
  load_operations : string -> result (list Operation)
}.

(** [os.path.join(a, b)]. *)
Definition path_join (a b : string) : string :=
  if startswith "/" b then b
  else if String.eqb a EmptyString || endswith "/" a then a +:+ b
  else a +:+ "/" +:+ b.

(** [sorted(names)]. *)
Fixpoint insert_sorted (x : string) (l : list string) : list string :=
  match l with
  | [] => [x]
  | y :: rest => if String.leb x y then x :: l else y :: insert_sorted x rest
  end.

Definition sorted (l : list string) : list string :=
  fold_right insert_sorted [] l.

Definition create_migrations_table_sql : string :=
  newline
  +:+ "        CREATE TABLE IF NOT EXISTS _migrations (" +:+ newline
  +:+ "            id INTEGER PRIMARY KEY AUTOINCREMENT," +:+ newline
  +:+ "            name VARCHAR(255) UNIQUE NOT NULL," +:+ newline
  +:+ "            applied_at TIMESTAMP DEFAULT CURRENT_TIMESTAMP" +:+ newline
  +:+ "        )" +:+ newline
  +:+ "        ".

Definition select_applied_sql : string :=
  "SELECT name FROM _migrations ORDER BY id".

Definition insert_applied_sql : string :=
  "INSERT INTO _migrations (name) VALUES (?)".

Definition delete_applied_sql : string :=
  "DELETE FROM _migrations WHERE name = ?".

Section migrations.
Context {DB : Type} `{Engine DB}.

(** [Operation.apply] and [Operation.reverse] of the three subclasses. *)
Definition apply_sql (op : Operation) : string :=
  match op with
  | CreateTable table_name fields =>
      let fields_sql :=
        join ", " (map (fun '(n, definition) => n +:+ " " +:+ definition) fields) in
      "CREATE TABLE IF NOT EXISTS " +:+ table_name +:+ " (" +:+ fields_sql +:+ ")"
  | DropTable table_name => "DROP TABLE IF EXISTS " +:+ table_name
  | AddColumn table_name column_name column_definition =>
      "ALTER TABLE " +:+ table_name +:+ " ADD COLUMN " +:+ column_name
        +:+ " " +:+ column_definition
  end.

Definition operation_apply (op : Operation) : CM DB unit :=
  _ ← execute (apply_sql op) []; mret tt.

Definition operation_reverse (op : Operation) : CM DB unit :=
  match op with
  | CreateTable table_name _ =>
      _ ← execute ("DROP TABLE IF EXISTS " +:+ table_name) []; mret tt
  | DropTable _ =>
      raise MigrationError
        "Cannot reverse DropTable operation without schema backup"
  | AddColumn _ _ _ =>
      raise MigrationError "Cannot reverse AddColumn - SQLite limitation"
  end.

(** [for x in xs: body(x)] against the connection. *)
Fixpoint for_all {A} (body : A -> CM DB unit) (xs : list A) : CM DB unit :=
  match xs with
  | [] => mret tt
  | x :: rest => _ ← body x; for_all body rest
  end.

Definition migration_apply (m : Migration) : CM DB unit :=
  _ ← for_all operation_apply (operations m);
  commit.

Definition migration_reverse (m : Migration) : CM DB unit :=
  _ ← for_all operation_reverse (rev (operations m));
  commit.

(** ** MigrationManager *)

Record MigrationManager : Type := {
  migrations_dir : string;
  db_alias : string
}.

Definition create_migrations_table : CM DB unit :=
  _ ← execute create_migrations_table_sql [];
  commit.

Definition row0 (r : row) : result value :=
  match row_first r with
  | Some v => Ok v
  | None => Raise (Exn IndexError "tuple index out of range")
  end.

(** The [except sqlite3.OperationalError] clause of the source cannot
    fire: [Connection.execute] has already turned every engine error into
    the ORM's connection error, which passes through. *)
Definition get_applied_migrations : CM DB (list value) :=
  cur ← execute select_applied_sql [];
  lift (mapM row0 (fetchall cur)).

Definition mark_migration_applied (name : string) : CM DB unit :=
  _ ← execute insert_applied_sql [VStr name];
  commit.

Definition mark_migration_unapplied (name : string) : CM DB unit :=
  _ ← execute delete_applied_sql [VStr name];
  commit.

Context `{FileSystem}.

Definition migration_files (self : MigrationManager) : list string :=
  sorted
    (map drop_last3
       (List.filter (fun f => endswith ".py" f && negb (startswith "__" f))
          (listdir (migrations_dir self)))).

(** [m in applied], for [applied] a set of values read from the
    ledger. *)
Definition in_applied (applied : list value) (m : string) : bool :=
  existsb (fun v => match v with VStr s => String.eqb s m | _ => false end)
    applied.

Definition pending_migrations (applied : list value) (files : list string)
  : list string :=
  List.filter (fun m => negb (in_applied applied m)) files.

Definition apply_pending (self : MigrationManager) (migration_name : string)
  : CM DB unit :=
  let filepath := path_join (migrations_dir self) (migration_name +:+ ".py") in
  operations ← lift (load_operations filepath);
  let migration := Build_Migration migration_name operations in
  try_except
    (_ ← migration_apply migration;
     mark_migration_applied migration_name)
    (fun e => raise MigrationError ("Migration failed: " +:+ exn_msg e)).

Definition migrate (self : MigrationManager) : CM DB unit :=
  _ ← create_migrations_table;
  applied ← get_applied_migrations;
  let migration_files := migration_files self in
  let pending := pending_migrations applied migration_files in
  match pending with
  | [] => mret tt
  | _ => for_all (apply_pending self) pending
  end.
End migrations.

(* ===================================================================== *)
(** * Vocabulary of the properties                                        *)
(* ===================================================================== *)

(** The placeholders of a statement are its [?] characters. *)
Definition count_placeholders (sql : string) : nat := count_char "?" sql.

Definition plain (s : string) : bool := (count_placeholders s =? 0)%nat.

(** The text of a WHERE clause with the given conditions. *)
Definition where_text (conditions : list string) : string :=
  match conditions with
  | [] => EmptyString
  | _ => " WHERE " +:+ join " AND " conditions
  end.

Section clauses.
Context `{Formatter}.

(** One filter, on its own: the condition it contributes and the
    parameters that go with it. *)
Definition filter_clause (f : triple) : result (string * list value) :=
  let '(field_name, operator, v) := f in
  if String.eqb operator "isnull" then
    Ok (field_name +:+ (if py_truthy v then " IS NULL" else " IS NOT NULL"), [])
  else if String.eqb operator "in" then
    _ ← py_len v;
    items ← py_iter v;
    Ok (field_name +:+ " IN (" +:+ QuerySet.placeholders (length items) +:+ ")",
        items)
  else if String.eqb operator "range" then
    items ← py_iter v;
    Ok (field_name +:+ " BETWEEN ? AND ?", items)
  else
    Ok (field_name +:+ " " +:+ get_operator_sql operator +:+ " ?",
        [format_value_for_operator v operator]).

(** One exclusion, in the words of the specification: [in] becomes
    NOT IN with one placeholder per element, [isnull] becomes the flipped
    NULL test without a placeholder, anything else is wrapped in NOT. *)
Definition exclude_clause (f : triple) : result (string * list value) :=
  let '(field_name, operator, v) := f in
  if String.eqb operator "in" then
    _ ← py_len v;
    items ← py_iter v;
    Ok (field_name +:+ " NOT IN (" +:+ QuerySet.placeholders (length items) +:+ ")",
        items)
  else if String.eqb operator "isnull" then
    Ok (field_name +:+ (if py_truthy v then " IS NOT NULL" else " IS NULL"), [])
  else
    Ok ("NOT (" +:+ field_name +:+ " " +:+ get_operator_sql operator +:+ " ?)",
        [format_value_for_operator v operator]).

(** The WHERE clause and the parameters put together from the clauses of
    the filters, then those of the exclusions. *)
Definition where_of_clauses (self : QuerySet.t) : result (string * list value) :=
  fcs ← mapM filter_clause (QuerySet._filters self);
  ecs ← mapM exclude_clause (QuerySet._excludes self);
  Ok (where_text (map fst (fcs ++ ecs)), concat (map snd (fcs ++ ecs))).
End clauses.

(** No table, field, projection or ordering name holds a [?]. *)
Definition plain_names (self : QuerySet.t) : bool :=
  plain (_table_name (QuerySet.model self))
  && forallb (fun f : triple => plain f.1.1) (QuerySet._filters self)
  && forallb (fun f : triple => plain f.1.1) (QuerySet._excludes self)
  && forallb plain (QuerySet._order_by self)
  && forallb plain (default [] (QuerySet._values_fields self)).

(** Every [range] filter carries exactly two values. *)
Definition ranges_are_pairs (self : QuerySet.t) : bool :=
  forallb
    (fun f : triple =>
       if String.eqb f.1.2 "range"
       then match py_iter f.2 with Ok [_; _] => true | _ => false end
       else true)
    (QuerySet._filters self).

(** The [SELECT ... FROM table] head and the ORDER BY / LIMIT / OFFSET tail
    that [_build_sql] puts around the WHERE clause. *)
Definition select_head (self : QuerySet.t) : string :=
  let select_fields :=
    match QuerySet._values_fields self with
    | Some ((_ :: _) as fields) => join ", " fields
    | _ => "*"
    end in
  (if QuerySet._distinct self then "SELECT DISTINCT " else "SELECT ")
    +:+ select_fields +:+ " FROM " +:+ _table_name (QuerySet.model self).

Definition select_tail (self : QuerySet.t) : string :=
  (match QuerySet._order_by self with
   | _ :: _ => " ORDER BY " +:+ join ", " (map QuerySet.order_part (QuerySet._order_by self))
   | [] => EmptyString
   end)
  +:+ (match QuerySet._limit self with
       | Some n => " LIMIT " +:+ str_of_Z n
       | None => EmptyString
       end)
  +:+ (match QuerySet._offset self with
       | Some n => " OFFSET " +:+ str_of_Z n
       | None => EmptyString
       end).

(** The builders [first] and [last] run: [first] limits the receiver to
    one row; [last] also replaces the ordering by the flipped one, taken
    from the primary key when there is none. *)
Definition first_query (self : QuerySet.t) : QuerySet.t :=
  QuerySet.with_limit (Some 1) (QuerySet.with_cache None self).

Definition last_query (self : QuerySet.t) : QuerySet.t :=
  QuerySet.with_limit (Some 1)
    (QuerySet.with_order_by
       (map QuerySet.flip_direction
          (match QuerySet._order_by self with [] => ["id"] | o => o end))
       (QuerySet.with_cache None self)).

(** What is left of a builder when only its model, filters and exclusions
    are kept. *)
Definition base_query (self : QuerySet.t) : QuerySet.t :=
  QuerySet.mk (QuerySet.model self) (QuerySet._filters self)
    (QuerySet._excludes self) [] None None [] false None None.

(** What the migration manager relies on from the engine for its ledger
    table [_migrations]: the names it holds can be read off the database;
    the SELECT of [get_applied_migrations] returns them, one row each, and
    changes nothing; the INSERT of [mark_migration_applied] adds the name
    at the end; creating the table when it may exist, and committing, keep
    them. *)
Class Ledger (DB : Type) `{Engine DB} : Type := {
  ledger_names : DB -> list string;
  ledger_select : forall d d' cur,
    engine_execute d select_applied_sql [] = inr (d', cur) ->
    d' = d /\ mapM row0 (fetchall cur) = Ok (map VStr (ledger_names d));
  ledger_insert : forall d m d' cur,
    engine_execute d insert_applied_sql [VStr m] = inr (d', cur) ->
    ledger_names d' = ledger_names d ++ [m];
  ledger_create : forall d d' cur,
    engine_execute d create_migrations_table_sql [] = inr (d', cur) ->
    ledger_names d' = ledger_names d;
  ledger_commit : forall d, ledger_names (engine_commit d) = ledger_names d
}.

(** The migrations in the directory do not touch the ledger table: the
    statement of each of their operations leaves its names as they are. *)
Definition operations_keep_ledger {DB : Type} `{Ledger DB} `{FileSystem} : Prop :=
  forall path ops op d d' cur,
    load_operations path = Ok ops ->
    In op ops ->
    engine_execute d (apply_sql op) [] = inr (d', cur) ->
    ledger_names d' = ledger_names d.

(** What [migrate] sends when it has nothing to apply. *)
Definition bookkeeping (ev : event) : Prop :=
  ev = EvExecute create_migrations_table_sql []
  \/ ev = EvCommit
  \/ ev = EvExecute select_applied_sql [].

(* ===================================================================== *)
(** * base/query.py: update, indexing and values_list                     *)
(* ===================================================================== *)

(** [field.to_db(value)], the field-type system's conversion of a value
    on its way to the database. *)
Class FieldCodec : Type := to_db : Field -> value -> result value.

(** [fields[name]] in the [_fields] dictionary of a model. *)
Fixpoint fields_get (name : string) (fields : list (string * Field))
  : option Field :=
  match fields with
  | [] => None
  | (k, f) :: rest => if String.eqb k name then Some f else fields_get name rest
  end.

(** A subscript: [qs[start:stop:step]], [qs[n]], or anything else. *)
Inductive subscript : Type :=
| Slice (start stop step : option Z)
| Index (n : Z)
| OtherKey.

Module QuerySetMethods.
Import QuerySet.

Section methods.
Context `{Formatter} `{FieldCodec} {DB : Type} `{Engine DB}.

(** The loop of [update] carries [set_parts] and [set_params]. *)
Definition update_step (m : Model) (acc : list string * list value)
    (kv : string * value) : result (list string * list value) :=
  let '(set_parts, set_params) := acc in
  let '(field_name, v) := kv in
  match fields_get field_name (_fields m) with
  | None => Raise (Exn QueryError ("Unknown field: " +:+ field_name))
  | Some field =>
      let set_parts := set_parts ++ [get_db_column field +:+ " = ?"] in
      w ← to_db field v;
      Ok (set_parts, set_params ++ [w])
  end.

Definition update (self : t) (kw : kwargs) : CM DB Z :=
  match kw with
  | [] => mret 0
  | _ =>
      let table_name := _table_name (model self) in
      '(where_clause, where_params) ← lift (_build_where_clause self);
      '(set_parts, set_params) ← lift (for_each (update_step (model self)) ([], []) kw);
      let sql :=
        "UPDATE " +:+ table_name +:+ " SET " +:+ join ", " set_parts
          +:+ where_clause in
      let params := set_params ++ where_params in
      cur ← execute sql params;
      _ ← commit;
      mret (rowcount cur)
  end.

(** The builder a slice runs: a clone with the offset set from [start]
    and the limit from [stop]; [step] is not looked at. *)
Definition slice_query (self : t) (start stop : option Z) : t :=
  let qs := _clone self in
  let qs :=
    match start with
    | Some s => with_offset (Some s) qs
    | None => qs
    end in
  match stop with
  | Some e =>
      match start with
      | Some s => with_limit (Some (e - s)) qs
      | None => with_limit (Some e) qs
      end
  | None => qs
  end.

Definition __getitem__ (self : t) (key : subscript)
  : CM DB (list instance + instance) :=
  match key with
  | Slice start stop _ =>
      '(results, _) ← all (slice_query self start stop);
      mret (inl results)
  | Index n =>
      let qs := limit (offset self n) 1 in
      '(results, _) ← all qs;
      match results with
      | [] => raise IndexError "QuerySet index out of range"
      | x :: _ => mret (inr x)
      end
  | OtherKey => raise TypeError "QuerySet indices must be integers or slices"
  end.

(** [row[name]]; a name that matches no column is an [IndexError]. *)
Definition row_item (name : string) (r : row) : result value :=
  match row_lookup name r with
  | Some v => Ok v
  | None => Raise (Exn IndexError "No item with that key")
  end.

(** [tuple(row[f] for f in fields)]. *)
Definition row_tuple (fields : list string) (r : row) : result value :=
  items ← mapM (fun f => row_item f r) fields;
  Ok (VTuple items).

Definition values_list (self : t) (fields : list string) (flat : bool)
  : CM DB (list value * t) :=
  '(rows, self') ← _execute self;
  results ← lift
    (mapM (fun r =>
             if flat && (length fields =? 1)%nat
             then row_item (List.hd EmptyString fields) r
             else row_tuple fields r)
       rows);
  mret (results, self').
End methods.

End QuerySetMethods.

(** [Manager]: every call starts from a new builder for the model. *)
Module Manager.
Definition get_queryset (m : Model) : QuerySet.t := QuerySet.__init__ m.
Definition all (m : Model) : QuerySet.t := get_queryset m.
Definition filter (m : Model) (kw : kwargs) : QuerySet.t :=
  QuerySet.filter (get_queryset m) kw.
Definition exclude (m : Model) (kw : kwargs) : QuerySet.t :=
  QuerySet.exclude (get_queryset m) kw.
End Manager.

(* ===================================================================== *)
(** * base/migrations.py: rollback and change detection                   *)
(* ===================================================================== *)

(** [l[start:]]. *)
Definition slice_from {A} (start : Z) (l : list A) : list A :=
  let n := Z.of_nat (length l) in
  let s := if start <? 0 then Z.max (start + n) 0 else Z.min start n in
  drop (Z.to_nat s) l.

(** [f"{name}"] for a name read from the ledger: a string is itself. *)
Definition name_text `{Formatter} (v : value) : string :=
  match v with
  | VStr s => s
  | _ => py_str v
  end.

(** [s.split(' ', 1)[1]]: what follows the first space. *)
Fixpoint after_space (s : string) : result string :=
  match s with
  | EmptyString => Raise (Exn IndexError "list index out of range")
  | String c rest => if Ascii.eqb c " " then Ok rest else after_space rest
  end.

(** [field.get_sql_definition()], the field-type system's column
    definition: the column name, a space, then type and constraints. *)
Class FieldSQL : Type := get_sql_definition : Field -> string.

Definition select_tables_sql : string :=
  "SELECT name FROM sqlite_master WHERE type='table' AND name NOT LIKE '\_%'".

Definition row1 (r : row) : result value :=
  match r with
  | _ :: (_, v) :: _ => Ok v
  | _ => Raise (Exn IndexError "tuple index out of range")
  end.

Section migrations_more.
Context `{Formatter} `{FieldSQL} {DB : Type} `{Engine DB} `{FileSystem}.

Definition mark_unapplied (name : value) : CM DB unit :=
  _ ← execute delete_applied_sql [name];
  commit.

Definition rollback_one (self : MigrationManager) (migration_name : value)
  : CM DB unit :=
  let filepath :=
    path_join (migrations_dir self) (name_text migration_name +:+ ".py") in
  operations ← lift (load_operations filepath);
  let migration := Build_Migration (name_text migration_name) operations in
  try_except
    (_ ← migration_reverse migration;
     mark_unapplied migration_name)
    (fun e => raise MigrationError ("Rollback failed: " +:+ exn_msg e)).

Definition rollback (self : MigrationManager) (steps : Z) : CM DB unit :=
  applied ← get_applied_migrations;
  match applied with
  | [] => mret tt
  | _ =>
      let to_rollback := slice_from (- steps) applied in
      for_all (rollback_one self) (rev to_rollback)
  end.

(** The operations [auto_detect_changes] emits for one model. *)
Definition new_table_fields (m : Model) : result (list (string * string)) :=
  mapM (fun f : string * Field =>
          definition ← after_space (get_sql_definition f.2);
          Ok (get_db_column f.2, definition))
    (_fields m).

Definition new_columns (m : Model) (existing_columns : list value)
  : result (list Operation) :=
  for_each
    (fun ops (f : string * Field) =>
       let col_name := get_db_column f.2 in
       if negb (in_applied existing_columns col_name) then
         col_def ← after_space (get_sql_definition f.2);
         Ok (ops ++ [AddColumn (_table_name m) col_name col_def])
       else Ok ops)
    [] (_fields m).

Definition detect_model (existing_tables : list value) (m : Model)
  : CM DB (list Operation) :=
  let table_name := _table_name m in
  if negb (in_applied existing_tables table_name) then
    fields ← lift (new_table_fields m);
    mret [CreateTable table_name fields]
  else
    cur ← execute ("PRAGMA table_info(" +:+ table_name +:+ ")") [];
    existing_columns ← lift (mapM row1 (fetchall cur));
    lift (new_columns m existing_columns).

Fixpoint detect_models (existing_tables : list value) (operations : list Operation)
    (models : list Model) : CM DB (list Operation) :=
  match models with
  | [] => mret operations
  | m :: rest =>
      ops ← detect_model existing_tables m;
      detect_models existing_tables (operations ++ ops) rest
  end.

Definition auto_detect_changes (models : list Model) : CM DB (list Operation) :=
  cur ← execute select_tables_sql [];
  existing_tables ← lift (mapM row0 (fetchall cur));
  detect_models existing_tables [] models.
End migrations_more.

(* ===================================================================== *)
(** * Vocabulary of the further properties                                *)
(* ===================================================================== *)

(** Strings, lists and tuples: values with a length and elements. *)
Definition has_elements (v : value) : bool :=
  match v with
  | VStr _ | VList _ | VTuple _ => true
  | _ => false
  end.

(** [None], booleans and integers: values with neither. *)
Definition is_scalar (v : value) : bool :=
  match v with
  | VNone | VBool _ | VInt _ => true
  | _ => false
  end.

(** Every [in] lookup, and every [range] filter, carries a string, a
    list or a tuple. *)
Definition filter_buildable (f : triple) : bool :=
  if String.eqb f.1.2 "in" || String.eqb f.1.2 "range"
  then has_elements f.2 else true.

Definition exclude_buildable (f : triple) : bool :=
  if String.eqb f.1.2 "in" then has_elements f.2 else true.

Definition buildable (self : QuerySet.t) : bool :=
  forallb filter_buildable (QuerySet._filters self)
  && forallb exclude_buildable (QuerySet._excludes self).

(** Some [in] lookup, or some [range] filter, carries [None], a boolean
    or an integer. *)
Definition filter_on_scalar (f : triple) : bool :=
  (String.eqb f.1.2 "in" || String.eqb f.1.2 "range") && is_scalar f.2.

Definition exclude_on_scalar (f : triple) : bool :=
  String.eqb f.1.2 "in" && is_scalar f.2.

Definition carries_scalar (self : QuerySet.t) : bool :=
  existsb filter_on_scalar (QuerySet._filters self)
  || existsb exclude_on_scalar (QuerySet._excludes self).

(** The operators [get_operator_sql] knows. *)
Definition known_operators : list string :=
  ["exact"; "gt"; "gte"; "lt"; "lte"; "ne"; "in"; "contains"; "icontains";
   "startswith"; "istartswith"; "endswith"; "iendswith"; "isnull"; "range"].

(** The events of applying operations, one statement each. *)
Definition apply_events (ops : list Operation) : list event :=
  map (fun op => EvExecute (apply_sql op) []) ops.

(** An operation names a table of one of the models, and is not a drop. *)
Definition grows_declared (models : list Model) (op : Operation) : Prop :=
  match op with
  | CreateTable t _ | AddColumn t _ _ => exists m, In m models /\ t = _table_name m
  | DropTable _ => False
  end.

(** A statement that only reads. *)
Definition reads_only (ev : event) : Prop :=
  match ev with
  | EvExecute sql _ =>
      String.prefix "SELECT " sql = true \/ String.prefix "PRAGMA " sql = true
  | EvCommit => False
  end.

(** One assignment of [update], on its own: the SET part and its
    parameter. *)
Definition assignment `{FieldCodec} (m : Model) (kv : string * value)
  : result (string * value) :=
  match fields_get kv.1 (_fields m) with
  | None => Raise (Exn QueryError ("Unknown field: " +:+ kv.1))
  | Some field => w ← to_db field kv.2; Ok (get_db_column field +:+ " = ?", w)
  end.

(* ===================================================================== *)
(** * base/utils.py: pluralize and escape_sql_identifier                  *)
(* ===================================================================== *)

(** [s[:-1]]. *)
Definition drop_last (s : string) : string :=
  String.substring 0 (String.length s - 1) s.

Definition pluralize (word : string) : string :=
  if endswith "y" word then drop_last word +:+ "ies"
  else if endswith "s" word then word +:+ "es"
  else word +:+ "s".

(** The double quote character. *)
Definition quote : ascii := Ascii.ascii_of_nat 34.

(** [s.replace(c, new)] for a pattern of the one character [c]. *)
Fixpoint replace_char (c : ascii) (new s : string) : string :=
  match s with
  | EmptyString => EmptyString
  | String a rest =>
      (if Ascii.eqb a c then new else String a EmptyString)
        +:+ replace_char c new rest
  end.

Definition escape_sql_identifier (identifier : string) : string :=
  let identifier :=
    replace_char quote (String quote (String quote EmptyString)) identifier in
  String quote EmptyString +:+ identifier +:+ String quote EmptyString.

(** How SQL reads a quoted identifier, after its opening quote: up to the
    first quote that is not doubled, a doubled quote standing for one
    quote of the name.  The result is the name and the text left. *)
Fixpoint read_quoted (s : string) : option (string * string) :=
  match s with
  | EmptyString => None
  | String a rest =>
      if Ascii.eqb a quote then
        match rest with
        | String b rest' =>
            if Ascii.eqb b quote then
              match read_quoted rest' with
              | Some (name, text_left) => Some (String quote name, text_left)
              | None => None
              end
            else Some (EmptyString, rest)
        | EmptyString => Some (EmptyString, EmptyString)
        end
      else
        match read_quoted rest with
        | Some (name, text_left) => Some (String a name, text_left)
        | None => None
        end
  end.

Definition read_identifier (s : string) : option (string * string) :=
  match s with
  | String a rest => if Ascii.eqb a quote then read_quoted rest else None
  | EmptyString => None
  end.

Definition starts_with_quote (s : string) : bool :=
  match s with
  | String a _ => Ascii.eqb a quote
  | EmptyString => false
  end.

(* ===================================================================== *)
(** * base/fields.py: column definitions                                  *)
(* ===================================================================== *)

Module Fields.

(** The [default] of a field: [None], a callable, or a value. *)
Inductive default_value : Type :=
| NoDefault
| CallableDefault
| ValueDefault (v : value).

(** The attributes [Field.__init__] stores, and the [name] the metaclass
    sets. *)
Record options : Type := Options {
  primary_key : bool;
  unique : bool;
  null : bool;
  default : default_value;
  db_column : option string;
  name : string
}.

(** The classes by their [get_sql_definition]: [Field] itself and the
    subclasses that inherit it (TextField, FloatField, BooleanField,
    DateTimeField, JSONField) differ in [sql_type] and [to_db];
    IntegerField, CharField and ForeignKey override the method.
    [ref_table] is the table name a ForeignKey computes from [to]. *)
Inductive kind : Type :=
| Plain (sql_type : string) (to_db : value -> value)
| IntegerField (auto_increment : bool)
| CharField (max_length : value)
| ForeignKey (ref_table : string) (on_delete : string).

Record t : Type := Decl { field_kind : kind; field_options : options }.

(** [self.db_column or self.name]. *)
Definition get_db_column (f : t) : string :=
  match db_column (field_options f) with
  | Some (String a s) => String a s
  | _ => name (field_options f)
  end.

(** [if cond: parts.append(part)]. *)
Definition when (cond : bool) (part : string) : list string :=
  if cond then [part] else [].

(** [if self.default is not None and not callable(self.default):
    parts.append(f"DEFAULT ...")]. *)
Definition default_part (render : value -> string) (d : default_value)
  : list string :=
  match d with
  | NoDefault | CallableDefault | ValueDefault VNone => []
  | ValueDefault v => ["DEFAULT " +:+ render v]
  end.

Definition get_sql_definition `{Formatter} (f : t) : string :=
  let o := field_options f in
  match field_kind f with
  | Plain sql_type to_db =>
      let parts := [get_db_column f; sql_type] in
      let parts := parts ++ when (primary_key o) "PRIMARY KEY" in
      let parts := parts ++ when (unique o && negb (primary_key o)) "UNIQUE" in
      let parts := parts ++ when (negb (null o) && negb (primary_key o)) "NOT NULL" in
      let parts := parts ++ default_part (fun v => py_str (to_db v)) (default o) in
      join " " parts
  | IntegerField auto_increment =>
      let parts := [get_db_column f; "INTEGER"] in
      let parts :=
        if primary_key o then
          if auto_increment then parts ++ ["PRIMARY KEY AUTOINCREMENT"]
          else parts ++ ["PRIMARY KEY"]
        else
          let parts := parts ++ when (unique o) "UNIQUE" in
          let parts := parts ++ when (negb (null o)) "NOT NULL" in
          parts ++ default_part py_str (default o) in
      join " " parts
  | CharField max_length =>
      let parts := [get_db_column f; "VARCHAR" +:+ "(" +:+ py_str max_length +:+ ")"] in
      let parts := parts ++ when (primary_key o) "PRIMARY KEY" in
      let parts := parts ++ when (unique o && negb (primary_key o)) "UNIQUE" in
      let parts := parts ++ when (negb (null o) && negb (primary_key o)) "NOT NULL" in
      let parts :=
        parts ++ default_part (fun v => "'" +:+ py_str v +:+ "'") (default o) in
      join " " parts
  | ForeignKey ref_table on_delete =>
      let parts := [get_db_column f; "INTEGER"] in
      let parts := parts ++ when (negb (null o)) "NOT NULL" in
      let parts :=
        parts ++ ["REFERENCES " +:+ ref_table +:+ "(id) ON DELETE " +:+ on_delete] in
      join " " parts
  end.

End Fields.

(* ===================================================================== *)
(** * A small interpreter, engine and directory to run the code on        *)
(* ===================================================================== *)

Module Demo.

(** [repr] and [str] on the values used below; exact for strings
    without quotes, backslashes or control characters. *)
Fixpoint py_repr (v : value) : string :=
  match v with
  | VNone => "None"
  | VBool true => "True"
  | VBool false => "False"
  | VInt n => str_of_Z n
  | VStr s => "'" +:+ s +:+ "'"
  | VList xs => "[" +:+ join ", " (map py_repr xs) +:+ "]"
  | VTuple [x] => "(" +:+ py_repr x +:+ ",)"
  | VTuple xs => "(" +:+ join ", " (map py_repr xs) +:+ ")"
  end.

Global Instance formatter : Formatter := fun v =>
  match v with
  | VStr s => s
  | _ => py_repr v
  end.

(** What follows the first occurrence of [pat] in [s]. *)
Fixpoint after (pat s : string) : option string :=
  if String.prefix pat s
  then Some (String.substring (String.length pat)
               (String.length s - String.length pat) s)
  else match s with
       | EmptyString => None
       | String _ rest => after pat rest
       end.

Fixpoint leading_number (s : string) (acc : nat) : nat :=
  match s with
  | EmptyString => acc
  | String c rest =>
      match Ascii.is_nat c with
      | Some d => leading_number rest (10 * acc + d)
      | None => acc
      end
  end.

Definition limit_of (sql : string) : option nat :=
  s ← after " LIMIT " sql; Some (leading_number s 0).

(** A one-table engine that scans: every row matches every condition,
    LIMIT is honoured, COUNT counts, and the migration ledger is a list
    of names that must stay distinct.  An integer parameter that does
    not fit in 64 bits overflows. *)
Record db : Type := Db { table : list row; ledger : list string }.

Definition no_rows : cursor := Cursor [] (-1).

Definition run (d : db) (sql : string) (params : list value)
  : engine_error + (db * cursor) :=
  if negb (forallb fits_int64 params) then inl IntTooLarge
  else if String.eqb sql insert_applied_sql then
    match params with
    | [VStr m] =>
        if existsb (String.eqb m) (ledger d)
        then inl (SqliteError "UNIQUE constraint failed: _migrations.name")
        else inr (Db (table d) (ledger d ++ [m]), Cursor [] 1)
    | _ => inl (SqliteError "Incorrect number of bindings supplied")
    end
  else if String.eqb sql select_applied_sql then
    inr (d, Cursor (map (fun m => [("name", VStr m)]) (ledger d)) (-1))
  else if String.prefix "SELECT COUNT(*) FROM " sql then
    inr (d, Cursor [[("COUNT(*)", VInt (Z.of_nat (length (table d))))]] (-1))
  else if String.prefix "SELECT " sql then
    let rows :=
      match limit_of sql with
      | Some n => take n (table d)
      | None => table d
      end in
    inr (d, Cursor rows (-1))
  else if String.prefix "DELETE FROM " sql then
    inr (Db [] (ledger d), Cursor [] (Z.of_nat (length (table d))))
  else inr (d, no_rows).

Lemma demo_run_overflow (d : db) (sql : string) (params : list value) :
  run d sql params = inl IntTooLarge -> forallb fits_int64 params = false.
Proof.
  unfold run. destruct (forallb fits_int64 params); [|done]. simpl.
  repeat match goal with
         | |- context [if ?b then _ else _] => destruct b
         | |- context [match ?x with _ => _ end] => destruct x
         end; discriminate.
Qed.

Global Instance engine : Engine db := {
  engine_execute := run;
  engine_commit := fun d => d;
  engine_overflow := demo_run_overflow
}.

Definition connect (rows : list row) : Connection db := Conn (Db rows []) [].

(** A model with an integer key and two columns. *)
Definition plain_field (column : string) : Field :=
  {| get_db_column := column; to_python := fun v => Ok v |}.

Definition Person : Model := {|
  __name__ := "Person";
  _table_name := "persons";
  _fields := [("id", plain_field "id"); ("name", plain_field "name");
              ("age", plain_field "age")]
|}.

(** [int(value)] on the values used below; text is read as ASCII: white
    space around, a sign, then digits with single underscores between
    them. *)
Definition is_space (a : ascii) : bool :=
  let n := nat_of_ascii a in
  ((9 <=? n) && (n <=? 13) || (n =? 32))%nat.

Fixpoint lstrip (s : string) : string :=
  match s with
  | String a rest => if is_space a then lstrip rest else s
  | EmptyString => EmptyString
  end.

Definition strip (s : string) : string :=
  String.rev (lstrip (String.rev (lstrip s))).

Fixpoint digits (s : string) (acc : Z) (after_digit : bool) : option Z :=
  match s with
  | EmptyString => if after_digit then Some acc else None
  | String a rest =>
      match Ascii.is_nat a with
      | Some d => digits rest (10 * acc + Z.of_nat d) true
      | None =>
          if Ascii.eqb a "_" && after_digit then digits rest acc false
          else None
      end
  end.

Definition int_literal (s : string) : option Z :=
  match strip s with
  | String "-" rest => n ← digits rest 0 false; Some (- n)
  | String "+" rest => digits rest 0 false
  | text => digits text 0 false
  end.

Definition py_int (v : value) : result value :=
  match v with
  | VInt n => Ok (VInt n)
  | VBool b => Ok (VInt (if b then 1 else 0))
  | VStr s =>
      match int_literal s with
      | Some n => Ok (VInt n)
      | None =>
          Raise (Exn ValueError
                   ("invalid literal for int() with base 10: " +:+ py_repr v))
      end
  | _ =>
      Raise (Exn TypeError
               ("int() argument must be a string, a bytes-like object or a real number, not '"
                  +:+ py_type_name v +:+ "'"))
  end.

(** An [IntegerField]: [to_python] keeps [None] and is [int(value)]
    otherwise. *)
Definition integer_field (column : string) : Field :=
  {| get_db_column := column;
     to_python := fun v => match v with VNone => Ok VNone | _ => py_int v end |}.

(** A model with two integer fields, and two rows of its table, the
    second with a text in the integer column. *)
Definition Reading : Model := {|
  __name__ := "Reading";
  _table_name := "readings";
  _fields := [("id", integer_field "id"); ("level", integer_field "level")]
|}.

Definition two_readings : list row :=
  [[("id", VInt 1); ("level", VInt 3)]; [("id", VInt 2); ("level", VStr "low")]].

Definition person (id : Z) (name : string) (age : Z) : row :=
  [("id", VInt id); ("name", VStr name); ("age", VInt age)].

Definition three_persons : list row :=
  [person 1 "Ann" 31; person 2 "Bob" 17; person 3 "Ann" 52].

(** A migrations directory with two migration files. *)
Global Instance directory : FileSystem := {
  listdir := fun _ => ["0002_views.py"; "__init__.py"; "0001_init.py"; "notes.txt"];
  load_operations := fun path =>
    if String.eqb path "migrations/0001_init.py" then
      Ok [CreateTable "authors" [("id", "INTEGER PRIMARY KEY"); ("name", "VARCHAR(100)")]]
    else if String.eqb path "migrations/0002_views.py" then
      Ok [AddColumn "authors" "views" "INTEGER"]
    else Raise (Exn OtherError "No such file or directory")
}.

(** The same directory with a second migration that cannot be read and
    a third one behind it. *)
Definition broken_directory : FileSystem := {|
  listdir := fun _ => ["0003_more.py"; "0002_bad.py"; "0001_init.py"];
  load_operations := fun path =>
    if String.eqb path "migrations/0001_init.py" then
      Ok [CreateTable "authors" [("id", "INTEGER PRIMARY KEY"); ("name", "VARCHAR(100)")]]
    else if String.eqb path "migrations/0003_more.py" then
      Ok [DropTable "drafts"]
    else Raise (Exn OtherError "invalid syntax")
|}.

Definition manager : MigrationManager :=
  {| migrations_dir := "migrations"; db_alias := "default" |}.

(** Values go to the database as they are, and every column definition is
    the column name followed by a type. *)
Global Instance codec : FieldCodec := fun _ v => Ok v.

Global Instance field_sql : FieldSQL := fun f =>
  get_db_column f +:+ " "
    +:+ (if String.eqb (get_db_column f) "id" then "INTEGER PRIMARY KEY"
         else if String.eqb (get_db_column f) "name" then "VARCHAR(100) NOT NULL"
         else "INTEGER").

End Demo.

(* ===================================================================== *)
(** * An engine whose ledger table can be dropped                         *)
(* ===================================================================== *)

Module Resettable.

(** The database is the ledger table alone: absent, or the names it
    holds.  Creating it when it may exist keeps it, dropping it removes
    it, and reading it or inserting into it while it is absent is
    refused.  Every other statement is accepted and changes nothing. *)
Record db : Type := Db { ledger : option (list string) }.

Definition create_ledger_prefix : string :=
  "CREATE TABLE IF NOT EXISTS _migrations ".

Definition run (d : db) (sql : string) (params : list value)
  : engine_error + (db * cursor) :=
  if negb (forallb fits_int64 params) then inl IntTooLarge
  else if String.eqb sql create_migrations_table_sql
          || String.prefix create_ledger_prefix sql then
    inr (Db (Some (default [] (ledger d))), Demo.no_rows)
  else if String.eqb sql "DROP TABLE IF EXISTS _migrations" then
    inr (Db None, Demo.no_rows)
  else if String.eqb sql insert_applied_sql then
    match ledger d, params with
    | None, _ => inl (SqliteError "no such table: _migrations")
    | Some names, [VStr m] =>
        if existsb (String.eqb m) names
        then inl (SqliteError "UNIQUE constraint failed: _migrations.name")
        else inr (Db (Some (names ++ [m])), Cursor [] 1)
    | Some _, _ => inl (SqliteError "Incorrect number of bindings supplied")
    end
  else if String.eqb sql select_applied_sql then
    match ledger d with
    | None => inl (SqliteError "no such table: _migrations")
    | Some names =>
        inr (d, Cursor (map (fun m => [("name", VStr m)]) names) (-1))
    end
  else inr (d, Demo.no_rows).

Lemma reset_run_overflow (d : db) (sql : string) (params : list value) :
  run d sql params = inl IntTooLarge -> forallb fits_int64 params = false.
Proof.
  unfold run. destruct (forallb fits_int64 params); [|done]. simpl.
  repeat match goal with
         | |- context [if ?b then _ else _] => destruct b
         | |- context [match ?x with _ => _ end] => destruct x
         end; discriminate.
Qed.

Definition engine : Engine db := {|
  engine_execute := run;
  engine_commit := fun d => d;
  engine_overflow := reset_run_overflow
|}.

(** A directory whose second migration drops the ledger table and
    creates it again. *)
Definition directory : FileSystem := {|
  listdir := fun _ => ["0001_init.py"; "0002_reset.py"];
  load_operations := fun path =>
    if String.eqb path "migrations/0001_init.py" then
      Ok [CreateTable "authors" [("id", "INTEGER PRIMARY KEY"); ("name", "VARCHAR(100)")]]
    else if String.eqb path "migrations/0002_reset.py" then
      Ok [DropTable "_migrations";
          CreateTable "_migrations"
            [("id", "INTEGER PRIMARY KEY AUTOINCREMENT");
             ("name", "VARCHAR(255) UNIQUE NOT NULL");
             ("applied_at", "TIMESTAMP DEFAULT CURRENT_TIMESTAMP")]]
    else Raise (Exn OtherError "No such file or directory")
|}.

Definition migrate : CM db unit :=
  @migrate db engine directory Demo.manager.

End Resettable.

(* ===================================================================== *)
(** * Checks of the string primitives on concrete inputs                  *)
(* ===================================================================== *)

Example parse_lookup_gt : parse_lookup "age__gt" = ("age", "gt").
Proof. reflexivity. Qed.

Example parse_lookup_plain : parse_lookup "name" = ("name", "exact").
Proof. reflexivity. Qed.

Example parse_lookup_nested :
  parse_lookup "author__name__icontains" = ("author__name", "icontains").
Proof. reflexivity. Qed.

Example parse_lookup_three_underscores :
  parse_lookup "a___b" = ("a", "_b").
Proof. reflexivity. Qed.

Example str_of_Z_examples :
  str_of_Z 10 = "10" /\ str_of_Z 0 = "0" /\ str_of_Z (-7) = "-7".
Proof. repeat split; reflexivity. Qed.

Example replace_first_example :
  replace_first "SELECT *" "SELECT 1" "SELECT * FROM t" = "SELECT 1 FROM t".
Proof. reflexivity. Qed.

(* ===================================================================== *)
(** * Counting characters                                                 *)
(* ===================================================================== *)

Lemma append_cons a (s t : string) : String a s +:+ t = String a (s +:+ t).
Proof. reflexivity. Qed.

Lemma append_nil_l (s : string) : EmptyString +:+ s = s.
Proof. reflexivity. Qed.

Lemma append_nil_r (s : string) : s +:+ EmptyString = s.
Proof. induction s as [|a s IH]; [done|]. by rewrite append_cons, IH. Qed.

Lemma append_assoc (s t u : string) : (s +:+ t) +:+ u = s +:+ (t +:+ u).
Proof. induction s as [|a s IH]; [done|]. by rewrite !append_cons, IH. Qed.

Lemma count_char_app c (s t : string) :
  count_char c (s +:+ t) = (count_char c s + count_char c t)%nat.
Proof.
  induction s as [|a s IH]; [done|].
  rewrite append_cons. simpl. rewrite IH. lia.
Qed.

Lemma count_char_join c sep (l : list string) :
  count_char c (join sep l)
  = (sum_list (map (count_char c) l) + (length l - 1) * count_char c sep)%nat.
Proof.
  unfold join. induction l as [|x l IH]; [done|].
  destruct l as [|y l].
  - simpl. lia.
  - change (String.concat sep (x :: y :: l))
      with (x +:+ sep +:+ String.concat sep (y :: l)).
    rewrite !count_char_app, IH. simpl. lia.
Qed.

Lemma count_placeholders_app (s t : string) :
  count_placeholders (s +:+ t) = (count_placeholders s + count_placeholders t)%nat.
Proof. apply count_char_app. Qed.

Lemma count_placeholders_placeholders n :
  count_placeholders (QuerySet.placeholders n) = n.
Proof.
  unfold count_placeholders, QuerySet.placeholders.
  rewrite count_char_join, repeat_length.
  replace (count_char "?" ",") with 0%nat by reflexivity.
  induction n as [|n IH]; [done|].
  simpl in *. lia.
Qed.

Lemma count_string_of_uint c d :
  (c <> "0" -> c <> "1" -> c <> "2" -> c <> "3" -> c <> "4" -> c <> "5" ->
   c <> "6" -> c <> "7" -> c <> "8" -> c <> "9" ->
   count_char c (NilZero.string_of_uint d) = 0)%char%nat.
Proof.
  intros.
  assert (Hnil : forall u, count_char c (NilEmpty.string_of_uint u) = 0%nat).
  { induction u as [|u IH|u IH|u IH|u IH|u IH|u IH|u IH|u IH|u IH|u IH];
      cbn [count_char NilEmpty.string_of_uint]; [done|..]; rewrite IH;
      match goal with
      | |- context [Ascii.eqb ?a c] =>
          destruct (Ascii.eqb_spec a c) as [Heq|]; [symmetry in Heq; done|done]
      end. }
  unfold NilZero.string_of_uint. destruct d; try apply Hnil.
  apply (Hnil (Decimal.D0 Decimal.Nil)).
Qed.

Lemma count_placeholders_str_of_Z n : count_placeholders (str_of_Z n) = 0%nat.
Proof.
  unfold count_placeholders, str_of_Z, NilZero.string_of_int.
  destruct (Z.to_int n); cbn [count_char]; rewrite count_string_of_uint; done.
Qed.

Lemma count_placeholders_operator op :
  count_placeholders (get_operator_sql op) = 0%nat.
Proof.
  unfold get_operator_sql.
  repeat match goal with
         | |- context [if ?b then _ else _] => destruct b
         end; reflexivity.
Qed.

Lemma count_char_drop_first c s :
  (count_char c (drop_first s) <= count_char c s)%nat.
Proof. destruct s; simpl; lia. Qed.

Lemma plain_spec s : plain s = true <-> count_placeholders s = 0%nat.
Proof. unfold plain. apply Nat.eqb_eq. Qed.

(* ===================================================================== *)
(** * The WHERE clause, clause by clause                                  *)
(* ===================================================================== *)

Lemma mapM_cons {A B} (f : A -> result B) x l :
  mapM f (x :: l) = (y ← f x; k ← mapM f l; mret (y :: k)).
Proof. reflexivity. Qed.

Lemma mapM_Ok_Forall2 {A B} (f : A -> result B) l k :
  mapM f l = Ok k <-> Forall2 (fun x y => f x = Ok y) l k.
Proof.
  revert k. induction l as [|x l IH]; intros k.
  - split.
    + intros [= <-]. constructor.
    + intros Hk. by inversion Hk.
  - rewrite mapM_cons. split.
    + destruct (f x) as [y|e] eqn:Hx; [|done]. simpl.
      destruct (mapM f l) as [k'|e] eqn:Hl; [|done].
      intros [= <-]. constructor; [done|]. by apply IH.
    + intros Hk. inversion Hk as [|? y ? k' Hx Hl]; subst.
      rewrite Hx. simpl. apply IH in Hl. by rewrite Hl.
Qed.

Lemma mapM_ext_result {A B} (f g : A -> result B) (l : list A) :
  (forall x, f x = g x) -> mapM f l = mapM g l.
Proof.
  intros Hfg. induction l as [|x l IH]; [done|].
  by rewrite !mapM_cons, Hfg, IH.
Qed.

Lemma py_len_iter v n :
  py_len v = Ok n -> exists items, py_iter v = Ok items /\ length items = n.
Proof.
  destruct v as [| | |s|xs|xs]; simpl; try done; intros [= <-]; eauto.
  eexists; split; [done|]. rewrite length_map.
  induction s as [|a s IH]; simpl; [done|]. by rewrite IH.
Qed.

Section where_clause.
Context `{Formatter}.

Lemma filter_step_clause cs ps f :
  QuerySet.filter_step (cs, ps) f
  = ('(c, qs) ← filter_clause f; Ok (cs ++ [c], ps ++ qs)).
Proof.
  destruct f as [[field op] v]. unfold QuerySet.filter_step, filter_clause.
  destruct (String.eqb_spec op "isnull") as [->|_].
  { destruct (py_truthy v); simpl; by rewrite app_nil_r. }
  destruct (String.eqb_spec op "in") as [->|_].
  { destruct (py_len v) as [n|e] eqn:Hlen; [|done].
    destruct (py_len_iter _ _ Hlen) as (items & -> & <-). reflexivity. }
  destruct (String.eqb_spec op "range") as [->|_].
  { by destruct (py_iter v). }
  reflexivity.
Qed.

Lemma exclude_step_clause cs ps f :
  QuerySet.exclude_step (cs, ps) f
  = ('(c, qs) ← exclude_clause f; Ok (cs ++ [c], ps ++ qs)).
Proof.
  destruct f as [[field op] v]. unfold QuerySet.exclude_step, exclude_clause.
  destruct (String.eqb_spec op "isnull") as [->|_].
  { destruct (py_truthy v); simpl; by rewrite app_nil_r. }
  destruct (String.eqb_spec op "in") as [->|_]; [|done].
  destruct (py_len v) as [n|e] eqn:Hlen; [|done].
  destruct (py_len_iter _ _ Hlen) as (items & -> & <-). reflexivity.
Qed.

Lemma for_each_steps (step : QuerySet.clauses -> triple -> result QuerySet.clauses)
    (clause : triple -> result (string * list value)) :
  (forall cs ps f,
      step (cs, ps) f = ('(c, qs) ← clause f; Ok (cs ++ [c], ps ++ qs))) ->
  forall fs cs ps,
    for_each step (cs, ps) fs
    = (cls ← mapM clause fs;
       Ok (cs ++ map fst cls, ps ++ concat (map snd cls))).
Proof.
  intros Hstep. induction fs as [|f fs IH]; intros cs ps.
  - simpl. by rewrite !app_nil_r.
  - rewrite mapM_cons. simpl. rewrite Hstep.
    destruct (clause f) as [[c qs]|e]; [|done]. simpl.
    rewrite IH. destruct (mapM clause fs) as [cls|e]; [|done]. simpl.
    by rewrite <- !app_assoc.
Qed.

(** [_build_where_clause] computes what the clauses say. *)
Lemma build_where_clause_clauses self :
  QuerySet._build_where_clause self = where_of_clauses self.
Proof.
  unfold QuerySet._build_where_clause, where_of_clauses.
  rewrite (for_each_steps _ _ filter_step_clause).
  destruct (mapM filter_clause (QuerySet._filters self)) as [fcs|e]; [|done].
  simpl. rewrite (for_each_steps _ _ exclude_step_clause).
  destruct (mapM exclude_clause (QuerySet._excludes self)) as [ecs|e]; [|done].
  simpl. rewrite !map_app, concat_app.
  by destruct (map fst fcs ++ map fst ecs).
Qed.

Lemma build_sql_parts self :
  QuerySet._build_sql self
  = ('(w, params) ← where_of_clauses self;
     Ok (select_head self +:+ w +:+ select_tail self, params)).
Proof.
  unfold QuerySet._build_sql. rewrite build_where_clause_clauses.
  destruct (where_of_clauses self) as [[w params]|e]; [|done]. simpl.
  f_equal. f_equal. unfold select_head, select_tail.
  destruct (QuerySet._distinct self), (QuerySet._order_by self),
    (QuerySet._limit self), (QuerySet._offset self);
    rewrite ?append_assoc, ?append_nil_r; reflexivity.
Qed.
End where_clause.

(* ===================================================================== *)
(** * Placeholders and parameters                                         *)
(* ===================================================================== *)

Section placeholders.
Context `{Formatter}.

Lemma filter_clause_count f c qs :
  plain f.1.1 = true ->
  (if String.eqb f.1.2 "range"
   then match py_iter f.2 with Ok [_; _] => true | _ => false end
   else true) = true ->
  filter_clause f = Ok (c, qs) ->
  count_placeholders c = length qs.
Proof.
  destruct f as [[field op] v]. simpl. intros Hplain%plain_spec Hrange.
  unfold filter_clause.
  destruct (String.eqb_spec op "isnull") as [->|_].
  { intros [= <- <-]. rewrite count_placeholders_app, Hplain.
    by destruct (py_truthy v). }
  destruct (String.eqb_spec op "in") as [->|_].
  { destruct (py_len v); [|done]. simpl.
    destruct (py_iter v) as [items|]; [|done]. simpl. intros [= <- <-].
    rewrite !count_placeholders_app, Hplain, count_placeholders_placeholders.
    unfold count_placeholders. simpl. lia. }
  destruct (String.eqb_spec op "range") as [->|_].
  { destruct (py_iter v) as [[|a [|b [|]]]|]; try done.
    simpl. intros [= <- <-]. by rewrite count_placeholders_app, Hplain. }
  intros [= <- <-].
  by rewrite !count_placeholders_app, Hplain, count_placeholders_operator.
Qed.

Lemma exclude_clause_count f c qs :
  plain f.1.1 = true ->
  exclude_clause f = Ok (c, qs) ->
  count_placeholders c = length qs.
Proof.
  destruct f as [[field op] v]. simpl. intros Hplain%plain_spec.
  unfold exclude_clause.
  destruct (String.eqb_spec op "in") as [->|_].
  { destruct (py_len v); [|done]. simpl.
    destruct (py_iter v) as [items|]; [|done]. simpl. intros [= <- <-].
    rewrite !count_placeholders_app, Hplain, count_placeholders_placeholders.
    unfold count_placeholders. simpl. lia. }
  destruct (String.eqb_spec op "isnull") as [->|_].
  { intros [= <- <-]. rewrite count_placeholders_app, Hplain.
    by destruct (py_truthy v). }
  intros [= <- <-].
  by rewrite !count_placeholders_app, Hplain, count_placeholders_operator.
Qed.

Lemma clauses_count (P : triple -> Prop)
    (clause : triple -> result (string * list value)) fs cls :
  (forall f c qs, P f -> clause f = Ok (c, qs) -> count_placeholders c = length qs) ->
  Forall P fs ->
  mapM clause fs = Ok cls ->
  Forall (fun cp => count_placeholders cp.1 = length cp.2) cls.
Proof.
  intros Hc HP Hm%mapM_Ok_Forall2. induction Hm as [|f [c qs] fs cls Hf _ IH].
  - constructor.
  - inversion HP; subst. constructor; eauto.
Qed.

Lemma count_where_text (cls : list (string * list value)) :
  Forall (fun cp => count_placeholders cp.1 = length cp.2) cls ->
  count_placeholders (where_text (map fst cls)) = length (concat (map snd cls)).
Proof.
  intros Hall.
  assert (Hsum : sum_list (map (count_char "?") (map fst cls))
                 = length (concat (map snd cls))).
  { induction Hall as [|[c qs] cls Hc _ IH]; [done|].
    simpl in *. rewrite length_app. unfold count_placeholders in Hc. lia. }
  destruct cls as [|cp cls]; [done|].
  unfold where_text. simpl map at 1.
  cbv beta iota. rewrite count_placeholders_app.
  unfold count_placeholders at 2. rewrite count_char_join.
  replace (count_char "?" " AND ") with 0%nat by reflexivity.
  replace (count_placeholders " WHERE ") with 0%nat by reflexivity.
  simpl map in Hsum. simpl map. lia.
Qed.

Lemma count_order_parts (fs : list string) :
  forallb plain fs = true ->
  count_placeholders (join ", " (map QuerySet.order_part fs)) = 0%nat.
Proof.
  intros Hfs. unfold count_placeholders. rewrite count_char_join.
  replace (count_char "?" ", ") with 0%nat by reflexivity.
  rewrite Nat.mul_0_r, Nat.add_0_r.
  induction fs as [|f fs IH]; [done|].
  simpl in Hfs. apply andb_prop in Hfs as [Hf%plain_spec Hfs].
  simpl. rewrite IH by done. unfold QuerySet.order_part.
  unfold count_placeholders in Hf.
  pose proof (count_char_drop_first "?" f).
  destruct (startswith "-" f); rewrite count_char_app; simpl; lia.
Qed.

Lemma count_select_head self :
  plain_names self = true -> count_placeholders (select_head self) = 0%nat.
Proof.
  unfold plain_names. intros Hp.
  repeat (apply andb_prop in Hp as [Hp ?]).
  apply plain_spec in Hp. unfold select_head.
  rewrite !count_placeholders_app, Hp.
  assert (Hfields :
    count_placeholders
      (match QuerySet._values_fields self with
       | Some ((_ :: _) as fields) => join ", " fields
       | _ => "*"
       end) = 0%nat).
  { destruct (QuerySet._values_fields self) as [[|f fs]|]; try done.
    simpl default in *. unfold count_placeholders. rewrite count_char_join.
    replace (count_char "?" ", ") with 0%nat by reflexivity.
    rewrite Nat.mul_0_r, Nat.add_0_r.
    match goal with Hv : forallb plain _ = true |- _ => revert Hv end.
    generalize (f :: fs). intros l. induction l as [|x l IH]; [done|].
    simpl. intros [Hx%plain_spec Hl]%andb_prop.
    unfold count_placeholders in Hx. rewrite IH by done. lia. }
  rewrite Hfields. by destruct (QuerySet._distinct self).
Qed.

Lemma count_select_tail self :
  plain_names self = true -> count_placeholders (select_tail self) = 0%nat.
Proof.
  unfold plain_names. intros Hp.
  repeat (apply andb_prop in Hp as [Hp ?]).
  unfold select_tail. rewrite !count_placeholders_app.
  assert (Ho : count_placeholders
                 (match QuerySet._order_by self with
                  | _ :: _ =>
                      " ORDER BY "
                        +:+ join ", " (map QuerySet.order_part (QuerySet._order_by self))
                  | [] => EmptyString
                  end) = 0%nat).
  { destruct (QuerySet._order_by self) as [|f fs] eqn:Ho; [done|].
    rewrite count_placeholders_app, count_order_parts by done. done. }
  rewrite Ho.
  destruct (QuerySet._limit self), (QuerySet._offset self);
    rewrite ?count_placeholders_app, ?count_placeholders_str_of_Z; done.
Qed.
End placeholders.

Lemma forallb_Forall {A} (p : A -> bool) (l : list A) :
  forallb p l = true -> Forall (fun x => p x = true) l.
Proof. intros Hl. apply Forall_forall. intros x Hx%list_elem_of_In.
  by apply (proj1 (forallb_forall p l) Hl). Qed.

(** Claim C1, as amended.  When no table, field, projection or ordering
    name holds a [?] and every [range] filter carries exactly two values,
    the statement [_build_sql] returns has as many [?] placeholders as the
    parameter list has elements.  The statement is the SELECT head, the
    WHERE clause and the tail; head and tail hold no placeholder; the WHERE
    clause joins one condition per filter, in order, then one per
    exclusion, in order; the parameter list is the concatenation, in that
    same order, of each condition's own parameters; and each condition has
    exactly as many placeholders as it has parameters. *)
Theorem build_sql_placeholders_aligned `{Formatter} (self : QuerySet.t)
    (sql : string) (params : list value) :
  plain_names self = true ->
  ranges_are_pairs self = true ->
  QuerySet._build_sql self = Ok (sql, params) ->
  count_placeholders sql = length params
  /\ exists fcs ecs : list (string * list value),
       mapM filter_clause (QuerySet._filters self) = Ok fcs
       /\ mapM exclude_clause (QuerySet._excludes self) = Ok ecs
       /\ sql = select_head self +:+ where_text (map fst (fcs ++ ecs))
                  +:+ select_tail self
       /\ count_placeholders (select_head self) = 0%nat
       /\ count_placeholders (select_tail self) = 0%nat
       /\ params = concat (map snd fcs) ++ concat (map snd ecs)
       /\ Forall (fun cp => count_placeholders cp.1 = length cp.2) (fcs ++ ecs).
Proof.
  intros Hplain Hranges. rewrite build_sql_parts. unfold where_of_clauses.
  destruct (mapM filter_clause (QuerySet._filters self)) as [fcs|e] eqn:Hf; [|done].
  destruct (mapM exclude_clause (QuerySet._excludes self)) as [ecs|e] eqn:He; [|done].
  simpl. intros [= <- <-].
  assert (Hall : Forall (fun cp => count_placeholders cp.1 = length cp.2) (fcs ++ ecs)).
  { pose proof Hplain as Hp. unfold plain_names in Hp.
    repeat (apply andb_prop in Hp as [Hp ?]).
    apply Forall_app. split.
    - eapply (clauses_count
                (fun f => plain f.1.1 = true
                          /\ (if String.eqb f.1.2 "range"
                              then match py_iter f.2 with
                                   | Ok [_; _] => true
                                   | _ => false
                                   end
                              else true) = true)); [| |exact Hf].
      + intros f c qs [? ?]. by apply filter_clause_count.
      + apply Forall_and. split; by apply forallb_Forall.
    - eapply (clauses_count (fun f => plain f.1.1 = true)); [| |exact He].
      + intros f c qs ?. by apply exclude_clause_count.
      + by apply forallb_Forall. }
  pose proof (count_select_head self Hplain) as Hhead.
  pose proof (count_select_tail self Hplain) as Htail.
  split.
  - rewrite !count_placeholders_app, Hhead, Htail, count_where_text by done. lia.
  - exists fcs, ecs. repeat split; try done.
    by rewrite (map_app snd), concat_app.
Qed.

(** A builder made with the public methods: two filters, two exclusions,
    an ordering and paging. *)
Definition adults_query : QuerySet.t :=
  QuerySet.limit
    (QuerySet.order_by
       (QuerySet.exclude
          (QuerySet.filter (QuerySet.__init__ Demo.Person)
             [("age__range", VTuple [VInt 18; VInt 65]);
              ("name__icontains", VStr "an")])
          [("id__in", VList [VInt 7; VInt 8; VInt 9]); ("name__isnull", VBool true)])
       ["-age"])
    10.

Example adults_query_sql :
  QuerySet._build_sql adults_query
  = Ok ("SELECT * FROM persons WHERE age BETWEEN ? AND ? AND name LIKE ? AND id NOT IN (?,?,?) AND name IS NOT NULL ORDER BY age DESC LIMIT 10",
        [VInt 18; VInt 65; VStr "%an%"; VInt 7; VInt 8; VInt 9]).
Proof. reflexivity. Qed.

Lemma build_sql_placeholders_aligned_witness :
  count_placeholders
    "SELECT * FROM persons WHERE age BETWEEN ? AND ? AND name LIKE ? AND id NOT IN (?,?,?) AND name IS NOT NULL ORDER BY age DESC LIMIT 10"
  = length [VInt 18; VInt 65; VStr "%an%"; VInt 7; VInt 8; VInt 9].
Proof.
  exact (proj1 (build_sql_placeholders_aligned adults_query _ _
                  eq_refl eq_refl adults_query_sql)).
Defined.

(** A [range] filter given three values. *)
Definition three_value_range : QuerySet.t :=
  QuerySet.filter (QuerySet.__init__ Demo.Person)
    [("age__range", VTuple [VInt 18; VInt 30; VInt 65])].

(** Claim C1 as stated fails: a [range] filter with three values yields
    two placeholders and three parameters. *)
Lemma range_filter_breaks_placeholder_count :
  QuerySet._build_sql three_value_range
  = Ok ("SELECT * FROM persons WHERE age BETWEEN ? AND ?",
        [VInt 18; VInt 30; VInt 65])
  /\ count_placeholders "SELECT * FROM persons WHERE age BETWEEN ? AND ?" = 2%nat
  /\ length [VInt 18; VInt 30; VInt 65] = 3%nat.
Proof. repeat split. Qed.

(* ===================================================================== *)
(** * Exclusions                                                          *)
(* ===================================================================== *)

Lemma py_iter_len v items :
  py_iter v = Ok items -> py_len v = Ok (length items).
Proof.
  destruct v as [| | |s|xs|xs]; simpl; try done; intros [= <-]; try done.
  rewrite length_map. f_equal.
  induction s as [|a s IH]; simpl; [done|]. by rewrite IH.
Qed.

(** Claim C4.  The WHERE clause is put together from one condition per
    filter and one per exclusion, and the condition of an exclusion is:
    for [in], the field, NOT IN and one placeholder per element, with the
    elements as parameters; for [isnull], the field with IS NOT NULL when
    the value is truthy and IS NULL otherwise, with no parameter; for any
    other operator, the comparison with its single placeholder wrapped in
    NOT ( ), with the formatted value as the one parameter. *)
Theorem exclusion_conditions `{Formatter} :
  (forall self : QuerySet.t,
      QuerySet._build_where_clause self
      = (fcs ← mapM filter_clause (QuerySet._filters self);
         ecs ← mapM exclude_clause (QuerySet._excludes self);
         Ok (where_text (map fst (fcs ++ ecs)), concat (map snd (fcs ++ ecs)))))
  /\ (forall cs ps field v items,
         py_iter v = Ok items ->
         QuerySet.exclude_step (cs, ps) (field, "in", v)
         = Ok (cs ++ [field +:+ " NOT IN (" +:+ join "," (repeat "?" (length items)) +:+ ")"],
               ps ++ items)
         /\ exclude_clause (field, "in", v)
            = Ok (field +:+ " NOT IN (" +:+ join "," (repeat "?" (length items)) +:+ ")",
                  items)
         /\ count_placeholders (join "," (repeat "?" (length items))) = length items)
  /\ (forall cs ps field v,
         QuerySet.exclude_step (cs, ps) (field, "isnull", v)
         = Ok (cs ++ [field +:+ (if py_truthy v then " IS NOT NULL" else " IS NULL")],
               ps)
         /\ exclude_clause (field, "isnull", v)
            = Ok (field +:+ (if py_truthy v then " IS NOT NULL" else " IS NULL"), []))
  /\ (forall cs ps field op v,
         op <> "in" -> op <> "isnull" ->
         QuerySet.exclude_step (cs, ps) (field, op, v)
         = Ok (cs ++ ["NOT (" +:+ field +:+ " " +:+ get_operator_sql op +:+ " ?)"],
               ps ++ [format_value_for_operator v op])
         /\ exclude_clause (field, op, v)
            = Ok ("NOT (" +:+ field +:+ " " +:+ get_operator_sql op +:+ " ?)",
                  [format_value_for_operator v op])).
Proof.
  split; [exact build_where_clause_clauses|].
  split; [|split].
  - intros cs ps field v items Hv.
    assert (Hc : exclude_clause (field, "in", v)
                 = Ok (field +:+ " NOT IN (" +:+ join "," (repeat "?" (length items)) +:+ ")",
                       items)).
    { unfold exclude_clause. simpl.
      by rewrite (py_iter_len _ _ Hv), Hv. }
    split; [|split; [done|]].
    + by rewrite exclude_step_clause, Hc.
    + apply count_placeholders_placeholders.
  - intros cs ps field v.
    assert (Hc : exclude_clause (field, "isnull", v)
                 = Ok (field +:+ (if py_truthy v then " IS NOT NULL" else " IS NULL"), []))
      by reflexivity.
    split; [|done]. rewrite exclude_step_clause, Hc. simpl. by rewrite app_nil_r.
  - intros cs ps field op v Hin Hnull.
    assert (Hc : exclude_clause (field, op, v)
                 = Ok ("NOT (" +:+ field +:+ " " +:+ get_operator_sql op +:+ " ?)",
                       [format_value_for_operator v op])).
    { unfold exclude_clause.
      destruct (String.eqb_spec op "in"); [done|].
      by destruct (String.eqb_spec op "isnull"). }
    split; [|done]. by rewrite exclude_step_clause, Hc.
Qed.

Lemma exclusion_conditions_witness :
  exclude_clause ("id", "in", VList [VInt 7; VInt 8])
  = Ok ("id NOT IN (?,?)", [VInt 7; VInt 8])
  /\ exclude_clause ("age", "gte", VInt 18) = Ok ("NOT (age >= ?)", [VInt 18])
  /\ exclude_clause ("age", "range", VTuple [VInt 1; VInt 2])
     = Ok ("NOT (age BETWEEN ?)", [VTuple [VInt 1; VInt 2]]).
Proof.
  destruct (exclusion_conditions (H := Demo.formatter)) as (_ & Hin & _ & Hother).
  split; [|split].
  - exact (proj1 (proj2 (Hin [] [] "id" (VList [VInt 7; VInt 8]) _ eq_refl))).
  - refine (proj2 (Hother [] [] "age" "gte" (VInt 18) _ _)); discriminate.
  - refine (proj2 (Hother [] [] "age" "range" (VTuple [VInt 1; VInt 2]) _ _));
      discriminate.
Defined.

(** The clause is built whenever every [in] lookup and every [range]
    filter carries something that has elements. *)
Lemma build_where_clause_succeeds `{Formatter} (self : QuerySet.t) :
  Forall (fun f : triple =>
            f.1.2 = "in" \/ f.1.2 = "range" -> exists items, py_iter f.2 = Ok items)
    (QuerySet._filters self) ->
  Forall (fun f : triple => f.1.2 = "in" -> exists items, py_iter f.2 = Ok items)
    (QuerySet._excludes self) ->
  exists w params, QuerySet._build_where_clause self = Ok (w, params).
Proof.
  intros Hf He. rewrite build_where_clause_clauses. unfold where_of_clauses.
  assert (Hfs : exists fcs, mapM filter_clause (QuerySet._filters self) = Ok fcs).
  { induction Hf as [|[[field op] v] fs Hx _ [fcs IH]]; [by eexists|].
    rewrite mapM_cons, IH. simpl in Hx. unfold filter_clause.
    destruct (String.eqb_spec op "isnull"); [by eexists|].
    destruct (String.eqb_spec op "in") as [->|].
    { destruct Hx as [items Hv]; [by left|].
      rewrite (py_iter_len _ _ Hv), Hv. by eexists. }
    destruct (String.eqb_spec op "range") as [->|]; [|by eexists].
    destruct Hx as [items ->]; [by right|]. by eexists. }
  assert (Hes : exists ecs, mapM exclude_clause (QuerySet._excludes self) = Ok ecs).
  { induction He as [|[[field op] v] es Hx _ [ecs IH]]; [by eexists|].
    rewrite mapM_cons, IH. simpl in Hx. unfold exclude_clause.
    destruct (String.eqb_spec op "in") as [->|].
    { destruct Hx as [items Hv]; [done|].
      rewrite (py_iter_len _ _ Hv), Hv. by eexists. }
    destruct (String.eqb_spec op "isnull"); by eexists. }
  destruct Hfs as [fcs ->], Hes as [ecs ->]. by eexists _, _.
Qed.

(* ===================================================================== *)
(** * delete                                                              *)
(* ===================================================================== *)

Lemma where_clause_of_nothing `{Formatter} (self : QuerySet.t) :
  QuerySet._filters self = [] -> QuerySet._excludes self = [] ->
  QuerySet._build_where_clause self = Ok (EmptyString, []).
Proof.
  intros Hf He. unfold QuerySet._build_where_clause. by rewrite Hf, He.
Qed.

Lemma where_clause_of_something `{Formatter} (self : QuerySet.t) w params :
  QuerySet._filters self <> [] \/ QuerySet._excludes self <> [] ->
  QuerySet._build_where_clause self = Ok (w, params) ->
  String.eqb w EmptyString = false.
Proof.
  intros Hne. rewrite build_where_clause_clauses. unfold where_of_clauses.
  destruct (mapM filter_clause (QuerySet._filters self)) as [fcs|e] eqn:Hf; [|done].
  destruct (mapM exclude_clause (QuerySet._excludes self)) as [ecs|e] eqn:He; [|done].
  simpl. intros [= <- _].
  apply mapM_Ok_Forall2, Forall2_length in Hf, He.
  destruct (fcs ++ ecs) as [|cp cls] eqn:Hcls; [|done].
  apply app_eq_nil in Hcls as [-> ->]. simpl in *.
  destruct Hne as [Hne|Hne]; destruct Hne; by apply length_zero_iff_nil.
Qed.

(** Claim C2, as amended.  With no filter and no exclusion, [delete]
    raises the query error and leaves the connection as it was: nothing
    was sent to it.  With at least one filter or exclusion, and when the
    WHERE clause can be built from them, [w] and [params] being the clause
    and its parameters, [delete] sends exactly DELETE FROM the table
    followed by [w], with [params]; it commits and returns the row count
    when the engine ran the statement, raises the connection error when
    the engine refused it, and the overflow error when an integer
    parameter does not fit.  When the clause cannot be built, the
    exception of the builder passes through and nothing is sent, filters
    or not. *)
Theorem delete_guard `{Formatter} {DB : Type} `{Engine DB}
    (self : QuerySet.t) (c : Connection DB) :
  (QuerySet._filters self = [] -> QuerySet._excludes self = [] ->
   QuerySet.delete self c
   = (c, Raise (Exn QueryError
                  "Cannot delete without filters (use Model.objects.all().delete())")))
  /\ (forall w params,
         QuerySet._filters self <> [] \/ QuerySet._excludes self <> [] ->
         QuerySet._build_where_clause self = Ok (w, params) ->
         let sql := "DELETE FROM " +:+ _table_name (QuerySet.model self) +:+ w in
         w <> EmptyString
         /\ QuerySet.delete self c
            = match engine_execute (conn_db c) sql params with
              | inr (d, cur) =>
                  (Conn (engine_commit d)
                     (conn_trace c ++ [EvExecute sql params; EvCommit]),
                   Ok (rowcount cur))
              | inl (SqliteError e) =>
                  (Conn (conn_db c) (conn_trace c ++ [EvExecute sql params]),
                   Raise (Exn ORMConnectionError
                            ("Query execution failed: " +:+ e +:+ newline
                               +:+ "SQL: " +:+ sql)))
              | inl IntTooLarge =>
                  (Conn (conn_db c) (conn_trace c ++ [EvExecute sql params]),
                   Raise (Exn OverflowError
                            "Python int too large to convert to SQLite INTEGER"))
              end)
  /\ (forall e,
         QuerySet._build_where_clause self = Raise e ->
         QuerySet.delete self c = (c, Raise e)).
Proof.
  split; [|split].
  - intros Hf He. unfold QuerySet.delete, mbind, CM_bind, lift.
    by rewrite (where_clause_of_nothing self Hf He).
  - intros w params Hne Hw sql.
    pose proof (where_clause_of_something self w params Hne Hw) as Hnonempty.
    split; [by intros ->|].
    unfold QuerySet.delete, mbind, CM_bind, lift. rewrite Hw, Hnonempty.
    unfold execute, commit. fold sql.
    destruct (engine_execute (conn_db c) sql params) as [[e|]|[d cur]];
      [done|done|].
    simpl. by rewrite <- app_assoc.
  - intros e He. unfold QuerySet.delete, mbind, CM_bind, lift. by rewrite He.
Qed.

Definition minors_query : QuerySet.t :=
  QuerySet.exclude
    (QuerySet.filter (QuerySet.__init__ Demo.Person) [("age__lt", VInt 18)])
    [("name", VStr "Bob")].

Lemma delete_guard_witness :
  QuerySet.delete (QuerySet.__init__ Demo.Person) (Demo.connect Demo.three_persons)
  = (Demo.connect Demo.three_persons,
     Raise (Exn QueryError
              "Cannot delete without filters (use Model.objects.all().delete())"))
  /\ conn_trace (QuerySet.delete minors_query (Demo.connect Demo.three_persons)).1
     = [EvExecute "DELETE FROM persons WHERE age < ? AND NOT (name = ?)"
          [VInt 18; VStr "Bob"];
        EvCommit].
Proof.
  split.
  - exact (proj1 (delete_guard (QuerySet.__init__ Demo.Person)
                    (Demo.connect Demo.three_persons)) eq_refl eq_refl).
  - assert (Hne : QuerySet._filters minors_query <> []
                   \/ QuerySet._excludes minors_query <> [])
      by (left; vm_compute; discriminate).
    assert (Hw : QuerySet._build_where_clause minors_query
                 = Ok (" WHERE age < ? AND NOT (name = ?)", [VInt 18; VStr "Bob"]))
      by reflexivity.
    destruct (delete_guard minors_query (Demo.connect Demo.three_persons))
      as (_ & Hsend & _).
    destruct (Hsend _ _ Hne Hw) as [_ Hd].
    rewrite Hd. reflexivity.
Defined.

Definition unbuildable_query : QuerySet.t :=
  QuerySet.filter (QuerySet.__init__ Demo.Person) [("id__in", VInt 5)].

(** Claim C2 fails as worded: [filter(id__in=5)] has a filter, yet
    [delete] on it raises the TypeError of [len(5)] and sends no DELETE;
    the connection is as it was. *)
Lemma delete_with_filter_sends_nothing :
  QuerySet._filters unbuildable_query = [("id", "in", VInt 5)]
  /\ QuerySet.delete unbuildable_query (Demo.connect Demo.three_persons)
     = (Demo.connect Demo.three_persons,
        Raise (Exn TypeError "object of type 'int' has no len()")).
Proof. split; reflexivity. Qed.

Example delete_with_large_integer :
  QuerySet.delete
    (QuerySet.filter (QuerySet.__init__ Demo.Person) [("id", VInt (2 ^ 63))])
    (Demo.connect Demo.three_persons)
  = (Conn (Demo.Db Demo.three_persons [])
       [EvExecute "DELETE FROM persons WHERE id = ?" [VInt (2 ^ 63)]],
     Raise (Exn OverflowError "Python int too large to convert to SQLite INTEGER")).
Proof. vm_compute. reflexivity. Qed.

(* ===================================================================== *)
(** * get, first and last                                                 *)
(* ===================================================================== *)

Lemma clone_fields (self : QuerySet.t) :
  QuerySet._clone self = QuerySet.with_cache None self.
Proof. by destruct self. Qed.

(** The triples a [filter] or [exclude] call appends. *)
Definition parsed (kw : kwargs) : list triple :=
  map (fun kv : string * value => ((parse_lookup kv.1).1, (parse_lookup kv.1).2, kv.2))
    kw.

Lemma filter_loop (kw : kwargs) (qs : QuerySet.t) :
  fold_left
    (fun qs '(lookup, v) =>
       let '(field_name, operator) := parse_lookup lookup in
       QuerySet.with_filters (QuerySet._filters qs ++ [(field_name, operator, v)]) qs)
    kw qs
  = QuerySet.with_filters (QuerySet._filters qs ++ parsed kw) qs.
Proof.
  revert qs. induction kw as [|[lookup v] kw IH]; intros qs.
  - simpl. rewrite app_nil_r. by destruct qs.
  - simpl. rewrite IH. destruct (parse_lookup lookup) as [field op].
    simpl. by rewrite <- app_assoc.
Qed.

Lemma exclude_loop (kw : kwargs) (qs : QuerySet.t) :
  fold_left
    (fun qs '(lookup, v) =>
       let '(field_name, operator) := parse_lookup lookup in
       QuerySet.with_excludes (QuerySet._excludes qs ++ [(field_name, operator, v)]) qs)
    kw qs
  = QuerySet.with_excludes (QuerySet._excludes qs ++ parsed kw) qs.
Proof.
  revert qs. induction kw as [|[lookup v] kw IH]; intros qs.
  - simpl. rewrite app_nil_r. by destruct qs.
  - simpl. rewrite IH. destruct (parse_lookup lookup) as [field op].
    simpl. by rewrite <- app_assoc.
Qed.

Lemma filter_fields (self : QuerySet.t) (kw : kwargs) :
  QuerySet.filter self kw
  = QuerySet.with_filters (QuerySet._filters self ++ parsed kw)
      (QuerySet.with_cache None self).
Proof. unfold QuerySet.filter. rewrite filter_loop. by destruct self. Qed.

Lemma exclude_fields (self : QuerySet.t) (kw : kwargs) :
  QuerySet.exclude self kw
  = QuerySet.with_excludes (QuerySet._excludes self ++ parsed kw)
      (QuerySet.with_cache None self).
Proof. unfold QuerySet.exclude. rewrite exclude_loop. by destruct self. Qed.

(** Claim C3, as amended.  [get] runs the statement built for the
    receiver with the lookups appended to its filters.  When that
    statement can be built and the engine answers it: with no row, [get]
    raises DoesNotExist; with exactly one row, it returns what
    [_create_instance] makes of that row; with more than one row, all of
    which convert, it raises MultipleObjectsReturned; and when converting
    some row fails, it raises the error of the first such row, however
    many rows there are. *)
Theorem get_exactly_one `{Formatter} {DB : Type} `{Engine DB}
    (self : QuerySet.t) (kw : kwargs) (c : Connection DB)
    (sql : string) (params : list value) (d : DB) (cur : cursor) :
  let qs := QuerySet.filter self kw in
  let c' := Conn d (conn_trace c ++ [EvExecute sql params]) in
  QuerySet._build_sql qs = Ok (sql, params) ->
  engine_execute (conn_db c) sql params = inr (d, cur) ->
  QuerySet._filters qs = QuerySet._filters self ++ parsed kw
  /\ (fetchall cur = [] ->
      QuerySet.get self kw c
      = (c', Raise (Exn DoesNotExist
                      (__name__ (QuerySet.model self)
                         +:+ " matching query does not exist"))))
  /\ (forall r, fetchall cur = [r] ->
      QuerySet.get self kw c = (c', QuerySet._create_instance qs r))
  /\ (forall results,
         (1 < length (fetchall cur))%nat ->
         mapM (QuerySet._create_instance qs) (fetchall cur) = Ok results ->
         QuerySet.get self kw c
         = (c', Raise (Exn MultipleObjectsReturned
                         ("get() returned "
                            +:+ str_of_Z (Z.of_nat (length (fetchall cur)))
                            +:+ " " +:+ __name__ (QuerySet.model self)
                            +:+ " objects"))))
  /\ (forall e,
         mapM (QuerySet._create_instance qs) (fetchall cur) = Raise e ->
         QuerySet.get self kw c = (c', Raise e)).
Proof.
  intros qs c' Hsql Hrun.
  assert (Hcache : QuerySet._cache qs = None).
  { unfold qs. by rewrite filter_fields. }
  assert (Hall : forall rs,
             mapM (QuerySet._create_instance qs) (fetchall cur) = rs ->
             QuerySet.all qs c
             = (c', match rs with
                    | Ok results =>
                        Ok (results, QuerySet.with_cache (Some (fetchall cur)) qs)
                    | Raise e => Raise e
                    end)).
  { intros rs Hrs.
    unfold QuerySet.all, QuerySet._execute, mbind, CM_bind, lift, execute, mret, CM_ret.
    rewrite Hcache, Hsql, Hrun, Hrs. by destruct rs. }
  split; [|split; [|split; [|split]]].
  - unfold qs. by rewrite filter_fields.
  - intros Hrows. unfold QuerySet.get, mbind, CM_bind. fold qs.
    rewrite (Hall (Ok [])) by by rewrite Hrows. done.
  - intros r Hrows. unfold QuerySet.get, mbind, CM_bind. fold qs.
    rewrite (Hall _ eq_refl), Hrows. rewrite mapM_cons.
    by destruct (QuerySet._create_instance qs r).
  - intros results Hlen Hres. unfold QuerySet.get, mbind, CM_bind. fold qs.
    rewrite (Hall _ Hres).
    apply mapM_Ok_Forall2, Forall2_length in Hres. rewrite Hres in *.
    by destruct results as [|x [|y results]]; simpl in Hlen; try lia.
  - intros e He. unfold QuerySet.get, mbind, CM_bind. fold qs.
    by rewrite (Hall _ He).
Qed.

Lemma get_exactly_one_witness :
  QuerySet.get (QuerySet.__init__ Demo.Person) [("id", VInt 999)] (Demo.connect [])
  = (Conn (Demo.Db [] []) [EvExecute "SELECT * FROM persons WHERE id = ?" [VInt 999]],
     Raise (Exn DoesNotExist "Person matching query does not exist"))
  /\ QuerySet.get (QuerySet.__init__ Demo.Person) [("name", VStr "Ann")]
       (Demo.connect [Demo.person 1 "Ann" 31; Demo.person 3 "Ann" 52])
     = (Conn (Demo.Db [Demo.person 1 "Ann" 31; Demo.person 3 "Ann" 52] [])
          [EvExecute "SELECT * FROM persons WHERE name = ?" [VStr "Ann"]],
        Raise (Exn MultipleObjectsReturned "get() returned 2 Person objects"))
  /\ QuerySet.get (QuerySet.__init__ Demo.Person) [("id", VInt 2)]
       (Demo.connect [Demo.person 2 "Bob" 17])
     = (Conn (Demo.Db [Demo.person 2 "Bob" 17] [])
          [EvExecute "SELECT * FROM persons WHERE id = ?" [VInt 2]],
        Ok (ModelInstance [("_loaded_from_db", VBool true); ("id", VInt 2);
                           ("name", VStr "Bob"); ("age", VInt 17)])).
Proof.
  split; [|split].
  - exact (proj1 (proj2
      (get_exactly_one (QuerySet.__init__ Demo.Person) [("id", VInt 999)]
         (Demo.connect []) "SELECT * FROM persons WHERE id = ?" [VInt 999]
         (Demo.Db [] []) (Cursor [] (-1)) eq_refl eq_refl)) eq_refl).
  - exact (proj1 (proj2 (proj2 (proj2
      (get_exactly_one (QuerySet.__init__ Demo.Person) [("name", VStr "Ann")]
         (Demo.connect [Demo.person 1 "Ann" 31; Demo.person 3 "Ann" 52])
         "SELECT * FROM persons WHERE name = ?" [VStr "Ann"]
         (Demo.Db [Demo.person 1 "Ann" 31; Demo.person 3 "Ann" 52] [])
         (Cursor [Demo.person 1 "Ann" 31; Demo.person 3 "Ann" 52] (-1))
         eq_refl eq_refl)))) _ ltac:(simpl; lia) eq_refl).
  - exact (proj1 (proj2 (proj2
      (get_exactly_one (QuerySet.__init__ Demo.Person) [("id", VInt 2)]
         (Demo.connect [Demo.person 2 "Bob" 17])
         "SELECT * FROM persons WHERE id = ?" [VInt 2]
         (Demo.Db [Demo.person 2 "Bob" 17] [])
         (Cursor [Demo.person 2 "Bob" 17] (-1))
         eq_refl eq_refl))) _ eq_refl).
Defined.

(** Claim C3 fails as worded: [get] converts every row before it counts
    them, so with two matching rows, one of which does not convert, it
    raises the conversion error and not MultipleObjectsReturned. *)
Lemma get_on_two_rows_raises_conversion_error :
  QuerySet.get (QuerySet.__init__ Demo.Reading) [("level__gte", VInt 0)]
    (Demo.connect Demo.two_readings)
  = (Conn (Demo.Db Demo.two_readings [])
       [EvExecute "SELECT * FROM readings WHERE level >= ?" [VInt 0]],
     Raise (Exn ValueError "invalid literal for int() with base 10: 'low'")).
Proof. vm_compute. reflexivity. Qed.

Example int_examples :
  map Demo.py_int
    [VStr " 12 "; VStr "1_000"; VStr "-0"; VStr "+5"; VStr "007"; VBool true]
  = map (fun n => Ok (VInt n)) [12; 1000; 0; 5; 7; 1]
  /\ map (fun s => Demo.int_literal s)
       ["1__0"; "_1"; "1_"; "- 1"; "--1"; EmptyString; " "; "1 2"; "0x10"; "abc"; "+"]
     = repeat None 11.
Proof. vm_compute. split; reflexivity. Qed.

Lemma first_runs_first_query `{Formatter} {DB : Type} `{Engine DB}
    (self : QuerySet.t) (c : Connection DB) :
  QuerySet.first self c
  = ('(results, _) ← QuerySet.all (first_query self); mret (head results)) c.
Proof. unfold QuerySet.first, QuerySet.limit. by rewrite clone_fields. Qed.

Lemma last_runs_last_query `{Formatter} {DB : Type} `{Engine DB}
    (self : QuerySet.t) (c : Connection DB) :
  QuerySet.last self c
  = ('(results, _) ← QuerySet.all (last_query self); mret (head results)) c.
Proof.
  unfold QuerySet.last, QuerySet.limit, QuerySet.order_by.
  rewrite !clone_fields. by destruct self.
Qed.

Lemma flip_descending (x : string) : QuerySet.flip_direction ("-" +:+ x) = x.
Proof. by destruct x. Qed.

Lemma flip_ascending (f : string) :
  startswith "-" f = false -> QuerySet.flip_direction f = "-" +:+ f.
Proof. unfold QuerySet.flip_direction. by intros ->. Qed.

(** Claim C5.  After [order_by('-x')], [last] does exactly what [first]
    does after [order_by('x')]: the same statement with the same
    parameters is built and sent, and the result is the same.  [first]
    runs the receiver limited to one row; [last] runs the receiver limited
    to one row under the flipped ordering, where a leading [-] is removed
    and a name without one gets one, and an empty ordering counts as
    [id]. *)
Theorem last_after_descending_is_first_after_ascending
    `{Formatter} {DB : Type} `{Engine DB}
    (self : QuerySet.t) (x : string) (c : Connection DB) :
  QuerySet.last (QuerySet.order_by self ["-" +:+ x]) c
  = QuerySet.first (QuerySet.order_by self [x]) c
  /\ last_query (QuerySet.order_by self ["-" +:+ x])
     = first_query (QuerySet.order_by self [x])
  /\ QuerySet._build_sql (last_query (QuerySet.order_by self ["-" +:+ x]))
     = QuerySet._build_sql (first_query (QuerySet.order_by self [x]))
  /\ (forall q : QuerySet.t,
         QuerySet.first q c
         = ('(results, _) ← QuerySet.all (first_query q); mret (head results)) c
         /\ QuerySet.last q c
            = ('(results, _) ← QuerySet.all (last_query q); mret (head results)) c
         /\ QuerySet._limit (first_query q) = Some 1
         /\ QuerySet._order_by (first_query q) = QuerySet._order_by q
         /\ QuerySet._limit (last_query q) = Some 1
         /\ QuerySet._order_by (last_query q)
            = match QuerySet._order_by q with
              | [] => ["-id"]
              | o => map QuerySet.flip_direction o
              end)
  /\ (forall y : string, QuerySet.flip_direction ("-" +:+ y) = y)
  /\ (forall f : string,
         startswith "-" f = false -> QuerySet.flip_direction f = "-" +:+ f).
Proof.
  assert (Hq : last_query (QuerySet.order_by self ["-" +:+ x])
               = first_query (QuerySet.order_by self [x])).
  { unfold last_query, first_query, QuerySet.order_by. rewrite !clone_fields.
    destruct self. simpl. by rewrite flip_descending. }
  split; [|split; [|split; [|split; [|split]]]].
  - by rewrite last_runs_last_query, first_runs_first_query, Hq.
  - exact Hq.
  - by rewrite Hq.
  - intros q. split; [apply first_runs_first_query|].
    split; [apply last_runs_last_query|].
    repeat split. unfold last_query. simpl. by destruct (QuerySet._order_by q).
  - exact flip_descending.
  - exact flip_ascending.
Qed.

Lemma last_after_descending_is_first_after_ascending_witness :
  QuerySet.flip_direction "created_at" = "-created_at"
  /\ QuerySet._build_sql
       (last_query (QuerySet.order_by (QuerySet.__init__ Demo.Person) ["-age"]))
     = Ok ("SELECT * FROM persons ORDER BY age ASC LIMIT 1", [])
  /\ QuerySet._build_sql (last_query (QuerySet.__init__ Demo.Person))
     = Ok ("SELECT * FROM persons ORDER BY id DESC LIMIT 1", []).
Proof.
  pose proof (last_after_descending_is_first_after_ascending
                (QuerySet.__init__ Demo.Person) "age" (Demo.connect []))
    as (_ & _ & Hsql & _ & _ & Hflip).
  split; [exact (Hflip "created_at" eq_refl)|].
  split; [exact (eq_trans Hsql eq_refl)|reflexivity].
Defined.

(* ===================================================================== *)
(** * exists                                                              *)
(* ===================================================================== *)

Lemma substring_all (s : string) : String.substring 0 (String.length s) s = s.
Proof. induction s as [|a s IH]; [done|]. simpl. by rewrite IH. Qed.

Lemma replace_select_star (rest : string) :
  replace_first "SELECT *" "SELECT 1" ("SELECT *" +:+ rest) = "SELECT 1" +:+ rest.
Proof.
  change ("SELECT *" +:+ rest)
    with (String "S" (String "E" (String "L" (String "E" (String "C" (String "T"
            (String " " (String "*" rest)))))))).
  destruct rest as [|a rest]; [done|].
  cbn -[String.append String.substring String.length].
  change (String.substring _ _ _) with
    (String.substring 0 (String.length (String a rest)) (String a rest)).
  by rewrite substring_all.
Qed.


(** Claim C7 fails on the code: under [distinct], and under a projection
    chosen with [values], the statement [exists] sends still carries the
    projection. *)
Lemma exists_keeps_projection :
  conn_trace
    (QuerySet.exists_ (QuerySet.distinct (QuerySet.__init__ Demo.Person))
       (Demo.connect Demo.three_persons)).1
  = [EvExecute "SELECT DISTINCT * FROM persons" []]
  /\ conn_trace
       (QuerySet.exists_ (QuerySet.values (QuerySet.__init__ Demo.Person) ["name"])
          (Demo.connect Demo.three_persons)).1
     = [EvExecute "SELECT name FROM persons" []]
  /\ conn_trace
       (QuerySet.exists_ (QuerySet.__init__ Demo.Person)
          (Demo.connect Demo.three_persons)).1
     = [EvExecute "SELECT 1 FROM persons" []].
Proof. repeat split. Qed.

(* ===================================================================== *)
(** * Irreversible operations                                             *)
(* ===================================================================== *)

(** Claim C8.  On any connection, reversing a DropTable or an AddColumn
    raises the migration error and returns the connection as it was:
    nothing was sent to it and the database is the same. *)
Theorem drop_table_and_add_column_do_not_reverse {DB : Type} `{Engine DB}
    (c : Connection DB) :
  (forall table_name,
      operation_reverse (DropTable table_name) c
      = (c, Raise (Exn MigrationError
                     "Cannot reverse DropTable operation without schema backup")))
  /\ (forall table_name column_name column_definition,
         operation_reverse (AddColumn table_name column_name column_definition) c
         = (c, Raise (Exn MigrationError
                        "Cannot reverse AddColumn - SQLite limitation"))).
Proof. split; reflexivity. Qed.

(** Whether [reverse] of an operation is defined. *)
Definition reversible (op : Operation) : bool :=
  match op with
  | CreateTable _ _ => true
  | DropTable _ | AddColumn _ _ _ => false
  end.

(** A migration that ends in an irreversible operation cannot be reversed
    either: [Migration.reverse] starts from the last operation, so it
    stops before anything is sent. *)
Lemma migration_reverse_stops {DB : Type} `{Engine DB}
    (m : Migration) (ops : list Operation) (op : Operation) (c : Connection DB) :
  operations m = ops ++ [op] ->
  reversible op = false ->
  exists msg, migration_reverse m c = (c, Raise (Exn MigrationError msg)).
Proof.
  intros Hops Hop. unfold migration_reverse. rewrite Hops, rev_app_distr.
  destruct op; [done| |]; by eexists.
Qed.

(* ===================================================================== *)
(** * count                                                               *)
(* ===================================================================== *)

Definition first_adult : QuerySet.t :=
  QuerySet.limit (QuerySet.__init__ Demo.Person) 1.

(** Claim C10, as amended.  [count] on a builder is [count] on the
    builder that keeps only its model, filters and exclusions: ordering,
    limit, offset, the distinct flag, the projection, the related list and
    the cache play no part.  [__len__] is [count].  When the WHERE clause
    can be built, the statement sent is SELECT COUNT( * ) FROM the table
    followed by that clause, with its parameters; when it cannot, [count]
    raises the error of the builder and sends nothing.  And on a table of
    three rows, a builder limited to one row counts three while [all]
    returns one. *)
Theorem count_ignores_paging `{Formatter} {DB : Type} `{Engine DB}
    (self : QuerySet.t) (c : Connection DB) :
  QuerySet.count self c = QuerySet.count (base_query self) c
  /\ QuerySet.__len__ self c = QuerySet.count self c
  /\ (forall w params,
         QuerySet._build_where_clause self = Ok (w, params) ->
         conn_trace (QuerySet.count self c).1
         = conn_trace c
             ++ [EvExecute
                   ("SELECT COUNT(*) FROM " +:+ _table_name (QuerySet.model self) +:+ w)
                   params])
  /\ (QuerySet._limit first_adult = Some 1
      /\ (QuerySet.count first_adult (Demo.connect Demo.three_persons)).2
         = Ok (VInt 3)
      /\ (1 < 3)
      /\ (results ← (QuerySet.all first_adult (Demo.connect Demo.three_persons)).2;
          Ok (length results.1))
         = Ok 1%nat)
  /\ (forall e,
         QuerySet._build_where_clause self = Raise e ->
         QuerySet.count self c = (c, Raise e)).
Proof.
  split; [|split; [done|split; [|split; [by repeat split|]]]].
  - unfold QuerySet.count, QuerySet._build_where_clause. reflexivity.
  - intros w params Hw. unfold QuerySet.count, mbind, CM_bind, lift, execute.
    rewrite Hw.
    destruct (engine_execute _ _ _) as [[e|]|[d cur]]; [done|done|].
    destruct (fetchone cur) as [r|]; [|done].
    by destruct (row_first r).
  - intros e He. unfold QuerySet.count, mbind, CM_bind, lift. by rewrite He.
Qed.

Definition paged_adults : QuerySet.t :=
  QuerySet.distinct
    (QuerySet.offset
       (QuerySet.limit
          (QuerySet.order_by
             (QuerySet.filter (QuerySet.__init__ Demo.Person) [("age__gte", VInt 18)])
             ["-age"])
          2)
       1).

Lemma count_ignores_paging_witness :
  conn_trace (QuerySet.count paged_adults (Demo.connect Demo.three_persons)).1
  = [EvExecute "SELECT COUNT(*) FROM persons WHERE age >= ?" [VInt 18]].
Proof.
  exact (proj1 (proj2 (proj2
           (count_ignores_paging paged_adults (Demo.connect Demo.three_persons))))
           " WHERE age >= ?" [VInt 18] eq_refl).
Defined.

(** Claim C10 fails as worded: on [filter(id__in=5)] no counting statement
    is sent; [count] raises the TypeError of [len(5)] and the connection
    is as it was. *)
Lemma count_with_unbuildable_filter_sends_nothing :
  QuerySet.count unbuildable_query (Demo.connect Demo.three_persons)
  = (Demo.connect Demo.three_persons,
     Raise (Exn TypeError "object of type 'int' has no len()")).
Proof. reflexivity. Qed.

(* ===================================================================== *)
(** * Chaining methods in the object store                                *)
(* ===================================================================== *)

Module StoreFacts.
Import Store.

(** Running store-passing code on a store [h ++ l], where [h] is the store
    the call started from and [l] holds the cells allocated since. *)
Lemma run_bind {A B} (m : SM A) (k : A -> SM B) (h : store) :
  (m ≫= k) h = match m h with Some (a, h') => k a h' | None => None end.
Proof. reflexivity. Qed.

Lemma run_ret {A} (a : A) (h : store) : (mret a : SM A) h = Some (a, h).
Proof. reflexivity. Qed.

Lemma run_alloc (h l : list cell) (c : cell) :
  alloc c (h ++ l) = Some ((length h + length l)%nat, h ++ (l ++ [c])).
Proof. unfold alloc. by rewrite length_app, <- app_assoc. Qed.

Lemma lookup_old (h l : list cell) (x : loc) (c : cell) :
  h !! x = Some c -> (h ++ l) !! x = Some c.
Proof. intros Hx. by apply lookup_app_l_Some. Qed.

Lemma lookup_new (h l : list cell) (k : nat) :
  (h ++ l) !! (length h + k)%nat = l !! k.
Proof. by rewrite lookup_app_r, Nat.add_comm, Nat.add_sub by lia. Qed.

Lemma run_load_old (h l : list cell) (x : loc) (c : cell) :
  h !! x = Some c -> load x (h ++ l) = Some (c, h ++ l).
Proof. intros Hx. unfold load. by rewrite (lookup_old _ _ _ _ Hx). Qed.

Lemma run_load_new (h l : list cell) (k : nat) (c : cell) :
  l !! k = Some c -> load (length h + k)%nat (h ++ l) = Some (c, h ++ l).
Proof. intros Hk. unfold load. by rewrite lookup_new, Hk. Qed.

Lemma run_write_new (h l : list cell) (k : nat) (c c0 : cell) :
  l !! k = Some c0 ->
  write (length h + k)%nat c (h ++ l) = Some (tt, h ++ <[k := c]> l).
Proof.
  intros Hk. unfold write. rewrite lookup_new, Hk.
  do 2 f_equal. apply insert_app_r.
Qed.

Lemma run_load_triples_old (h l : list cell) (x : loc) fs :
  h !! x = Some (Triples fs) -> load_triples x (h ++ l) = Some (fs, h ++ l).
Proof. intros Hx. unfold load_triples. by rewrite run_bind, (run_load_old _ _ _ _ Hx). Qed.

Lemma run_load_names_old (h l : list cell) (x : loc) ns :
  h !! x = Some (Names ns) -> load_names x (h ++ l) = Some (ns, h ++ l).
Proof. intros Hx. unfold load_names. by rewrite run_bind, (run_load_old _ _ _ _ Hx). Qed.

Lemma run_load_object_old (h l : list cell) (x : loc) o :
  h !! x = Some (Object o) -> load_object x (h ++ l) = Some (o, h ++ l).
Proof. intros Hx. unfold load_object. by rewrite run_bind, (run_load_old _ _ _ _ Hx). Qed.

Lemma run_load_triples_new (h l : list cell) (k : nat) fs :
  l !! k = Some (Triples fs) ->
  load_triples (length h + k)%nat (h ++ l) = Some (fs, h ++ l).
Proof. intros Hk. unfold load_triples. by rewrite run_bind, (run_load_new _ _ _ _ Hk). Qed.

Lemma run_load_names_new (h l : list cell) (k : nat) ns :
  l !! k = Some (Names ns) ->
  load_names (length h + k)%nat (h ++ l) = Some (ns, h ++ l).
Proof. intros Hk. unfold load_names. by rewrite run_bind, (run_load_new _ _ _ _ Hk). Qed.

Lemma run_load_object_new (h l : list cell) (k : nat) o :
  l !! k = Some (Object o) ->
  load_object (length h + k)%nat (h ++ l) = Some (o, h ++ l).
Proof. intros Hk. unfold load_object. by rewrite run_bind, (run_load_new _ _ _ _ Hk). Qed.

Lemma run_set_attr_new (h l : list cell) (k : nat) (f : builder -> builder) o :
  l !! k = Some (Object o) ->
  set_attr (length h + k)%nat f (h ++ l)
  = Some (tt, h ++ <[k := Object (f o)]> l).
Proof.
  intros Hk. unfold set_attr.
  rewrite run_bind, (run_load_object_new _ _ _ _ Hk).
  by apply run_write_new with (c0 := Object o).
Qed.

(** What [view] reads, spelled out. *)
Lemma view_inv (h : store) (self : loc) (q : QuerySet.t) :
  view h self = Some q ->
  exists me fs es ob sr vf,
    h !! self = Some (Object me)
    /\ h !! o_filters me = Some (Triples fs)
    /\ h !! o_excludes me = Some (Triples es)
    /\ h !! o_order_by me = Some (Names ob)
    /\ h !! o_select_related me = Some (Names sr)
    /\ match o_values_fields me with
       | None => vf = None
       | Some r => exists ns, h !! r = Some (Names ns) /\ vf = Some ns
       end
    /\ q = QuerySet.mk (o_model me) fs es ob (o_limit me) (o_offset me) sr
             (o_distinct me) vf (o_cache me).
Proof.
  unfold view, get_object, get_triples, get_names. intros Hv.
  destruct (h !! self) as [[| |me]|] eqn:Hself; try done. simpl in Hv.
  destruct (h !! o_filters me) as [[fs| |]|] eqn:Hf; try done. simpl in Hv.
  destruct (h !! o_excludes me) as [[es| |]|] eqn:He; try done. simpl in Hv.
  destruct (h !! o_order_by me) as [[|ob|]|] eqn:Ho; try done. simpl in Hv.
  destruct (h !! o_select_related me) as [[|sr|]|] eqn:Hs; try done. simpl in Hv.
  destruct (o_values_fields me) as [r|] eqn:Hvf.
  - destruct (h !! r) as [[|ns|]|] eqn:Hr; try done. simpl in Hv.
    injection Hv as <-. exists me, fs, es, ob, sr, (Some ns).
    rewrite Hvf. repeat split; eauto.
  - simpl in Hv. injection Hv as <-. exists me, fs, es, ob, sr, None.
    rewrite Hvf. by repeat split.
Qed.

Lemma view_intro (h : store) (self : loc) me fs es ob sr vf :
  h !! self = Some (Object me) ->
  h !! o_filters me = Some (Triples fs) ->
  h !! o_excludes me = Some (Triples es) ->
  h !! o_order_by me = Some (Names ob) ->
  h !! o_select_related me = Some (Names sr) ->
  match o_values_fields me with
  | None => vf = None
  | Some r => exists ns, h !! r = Some (Names ns) /\ vf = Some ns
  end ->
  view h self
  = Some (QuerySet.mk (o_model me) fs es ob (o_limit me) (o_offset me) sr
            (o_distinct me) vf (o_cache me)).
Proof.
  intros Hself Hf He Ho Hs Hvf. unfold view, get_object, get_triples, get_names.
  rewrite Hself. simpl. rewrite Hf. simpl. rewrite He. simpl.
  rewrite Ho. simpl. rewrite Hs. simpl.
  destruct (o_values_fields me) as [r|].
  - destruct Hvf as (ns & -> & ->). done.
  - by rewrite Hvf.
Qed.

(** Cells that were there stay readable when cells are added. *)
Lemma view_old (h l : list cell) (self : loc) (q : QuerySet.t) :
  view h self = Some q -> view (h ++ l) self = Some q.
Proof.
  intros (me & fs & es & ob & sr & vf & Hself & Hf & He & Ho & Hs & Hvf & ->)%view_inv.
  apply view_intro; try by apply lookup_old.
  destruct (o_values_fields me) as [r|]; [|done].
  destruct Hvf as (ns & Hr & ->). exists ns. split; [by apply lookup_old|done].
Qed.

(** The cells [_clone] leaves behind: the four empty lists of
    [__init__], the new builder, and the four copies. *)
Definition clone_cells (n : nat) (me : builder) fs es ob sr : list cell :=
  [Triples []; Triples []; Names []; Names [];
   Object (Builder (o_model me) (n + 5)%nat (n + 6)%nat (n + 7)%nat (o_limit me)
             (o_offset me) (n + 8)%nat (o_distinct me) (o_values_fields me) None);
   Triples fs; Triples es; Names ob; Names sr].

Lemma run_clone (h : store) (self : loc) me fs es ob sr :
  h !! self = Some (Object me) ->
  h !! o_filters me = Some (Triples fs) ->
  h !! o_excludes me = Some (Triples es) ->
  h !! o_order_by me = Some (Names ob) ->
  h !! o_select_related me = Some (Names sr) ->
  _clone self h
  = Some ((length h + 4)%nat, h ++ clone_cells (length h) me fs es ob sr).
Proof.
  intros Hself Hf He Ho Hs.
  replace (_clone self h) with (_clone self (h ++ [])) by (by rewrite app_nil_r).
  unfold _clone, __init__.
  repeat first
    [ rewrite run_bind
    | rewrite run_ret
    | rewrite run_alloc; simpl length; simpl app
    | rewrite (run_load_object_old _ _ _ _ Hself)
    | rewrite (run_load_triples_old _ _ _ _ Hf)
    | rewrite (run_load_triples_old _ _ _ _ He)
    | rewrite (run_load_names_old _ _ _ _ Ho)
    | rewrite (run_load_names_old _ _ _ _ Hs)
    | erewrite run_set_attr_new by reflexivity; simpl list_insert ].
  unfold clone_cells. simpl. by rewrite ?Nat.add_0_r.
Qed.
End StoreFacts.

Module ChainFacts.
Import Store StoreFacts.

Lemma run_filter_loop (h : store) (qs : nat) me fs es ob sr (kw : kwargs) :
  for_kwargs
    (fun lookup v =>
       let '(field_name, operator) := parse_lookup lookup in
       append_filter (length h + 4)%nat (field_name, operator, v))
    kw (h ++ clone_cells (length h) me fs es ob sr)
  = Some (tt, h ++ clone_cells (length h) me (fs ++ parsed kw) es ob sr).
Proof.
  revert fs. induction kw as [|[lookup v] kw IH]; intros fs.
  - simpl. by rewrite app_nil_r.
  - simpl for_kwargs. rewrite run_bind.
    destruct (parse_lookup lookup) as [field op] eqn:Hp.
    unfold append_filter. rewrite run_bind.
    erewrite run_load_object_new by reflexivity. simpl o_filters.
    rewrite run_bind. erewrite run_load_triples_new by reflexivity.
    erewrite run_write_new by reflexivity.
    change (<[5%nat := Triples (fs ++ [(field, op, v)])]>
              (clone_cells (length h) me fs es ob sr))
      with (clone_cells (length h) me (fs ++ [(field, op, v)]) es ob sr).
    rewrite IH. unfold parsed. simpl. rewrite Hp. simpl. by rewrite <- app_assoc.
Qed.

Lemma run_exclude_loop (h : store) (qs : nat) me fs es ob sr (kw : kwargs) :
  for_kwargs
    (fun lookup v =>
       let '(field_name, operator) := parse_lookup lookup in
       append_exclude (length h + 4)%nat (field_name, operator, v))
    kw (h ++ clone_cells (length h) me fs es ob sr)
  = Some (tt, h ++ clone_cells (length h) me fs (es ++ parsed kw) ob sr).
Proof.
  revert es. induction kw as [|[lookup v] kw IH]; intros es.
  - simpl. by rewrite app_nil_r.
  - simpl for_kwargs. rewrite run_bind.
    destruct (parse_lookup lookup) as [field op] eqn:Hp.
    unfold append_exclude. rewrite run_bind.
    erewrite run_load_object_new by reflexivity. simpl o_excludes.
    rewrite run_bind. erewrite run_load_triples_new by reflexivity.
    erewrite run_write_new by reflexivity.
    change (<[6%nat := Triples (es ++ [(field, op, v)])]>
              (clone_cells (length h) me fs es ob sr))
      with (clone_cells (length h) me fs (es ++ [(field, op, v)]) ob sr).
    rewrite IH. unfold parsed. simpl. rewrite Hp. simpl. by rewrite <- app_assoc.
Qed.

(** What holds of a builder allocated after [h], whatever was done to
    the new cells. *)
Lemma new_builder (h l : list cell) (self : loc) (q : QuerySet.t) (k : nat)
    (o : builder) fs es ob sr vf :
  view h self = Some q ->
  l !! k = Some (Object o) ->
  (h ++ l) !! o_filters o = Some (Triples fs) ->
  (h ++ l) !! o_excludes o = Some (Triples es) ->
  (h ++ l) !! o_order_by o = Some (Names ob) ->
  (h ++ l) !! o_select_related o = Some (Names sr) ->
  match o_values_fields o with
  | None => vf = None
  | Some r => exists ns, (h ++ l) !! r = Some (Names ns) /\ vf = Some ns
  end ->
  h !! (length h + k)%nat = None
  /\ (length h + k)%nat <> self
  /\ (forall x c, h !! x = Some c -> (h ++ l) !! x = Some c)
  /\ view (h ++ l) self = Some q
  /\ view (h ++ l) (length h + k)%nat
     = Some (QuerySet.mk (o_model o) fs es ob (o_limit o) (o_offset o) sr
               (o_distinct o) vf (o_cache o)).
Proof.
  intros Hv Hk Hf He Ho Hs Hvf.
  split; [apply lookup_ge_None; lia|].
  split.
  { apply view_inv in Hv as (me & ? & ? & ? & ? & ? & Hself & _).
    apply lookup_lt_Some in Hself. lia. }
  split; [intros x c; apply lookup_old|].
  split; [by apply view_old|].
  apply view_intro; try done. by rewrite lookup_new.
Qed.
End ChainFacts.

Ltac new_builder_facts Hv Hshared Hnew :=
  match goal with
  | |- _ /\ _ /\ _ /\ Store.view (?h ++ ?L) _ = _ /\ _ =>
      edestruct (ChainFacts.new_builder h L) with (k := 4%nat)
        as (? & ? & ? & ? & Hnew);
      [ exact Hv
      | reflexivity
      | cbn [Store.o_filters Store.o_excludes Store.o_order_by
             Store.o_select_related Store.set_order_by Store.set_limit
             Store.set_offset Store.set_distinct Store.set_values_fields];
        rewrite StoreFacts.lookup_new; reflexivity ..
      | first [ apply Hshared
              | simpl; reflexivity
              | simpl; eexists; split;
                [rewrite StoreFacts.lookup_new; reflexivity | reflexivity] ]
      | ]
  end.

(** Claim C6.  Every chaining method ([filter], [exclude], [order_by], [limit],
    [offset], [distinct], [values], [select_related]), called on a builder
    whose state reads [q] through the store, returns a builder at a
    location that was not in use; no cell that existed before the call is
    changed, so the receiver still reads [q], cache included; the new
    builder reads as the method applied to [q]; and its cache is empty
    whatever the receiver's cache holds. *)
Theorem chaining_leaves_receiver_unchanged (m : Store.chain_call)
    (h : Store.store) (self : Store.loc) (q : QuerySet.t) :
  Store.view h self = Some q ->
  exists (r : Store.loc) (h' : Store.store),
    Store.call m self h = Some (r, h')
    /\ h !! r = None
    /\ r <> self
    /\ (forall x c, h !! x = Some c -> h' !! x = Some c)
    /\ Store.view h' self = Some q
    /\ Store.view h' r = Some (Store.call_value m q)
    /\ QuerySet._cache (Store.call_value m q) = None.
Proof.
  intros Hv.
  destruct (StoreFacts.view_inv h self q Hv)
    as (me & fs & es & ob & sr & vf & Hself & Hf & He & Ho & Hs & Hvf & ->).
  pose proof (StoreFacts.run_clone h self me fs es ob sr Hself Hf He Ho Hs) as Hclone.
  assert (Hshared : forall l,
             match Store.o_values_fields me with
             | None => vf = None
             | Some r => exists ns, (h ++ l) !! r = Some (Store.Names ns) /\ vf = Some ns
             end).
  { intros l. destruct (Store.o_values_fields me) as [r|]; [|done].
    destruct Hvf as (ns & Hr & ->). exists ns.
    split; [by apply StoreFacts.lookup_old|done]. }
  destruct m as [kw|kw|fields|n|n| |fields|fields];
    cbn [Store.call Store.call_value].
  - (* filter *)
    eexists _, _. split.
    { unfold Store.filter.
      rewrite StoreFacts.run_bind, Hclone, StoreFacts.run_bind.
      by rewrite (ChainFacts.run_filter_loop h 0 me fs es ob sr kw). }
    new_builder_facts Hv Hshared Hnew.
    repeat (split; [done|]). split; [|by rewrite filter_fields].
    rewrite Hnew. simpl. by rewrite filter_fields.
  - (* exclude *)
    eexists _, _. split.
    { unfold Store.exclude.
      rewrite StoreFacts.run_bind, Hclone, StoreFacts.run_bind.
      by rewrite (ChainFacts.run_exclude_loop h 0 me fs es ob sr kw). }
    new_builder_facts Hv Hshared Hnew.
    repeat (split; [done|]). split; [|by rewrite exclude_fields].
    rewrite Hnew. simpl. by rewrite exclude_fields.
  - (* order_by *)
    eexists _, _. split.
    { unfold Store.order_by.
      rewrite StoreFacts.run_bind, Hclone, StoreFacts.run_bind.
      rewrite StoreFacts.run_alloc. simpl length. simpl app.
      rewrite StoreFacts.run_bind.
      by erewrite StoreFacts.run_set_attr_new by reflexivity. }
    simpl list_insert.
    new_builder_facts Hv Hshared Hnew.
    repeat (split; [try done|]); try done; by rewrite Hnew.
  - (* limit *)
    eexists _, _. split.
    { unfold Store.limit.
      rewrite StoreFacts.run_bind, Hclone, StoreFacts.run_bind.
      by erewrite StoreFacts.run_set_attr_new by reflexivity. }
    simpl list_insert.
    new_builder_facts Hv Hshared Hnew.
    repeat (split; [try done|]); try done; by rewrite Hnew.
  - (* offset *)
    eexists _, _. split.
    { unfold Store.offset.
      rewrite StoreFacts.run_bind, Hclone, StoreFacts.run_bind.
      by erewrite StoreFacts.run_set_attr_new by reflexivity. }
    simpl list_insert.
    new_builder_facts Hv Hshared Hnew.
    repeat (split; [try done|]); try done; by rewrite Hnew.
  - (* distinct *)
    eexists _, _. split.
    { unfold Store.distinct.
      rewrite StoreFacts.run_bind, Hclone, StoreFacts.run_bind.
      by erewrite StoreFacts.run_set_attr_new by reflexivity. }
    simpl list_insert.
    new_builder_facts Hv Hshared Hnew.
    repeat (split; [try done|]); try done; by rewrite Hnew.
  - (* values *)
    destruct fields as [|f fields].
    + eexists _, _. split.
      { unfold Store.values.
        rewrite StoreFacts.run_bind, Hclone, StoreFacts.run_bind.
        by erewrite StoreFacts.run_set_attr_new by reflexivity. }
      simpl list_insert.
      new_builder_facts Hv Hshared Hnew.
      repeat (split; [try done|]); try done; by rewrite Hnew.
    + eexists _, _. split.
      { unfold Store.values.
        rewrite StoreFacts.run_bind, Hclone, !StoreFacts.run_bind.
        rewrite StoreFacts.run_alloc. simpl length. simpl app.
        by erewrite StoreFacts.run_set_attr_new by reflexivity. }
      simpl list_insert.
      new_builder_facts Hv Hshared Hnew.
      repeat (split; [try done|]); try done; by rewrite Hnew.
  - (* select_related *)
    eexists _, _. split.
    { unfold Store.select_related.
      rewrite StoreFacts.run_bind, Hclone, StoreFacts.run_bind.
      erewrite StoreFacts.run_load_object_new by reflexivity.
      simpl Store.o_select_related. rewrite StoreFacts.run_bind.
      erewrite StoreFacts.run_load_names_new by reflexivity.
      rewrite StoreFacts.run_bind.
      by erewrite StoreFacts.run_write_new by reflexivity. }
    simpl list_insert.
    new_builder_facts Hv Hshared Hnew.
    repeat (split; [try done|]); try done; by rewrite Hnew.
Qed.

(* ===================================================================== *)
(** * migrate                                                             *)
(* ===================================================================== *)

Section execute_facts.
Context {DB : Type} `{Engine DB}.

Lemma run_cm_bind {A B} (m : CM DB A) (k : A -> CM DB B) (c : Connection DB) :
  (m ≫= k) c
  = match m c with
    | (c', Ok a) => k a c'
    | (c', Raise e) => (c', Raise e)
    end.
Proof. reflexivity. Qed.

(** One statement whose parameters fit: what it does to the trace and,
    when the engine refuses it, to the database. *)
Lemma execute_inv sql params (c c' : Connection DB) r :
  forallb fits_int64 params = true ->
  execute sql params c = (c', r) ->
  conn_trace c' = conn_trace c ++ [EvExecute sql params]
  /\ ((exists cur, r = Ok cur
                   /\ engine_execute (conn_db c) sql params = inr (conn_db c', cur))
      \/ (exists msg, r = Raise (Exn ORMConnectionError msg)
                      /\ conn_db c' = conn_db c)).
Proof.
  intros Hfit. unfold execute.
  destruct (engine_execute (conn_db c) sql params) as [[msg|]|[d cur]] eqn:Hrun;
    intros [= <- <-]; (split; [done|]).
  - right. by eexists.
  - apply engine_overflow in Hrun. congruence.
  - left. by eexists.
Qed.

End execute_facts.

Ltac execute_inv_in Hex :=
  match type of Hex with
  | execute ?sql ?params ?c = _ =>
      apply (execute_inv sql params _ _ _
               (eq_refl : forallb fits_int64 params = true)) in Hex
  end.

Section migrate_facts.
Context {DB : Type} `{Ledger DB} `{FileSystem}.

Lemma in_applied_names (names : list string) (m : string) :
  in_applied (map VStr names) m = true <-> In m names.
Proof.
  unfold in_applied. rewrite existsb_exists. split.
  - intros (v & Hv & Hm). apply in_map_iff in Hv as (s & <- & Hs).
    by apply String.eqb_eq in Hm as <-.
  - intros Hm. exists (VStr m). split; [by apply in_map|apply String.eqb_refl].
Qed.

Lemma pending_nil_iff (names files : list string) :
  pending_migrations (map VStr names) files = [] <-> (forall m, In m files -> In m names).
Proof.
  unfold pending_migrations. induction files as [|f files IH]; simpl.
  - split; [by intros _ m []|done].
  - destruct (in_applied (map VStr names) f) eqn:Hf; simpl.
    + apply in_applied_names in Hf. rewrite IH. split.
      * intros Hall m [<-|Hm]; auto.
      * intros Hall m Hm. apply Hall. by right.
    + split; [done|]. intros Hall.
      assert (Hin : In f names) by (apply Hall; by left).
      apply in_applied_names in Hin. congruence.
Qed.

Lemma in_pending (names files : list string) (m : string) :
  In m (pending_migrations (map VStr names) files)
  <-> In m files /\ ~ In m names.
Proof.
  unfold pending_migrations. rewrite filter_In, negb_true_iff.
  pose proof (in_applied_names names m) as Hin.
  split; intros [? Hb]; (split; [done|]).
  - intros Ht%Hin. congruence.
  - destruct (in_applied (map VStr names) m); [|done].
    destruct Hb. by apply Hin.
Qed.

Lemma create_migrations_table_ledger (c c' : Connection DB) r :
  create_migrations_table c = (c', r) ->
  ledger_names (conn_db c') = ledger_names (conn_db c)
  /\ ((r = Ok tt
       /\ conn_trace c' = conn_trace c
                            ++ [EvExecute create_migrations_table_sql []; EvCommit])
      \/ ((exists msg, r = Raise (Exn ORMConnectionError msg))
          /\ conn_trace c' = conn_trace c
                               ++ [EvExecute create_migrations_table_sql []])).
Proof.
  unfold create_migrations_table. rewrite run_cm_bind.
  destruct (execute create_migrations_table_sql [] c) as [c1 r1] eqn:Hex.
  execute_inv_in Hex; destruct Hex as (Htrace & [(cur & -> & Hrun)|(msg & -> & Hdb)]).
  - unfold commit. intros [= <- <-]. simpl.
    rewrite ledger_commit, (ledger_create _ _ _ Hrun), Htrace, <- app_assoc.
    split; [done|]. by left.
  - intros [= <- <-]. rewrite Hdb. split; [done|]. right. split; [by eexists|done].
Qed.

Lemma get_applied_migrations_ledger (c c' : Connection DB) r :
  get_applied_migrations c = (c', r) ->
  conn_db c' = conn_db c
  /\ conn_trace c' = conn_trace c ++ [EvExecute select_applied_sql []]
  /\ (r = Ok (map VStr (ledger_names (conn_db c)))
      \/ exists msg, r = Raise (Exn ORMConnectionError msg)).
Proof.
  unfold get_applied_migrations. rewrite run_cm_bind.
  destruct (execute select_applied_sql [] c) as [c1 r1] eqn:Hex.
  execute_inv_in Hex; destruct Hex as (Htrace & [(cur & -> & Hrun)|(msg & -> & Hdb)]).
  - apply ledger_select in Hrun as [Hdb Hrows]. unfold lift.
    intros [= <- <-]. rewrite Hrows. repeat split; try done. by left.
  - intros [= <- <-]. repeat split; try done. right. by eexists.
Qed.

Lemma operations_apply_ledger (ops : list Operation) (c c' : Connection DB) r :
  (forall op d d' cur,
      In op ops -> engine_execute d (apply_sql op) [] = inr (d', cur) ->
      ledger_names d' = ledger_names d) ->
  for_all operation_apply ops c = (c', r) ->
  ledger_names (conn_db c') = ledger_names (conn_db c).
Proof.
  revert c. induction ops as [|op ops IH]; intros c Hkeep.
  - by intros [= <- <-].
  - simpl for_all. rewrite run_cm_bind. unfold operation_apply at 1.
    rewrite run_cm_bind.
    destruct (execute (apply_sql op) [] c) as [c1 r1] eqn:Hex.
    execute_inv_in Hex; destruct Hex as (_ & [(cur & -> & Hrun)|(msg & -> & Hdb)]).
    + simpl. intros Hrest. apply IH in Hrest.
      * rewrite Hrest. eapply Hkeep; [by left|exact Hrun].
      * intros op' d d' cur' Hin. apply Hkeep. by right.
    + intros [= <- <-]. by rewrite Hdb.
Qed.

Lemma mark_migration_applied_ledger (m : string) (c c' : Connection DB) :
  mark_migration_applied m c = (c', Ok tt) ->
  ledger_names (conn_db c') = ledger_names (conn_db c) ++ [m].
Proof.
  unfold mark_migration_applied. rewrite run_cm_bind.
  destruct (execute insert_applied_sql [VStr m] c) as [c1 r1] eqn:Hex.
  execute_inv_in Hex; destruct Hex as (_ & [(cur & -> & Hrun)|(msg & -> & Hdb)]); [|done].
  unfold commit. intros [= <-]. simpl.
  by rewrite ledger_commit, (ledger_insert _ _ _ _ Hrun).
Qed.

Context (Hkeep : operations_keep_ledger).

Lemma apply_pending_ledger (self : MigrationManager) (m : string)
    (c c' : Connection DB) :
  apply_pending self m c = (c', Ok tt) ->
  ledger_names (conn_db c') = ledger_names (conn_db c) ++ [m].
Proof.
  unfold apply_pending. rewrite run_cm_bind. unfold lift at 1.
  destruct (load_operations _) as [ops|e] eqn:Hload; [|done].
  unfold try_except. rewrite run_cm_bind.
  unfold migration_apply at 1. rewrite run_cm_bind. simpl operations.
  destruct (for_all operation_apply ops c) as [c1 r1] eqn:Hops.
  assert (Hl1 : ledger_names (conn_db c1) = ledger_names (conn_db c)).
  { eapply operations_apply_ledger; [|exact Hops].
    intros op d d' cur Hin. by eapply Hkeep. }
  destruct r1 as [[]|e]; [|done].
  unfold commit at 1. cbv beta iota.
  destruct (mark_migration_applied m _) as [c2 [[]|e]] eqn:Hmark; [|done].
  intros [= <-]. apply mark_migration_applied_ledger in Hmark.
  simpl in Hmark. by rewrite Hmark, ledger_commit, Hl1.
Qed.

Lemma apply_all_pending_ledger (self : MigrationManager) (pending : list string)
    (c c' : Connection DB) :
  for_all (apply_pending self) pending c = (c', Ok tt) ->
  ledger_names (conn_db c') = ledger_names (conn_db c) ++ pending.
Proof.
  revert c. induction pending as [|m pending IH]; intros c.
  - intros [= <-]. by rewrite app_nil_r.
  - simpl for_all. rewrite run_cm_bind.
    destruct (apply_pending self m c) as [c1 [[]|e]] eqn:Hm; [|done].
    intros Hrest. apply IH in Hrest. apply apply_pending_ledger in Hm.
    by rewrite Hrest, Hm, <- app_assoc.
Qed.

(** After a run of [migrate] that did not fail, every migration file is
    in the ledger. *)
Lemma migrate_records_all (self : MigrationManager) (c c1 : Connection DB) :
  migrate self c = (c1, Ok tt) ->
  forall m, In m (migration_files self) -> In m (ledger_names (conn_db c1)).
Proof.
  unfold migrate. rewrite run_cm_bind.
  destruct (create_migrations_table c) as [ca ra] eqn:Hcreate.
  apply create_migrations_table_ledger in Hcreate as [Hla [[-> _]|[[msg ->] _]]];
    [|done].
  rewrite run_cm_bind.
  destruct (get_applied_migrations ca) as [cb rb] eqn:Hget.
  apply get_applied_migrations_ledger in Hget as (Hdb & _ & [->|[msg ->]]); [|done].
  set (names := ledger_names (conn_db ca)).
  destruct (pending_migrations (map VStr names) (migration_files self))
    as [|p pending] eqn:Hpending.
  - intros [= <-] m Hm. rewrite Hdb.
    by apply (proj1 (pending_nil_iff names _) Hpending).
  - intros Hrun m Hm. apply apply_all_pending_ledger in Hrun.
    rewrite Hrun, Hdb. fold names. apply in_or_app.
    destruct (in_dec String.string_dec m names) as [|Hnot]; [by left|right].
    rewrite <- Hpending. by apply in_pending.
Qed.
End migrate_facts.

(** Claim C9, as amended.  Running [migrate] again right after a run that
    did not fail, over the same directory, applies nothing: given an engine
    that keeps its ledger as described by [Ledger], and migrations whose
    operations leave the ledger table alone, every migration file is then
    recorded in the
    ledger, the pending list computed from the ledger is empty, and the
    second run sends nothing but the ledger-table creation, its commit and
    the query for the applied names; it changes no ledger row and ends
    normally unless the engine refuses one of these statements. *)
Theorem migrate_again_applies_nothing {DB : Type} `{Ledger DB} `{FileSystem}
    (self : MigrationManager) (c c1 : Connection DB) :
  operations_keep_ledger ->
  migrate self c = (c1, Ok tt) ->
  pending_migrations (map VStr (ledger_names (conn_db c1))) (migration_files self) = []
  /\ exists c2 r evs,
       migrate self c1 = (c2, r)
       /\ conn_trace c2 = conn_trace c1 ++ evs
       /\ Forall bookkeeping evs
       /\ ledger_names (conn_db c2) = ledger_names (conn_db c1)
       /\ (r = Ok tt \/ exists msg, r = Raise (Exn ORMConnectionError msg)).
Proof.
  intros Hkeep Hfirst.
  assert (Hnone : pending_migrations (map VStr (ledger_names (conn_db c1)))
                    (migration_files self) = []).
  { apply pending_nil_iff. by apply (migrate_records_all Hkeep self c). }
  split; [exact Hnone|].
  unfold migrate. rewrite run_cm_bind.
  destruct (create_migrations_table c1) as [ca ra] eqn:Hcreate.
  apply create_migrations_table_ledger in Hcreate
    as [Hla [[-> Hta]|[[msg ->] Hta]]].
  - rewrite run_cm_bind.
    destruct (get_applied_migrations ca) as [cb rb] eqn:Hget.
    apply get_applied_migrations_ledger in Hget as (Hdb & Htb & [->|[msg ->]]).
    + rewrite Hla, Hnone.
      exists cb, (Ok tt), [EvExecute create_migrations_table_sql []; EvCommit;
                            EvExecute select_applied_sql []].
      split; [done|]. split; [by rewrite Htb, Hta, <- app_assoc|].
      split; [|split; [by rewrite Hdb|by left]].
      repeat (constructor; [unfold bookkeeping; auto|]); constructor.
    + exists cb, (Raise (Exn ORMConnectionError msg)),
        [EvExecute create_migrations_table_sql []; EvCommit;
         EvExecute select_applied_sql []].
      split; [done|]. split; [by rewrite Htb, Hta, <- app_assoc|].
      split; [|split; [by rewrite Hdb|right; by eexists]].
      repeat (constructor; [unfold bookkeeping; auto|]); constructor.
  - exists ca, (Raise (Exn ORMConnectionError msg)),
      [EvExecute create_migrations_table_sql []].
    split; [done|]. split; [done|].
    split; [|split; [done|right; by eexists]].
    repeat (constructor; [unfold bookkeeping; auto|]); constructor.
Qed.

(** The one-table engine keeps its ledger as [Ledger] asks. *)
Lemma demo_ledger_select (d d' : Demo.db) (cur : cursor) :
  engine_execute d select_applied_sql [] = inr (d', cur) ->
  d' = d /\ mapM row0 (fetchall cur) = Ok (map VStr (Demo.ledger d)).
Proof.
  simpl. unfold Demo.run. simpl.
  intros [= <- <-]. split; [done|]. simpl.
  induction (Demo.ledger d) as [|m l IH]; [done|].
  simpl map. rewrite mapM_cons, IH. done.
Qed.

Lemma demo_ledger_insert (d : Demo.db) (m : string) (d' : Demo.db) (cur : cursor) :
  engine_execute d insert_applied_sql [VStr m] = inr (d', cur) ->
  Demo.ledger d' = Demo.ledger d ++ [m].
Proof.
  simpl. unfold Demo.run. simpl.
  destruct (existsb (String.eqb m) (Demo.ledger d)); [done|].
  by intros [= <- <-].
Qed.

Lemma demo_ledger_create (d d' : Demo.db) (cur : cursor) :
  engine_execute d create_migrations_table_sql [] = inr (d', cur) ->
  Demo.ledger d' = Demo.ledger d.
Proof.
  simpl. unfold Demo.run.
  change (String.eqb create_migrations_table_sql insert_applied_sql) with false.
  change (String.eqb create_migrations_table_sql select_applied_sql) with false.
  change (String.prefix "SELECT COUNT(*) FROM " create_migrations_table_sql) with false.
  change (String.prefix "SELECT " create_migrations_table_sql) with false.
  change (String.prefix "DELETE FROM " create_migrations_table_sql) with false.
  cbv beta iota.
  by intros [= <- <-].
Qed.

Global Instance demo_ledger : Ledger Demo.db := {|
  ledger_names := Demo.ledger;
  ledger_select := demo_ledger_select;
  ledger_insert := demo_ledger_insert;
  ledger_create := demo_ledger_create;
  ledger_commit := fun d => eq_refl
|}.

Lemma demo_operations_keep_ledger : operations_keep_ledger.
Proof.
  intros path ops op d d' cur. simpl.
  destruct (String.eqb path "migrations/0001_init.py").
  { intros [= <-] [<-|[]]. simpl. unfold Demo.run. simpl. by intros [= <- _]. }
  destruct (String.eqb path "migrations/0002_views.py"); [|done].
  intros [= <-] [<-|[]]. simpl. unfold Demo.run. simpl. by intros [= <- _].
Qed.

Example demo_migrate_first_run :
  migrate Demo.manager (Demo.connect [])
  = (Conn (Demo.Db [] ["0001_init"; "0002_views"])
       [EvExecute create_migrations_table_sql []; EvCommit;
        EvExecute select_applied_sql [];
        EvExecute "CREATE TABLE IF NOT EXISTS authors (id INTEGER PRIMARY KEY, name VARCHAR(100))" [];
        EvCommit;
        EvExecute insert_applied_sql [VStr "0001_init"]; EvCommit;
        EvExecute "ALTER TABLE authors ADD COLUMN views INTEGER" [];
        EvCommit;
        EvExecute insert_applied_sql [VStr "0002_views"]; EvCommit],
     Ok tt).
Proof. vm_compute. reflexivity. Qed.

Lemma migrate_again_applies_nothing_witness :
  pending_migrations (map VStr ["0001_init"; "0002_views"])
    (migration_files Demo.manager) = [].
Proof.
  exact (proj1 (migrate_again_applies_nothing Demo.manager (Demo.connect []) _
                  demo_operations_keep_ledger demo_migrate_first_run)).
Defined.

(** Claim C9 fails as worded: when a migration drops the ledger table
    and creates it again, the run ends normally with only that migration
    in the ledger, and the next run, over the same files, applies the
    first migration a second time. *)
Lemma migrate_again_reapplies_after_ledger_reset :
  (Resettable.migrate (Conn (Resettable.Db None) [])).2 = Ok tt
  /\ conn_db (Resettable.migrate (Conn (Resettable.Db None) [])).1
     = Resettable.Db (Some ["0002_reset"])
  /\ Resettable.migrate (Conn (Resettable.Db (Some ["0002_reset"])) [])
     = (Conn (Resettable.Db (Some ["0002_reset"; "0001_init"]))
          [EvExecute create_migrations_table_sql []; EvCommit;
           EvExecute select_applied_sql [];
           EvExecute "CREATE TABLE IF NOT EXISTS authors (id INTEGER PRIMARY KEY, name VARCHAR(100))" [];
           EvCommit;
           EvExecute insert_applied_sql [VStr "0001_init"]; EvCommit],
        Ok tt).
Proof. vm_compute. repeat split. Qed.

Example reset_first_run :
  conn_trace (Resettable.migrate (Conn (Resettable.Db None) [])).1
  = [EvExecute create_migrations_table_sql []; EvCommit;
     EvExecute select_applied_sql [];
     EvExecute "CREATE TABLE IF NOT EXISTS authors (id INTEGER PRIMARY KEY, name VARCHAR(100))" [];
     EvCommit;
     EvExecute insert_applied_sql [VStr "0001_init"]; EvCommit;
     EvExecute "DROP TABLE IF EXISTS _migrations" [];
     EvExecute "CREATE TABLE IF NOT EXISTS _migrations (id INTEGER PRIMARY KEY AUTOINCREMENT, name VARCHAR(255) UNIQUE NOT NULL, applied_at TIMESTAMP DEFAULT CURRENT_TIMESTAMP)" [];
     EvCommit;
     EvExecute insert_applied_sql [VStr "0002_reset"]; EvCommit].
Proof. vm_compute. reflexivity. Qed.

(** A store with one builder, at location 4, that has a filter, an
    ordering, a limit and a populated cache. *)
Definition cached_store : Store.store :=
  [Store.Triples [("age", "gte", VInt 18)]; Store.Triples [];
   Store.Names ["name"]; Store.Names [];
   Store.Object
     (Store.Builder Demo.Person 0%nat 1%nat 2%nat (Some 5) None 3%nat false None
        (Some Demo.three_persons))].

Lemma chaining_leaves_receiver_unchanged_witness :
  exists (r : Store.loc) (h' : Store.store),
    Store.call (Store.CallExclude [("name", VStr "Bob")]) 4%nat cached_store
    = Some (r, h')
    /\ r <> 4%nat
    /\ Store.view h' 4%nat = Store.view cached_store 4%nat
    /\ (q ← Store.view h' 4%nat; Some (QuerySet._cache q))
       = Some (Some Demo.three_persons)
    /\ (q ← Store.view h' r; Some (QuerySet._excludes q, QuerySet._cache q))
       = Some ([("name", "exact", VStr "Bob")], None).
Proof.
  edestruct (chaining_leaves_receiver_unchanged
               (Store.CallExclude [("name", VStr "Bob")]) cached_store 4%nat)
    as (r & h' & Hcall & _ & Hne & _ & Hself & Hnew & _); [reflexivity|].
  exists r, h'. rewrite Hself, Hnew. by repeat split.
Defined.

(* ===================================================================== *)
(** * The result cache                                                    *)
(* ===================================================================== *)

Lemma create_instance_with_cache `{Formatter} (self : QuerySet.t) rows (r : row) :
  QuerySet._create_instance (QuerySet.with_cache rows self) r
  = QuerySet._create_instance self r.
Proof. reflexivity. Qed.

(** Once [all] has run on a builder, the builder it leaves holds the rows:
    running [all] on it again, on any connection whatever its database
    holds by then, returns the same results and sends nothing. *)
Theorem executed_builder_answers_from_cache `{Formatter} {DB : Type} `{Engine DB}
    (self self' : QuerySet.t) (c c1 : Connection DB) (results : list instance) :
  QuerySet.all self c = (c1, Ok (results, self')) ->
  forall c2 : Connection DB,
    QuerySet.all self' c2 = (c2, Ok (results, self'))
    /\ exists rows, QuerySet._cache self' = Some rows
                    /\ QuerySet._execute self' c2 = (c2, Ok (rows, self')).
Proof.
  unfold QuerySet.all. rewrite run_cm_bind.
  destruct (QuerySet._execute self c) as [ca [[rows qa]|e]] eqn:Hex; [|done].
  unfold lift. simpl.
  destruct (mapM (QuerySet._create_instance self) rows) as [res|e] eqn:Hres; [|done].
  simpl. intros [= <- <- <-] c2.
  assert (Hq : QuerySet._cache qa = Some rows
               /\ forall r, QuerySet._create_instance qa r
                            = QuerySet._create_instance self r).
  { unfold QuerySet._execute in Hex.
    destruct (QuerySet._cache self) as [cached|] eqn:Hcache.
    - injection Hex as <- <- <-. done.
    - rewrite run_cm_bind in Hex. unfold lift in Hex.
      destruct (QuerySet._build_sql self) as [[sql params]|e]; [|done].
      rewrite run_cm_bind in Hex.
      destruct (execute sql params c) as [cb [cur|e]]; [|done].
      injection Hex as <- <- <-. done. }
  destruct Hq as [Hcache Hcreate].
  assert (Hex2 : QuerySet._execute qa c2 = (c2, Ok (rows, qa))).
  { unfold QuerySet._execute. by rewrite Hcache. }
  split; [|by exists rows].
  rewrite run_cm_bind, Hex2. simpl.
  rewrite (mapM_ext_result _ _ _ Hcreate), Hres. done.
Qed.

Lemma executed_builder_answers_from_cache_witness :
  let run := QuerySet.all (QuerySet.__init__ Demo.Person)
               (Demo.connect Demo.three_persons) in
  (res ← run.2;
   (QuerySet.all res.2 (Demo.connect [])).2)
  = run.2
  /\ (res ← run.2;
      Ok (conn_trace (QuerySet.all res.2 (Demo.connect [])).1, length res.1))
     = Ok ([], 3%nat).
Proof.
  assert (Hrun : exists results self',
             QuerySet.all (QuerySet.__init__ Demo.Person)
               (Demo.connect Demo.three_persons)
             = (Conn (Demo.Db Demo.three_persons [])
                  [EvExecute "SELECT * FROM persons" []],
                Ok (results, self'))
             /\ length results = 3%nat).
  { eexists _, _. split; [vm_compute; reflexivity|reflexivity]. }
  destruct Hrun as (results & self' & Hrun & Hlen).
  destruct (executed_builder_answers_from_cache _ _ _ _ _ Hrun (Demo.connect []))
    as [Hagain _].
  cbv zeta. rewrite Hrun. simpl. rewrite Hagain. simpl. by rewrite Hlen.
Defined.

(* ===================================================================== *)
(** * When SQL synthesis fails                                            *)
(* ===================================================================== *)

Lemma has_elements_iter (v : value) :
  has_elements v = true -> exists items, py_iter v = Ok items.
Proof. destruct v; try done; by eexists. Qed.

Lemma no_elements_len (v : value) :
  has_elements v = false ->
  exists msg, py_len v = Raise (Exn TypeError msg)
              /\ exists msg', py_iter v = Raise (Exn TypeError msg').
Proof. destruct v; try done; intros _; eexists; (split; [done|by eexists]). Qed.

Section buildable.
Context `{Formatter}.

Lemma filter_clause_buildable (f : triple) :
  match filter_clause f with
  | Ok _ => filter_buildable f = true
  | Raise e => exn_cls e = TypeError /\ filter_buildable f = false
  end.
Proof.
  destruct f as [[field op] v]. unfold filter_clause, filter_buildable. simpl.
  destruct (String.eqb_spec op "isnull") as [->|_]; [done|].
  destruct (String.eqb_spec op "in") as [->|_].
  { simpl. destruct (has_elements v) eqn:Hv.
    - destruct (has_elements_iter v Hv) as [items Hi].
      by rewrite (py_iter_len _ _ Hi), Hi.
    - destruct (no_elements_len v Hv) as (msg & -> & _). done. }
  destruct (String.eqb_spec op "range") as [->|_]; [|done].
  simpl. destruct (has_elements v) eqn:Hv.
  - destruct (has_elements_iter v Hv) as [items ->]. done.
  - destruct (no_elements_len v Hv) as (_ & _ & msg & ->). done.
Qed.

Lemma exclude_clause_buildable (f : triple) :
  match exclude_clause f with
  | Ok _ => exclude_buildable f = true
  | Raise e => exn_cls e = TypeError /\ exclude_buildable f = false
  end.
Proof.
  destruct f as [[field op] v]. unfold exclude_clause, exclude_buildable. simpl.
  destruct (String.eqb_spec op "in") as [->|_].
  { destruct (has_elements v) eqn:Hv.
    - destruct (has_elements_iter v Hv) as [items Hi].
      by rewrite (py_iter_len _ _ Hi), Hi.
    - destruct (no_elements_len v Hv) as (msg & -> & _). done. }
  by destruct (String.eqb_spec op "isnull").
Qed.

Lemma clauses_buildable (clause : triple -> result (string * list value))
    (ok : triple -> bool) (fs : list triple) :
  (forall f, match clause f with
             | Ok _ => ok f = true
             | Raise e => exn_cls e = TypeError /\ ok f = false
             end) ->
  match mapM clause fs with
  | Ok _ => forallb ok fs = true
  | Raise e => exn_cls e = TypeError /\ forallb ok fs = false
  end.
Proof.
  intros Hc. induction fs as [|f fs IH]; [done|].
  rewrite mapM_cons. specialize (Hc f).
  destruct (clause f) as [cp|e]; simpl.
  - rewrite Hc. simpl. by destruct (mapM clause fs).
  - destruct Hc as [? ->]. done.
Qed.

Lemma build_sql_buildable {DB : Type} `{Engine DB}
    (self : QuerySet.t) (c : Connection DB) :
  match QuerySet._build_sql self with
  | Ok _ =>
      buildable self = true
      /\ exists w params, QuerySet._build_where_clause self = Ok (w, params)
  | Raise e =>
      buildable self = false
      /\ exn_cls e = TypeError
      /\ QuerySet._build_where_clause self = Raise e
      /\ (QuerySet._cache self = None -> QuerySet.all self c = (c, Raise e))
      /\ QuerySet.exists_ self c = (c, Raise e)
      /\ QuerySet.count self c = (c, Raise e)
      /\ QuerySet.delete self c = (c, Raise e)
  end.
Proof.
  pose proof (clauses_buildable filter_clause filter_buildable
                (QuerySet._filters self) filter_clause_buildable) as Hf.
  pose proof (clauses_buildable exclude_clause exclude_buildable
                (QuerySet._excludes self) exclude_clause_buildable) as He.
  assert (Hsql : QuerySet._build_sql self
                 = ('(w, params) ← QuerySet._build_where_clause self;
                    Ok (select_head self +:+ w +:+ select_tail self, params))).
  { by rewrite build_sql_parts, build_where_clause_clauses. }
  unfold QuerySet.all, QuerySet._execute, QuerySet.exists_, QuerySet.count,
    QuerySet.delete, buildable.
  rewrite !run_cm_bind. unfold lift. rewrite Hsql.
  rewrite build_where_clause_clauses. unfold where_of_clauses.
  destruct (mapM filter_clause (QuerySet._filters self)) as [fcs|e]; simpl.
  - rewrite Hf. simpl.
    destruct (mapM exclude_clause (QuerySet._excludes self)) as [ecs|e]; simpl.
    + split; [done|]. by eexists _, _.
    + destruct He as [? ->]. repeat split; try done. by intros ->.
  - destruct Hf as [? ->]. repeat split; try done. by intros ->.
Qed.

Lemma on_scalar_not_buildable (on_scalar ok : triple -> bool) (fs : list triple) :
  (forall f, on_scalar f = true -> ok f = false) ->
  existsb on_scalar fs = true -> forallb ok fs = false.
Proof.
  intros Hf. induction fs as [|f fs IH]; [done|]. simpl.
  destruct (on_scalar f) eqn:Hs; simpl.
  - intros _. by rewrite (Hf f Hs).
  - intros Hex. rewrite (IH Hex). apply andb_false_r.
Qed.

Lemma carries_scalar_not_buildable (self : QuerySet.t) :
  carries_scalar self = true -> buildable self = false.
Proof.
  unfold carries_scalar, buildable. intros [Hf|He]%orb_true_iff.
  - rewrite (on_scalar_not_buildable filter_on_scalar filter_buildable _
               ltac:(intros [[? op] v]; unfold filter_on_scalar, filter_buildable;
                     simpl; destruct (_ || _); [by destruct v|done]) Hf).
    done.
  - rewrite (on_scalar_not_buildable exclude_on_scalar exclude_buildable _
               ltac:(intros [[? op] v]; unfold exclude_on_scalar, exclude_buildable;
                     simpl; destruct (String.eqb _ _); [by destruct v|done]) He).
    apply andb_false_r.
Qed.

(** When every [in] lookup, among filters and exclusions, and every
    [range] filter carries a string, a list or a tuple, SQL synthesis
    succeeds, whatever the other lookups carry.  When some [in] lookup or
    some [range] filter carries [None], a boolean or an integer,
    synthesis raises a [TypeError], and the terminal methods raise it
    without sending anything. *)
Theorem synthesis_fails_on_scalars {DB : Type} `{Engine DB}
    (self : QuerySet.t) (c : Connection DB) :
  (buildable self = true ->
   exists sql w params,
     QuerySet._build_sql self = Ok (sql, params)
     /\ QuerySet._build_where_clause self = Ok (w, params))
  /\ (carries_scalar self = true ->
      exists e,
        exn_cls e = TypeError
        /\ QuerySet._build_sql self = Raise e
        /\ QuerySet._build_where_clause self = Raise e
        /\ (QuerySet._cache self = None -> QuerySet.all self c = (c, Raise e))
        /\ QuerySet.exists_ self c = (c, Raise e)
        /\ QuerySet.count self c = (c, Raise e)
        /\ QuerySet.delete self c = (c, Raise e)).
Proof.
  pose proof (build_sql_buildable self c) as Hb.
  assert (Hsql : QuerySet._build_sql self
                 = ('(w, params) ← QuerySet._build_where_clause self;
                    Ok (select_head self +:+ w +:+ select_tail self, params))).
  { by rewrite build_sql_parts, build_where_clause_clauses. }
  split.
  - intros Hok. destruct (QuerySet._build_sql self) as [[sql params]|e] eqn:Hs.
    + destruct Hb as (_ & w & params' & Hw). rewrite Hw in Hsql.
      injection Hsql as _ <-. by exists sql, w, params.
    + destruct Hb as [Hno _]. congruence.
  - intros Hs%carries_scalar_not_buildable.
    destruct (QuerySet._build_sql self) as [[sql params]|e].
    + destruct Hb as [Hok _]. congruence.
    + exists e. destruct Hb as (_ & Hcls & Hrest). done.
Qed.
End buildable.

Lemma synthesis_fails_on_scalars_witness :
  QuerySet.exists_ unbuildable_query (Demo.connect Demo.three_persons)
  = (Demo.connect Demo.three_persons,
     Raise (Exn TypeError "object of type 'int' has no len()")).
Proof.
  assert (Hs : carries_scalar unbuildable_query = true) by reflexivity.
  destruct (proj2 (synthesis_fails_on_scalars unbuildable_query
                     (Demo.connect Demo.three_persons)) Hs)
    as (e & _ & Hsql & _ & _ & Hexists & _).
  rewrite Hexists. f_equal. f_equal.
  assert (Hrun : QuerySet._build_sql unbuildable_query
                 = Raise (Exn TypeError "object of type 'int' has no len()"))
    by reflexivity.
  congruence.
Defined.

(* ===================================================================== *)
(** * update                                                              *)
(* ===================================================================== *)

Section update_facts.
Context `{Formatter} `{FieldCodec} {DB : Type} `{Engine DB}.

Lemma update_step_assignment (m : Model) (kv : string * value)
    (parts : list string) (params : list value) :
  QuerySetMethods.update_step m (parts, params) kv
  = (s ← assignment m kv; Ok (parts ++ [s.1], params ++ [s.2])).
Proof.
  destruct kv as [k v]. unfold QuerySetMethods.update_step, assignment. simpl.
  destruct (fields_get k (_fields m)) as [field|]; [|done].
  by destruct (to_db field v).
Qed.

Lemma update_steps (m : Model) (kw : kwargs) (parts : list string)
    (params : list value) :
  for_each (QuerySetMethods.update_step m) (parts, params) kw
  = (sets ← mapM (assignment m) kw;
     Ok (parts ++ map fst sets, params ++ map snd sets)).
Proof.
  revert parts params. induction kw as [|kv kw IH]; intros parts params.
  - simpl. by rewrite !app_nil_r.
  - rewrite mapM_cons. cbn [for_each]. rewrite update_step_assignment.
    destruct (assignment m kv) as [[part w]|e]; [|done]. simpl.
    rewrite IH. destruct (mapM (assignment m) kw) as [sets|e]; [|done].
    simpl. by rewrite <- !app_assoc.
Qed.

(** [update] with nothing to set returns 0 without looking at the builder
    or the connection, even when the WHERE clause could not be built.
    With something to set, an undeclared field name raises the query error
    naming it, and nothing is sent, provided the WHERE clause builds and
    the assignments before it convert. *)
Theorem update_refuses_unknown_field (self : QuerySet.t) (c : Connection DB) :
  QuerySetMethods.update self [] c = (c, Ok 0)
  /\ (forall (before after : kwargs) (k : string) (v : value) w params sets,
         QuerySet._build_where_clause self = Ok (w, params) ->
         mapM (assignment (QuerySet.model self)) before = Ok sets ->
         fields_get k (_fields (QuerySet.model self)) = None ->
         QuerySetMethods.update self (before ++ (k, v) :: after) c
         = (c, Raise (Exn QueryError ("Unknown field: " +:+ k)))).
Proof.
  split; [done|].
  intros before after k v w params sets Hw Hbefore Hk.
  assert (Hloop : for_each (QuerySetMethods.update_step (QuerySet.model self))
                    ([], []) (before ++ (k, v) :: after)
                  = Raise (Exn QueryError ("Unknown field: " +:+ k))).
  { rewrite update_steps.
    assert (Hm : mapM (assignment (QuerySet.model self)) (before ++ (k, v) :: after)
                 = Raise (Exn QueryError ("Unknown field: " +:+ k))).
    { clear Hw. revert sets Hbefore.
      induction before as [|kv before IH]; intros sets Hbefore.
      - simpl app. rewrite mapM_cons.
        assert (Ha : assignment (QuerySet.model self) (k, v)
                     = Raise (Exn QueryError ("Unknown field: " +:+ k)))
          by (unfold assignment; simpl; by rewrite Hk).
        by rewrite Ha.
      - simpl app. rewrite mapM_cons. rewrite mapM_cons in Hbefore.
        destruct (assignment (QuerySet.model self) kv) as [s|e]; [|done]. simpl in *.
        destruct (mapM (assignment (QuerySet.model self)) before) as [ss|e] eqn:Hb;
          [|done].
        by rewrite (IH ss). }
    by rewrite Hm. }
  unfold QuerySetMethods.update.
  destruct (before ++ (k, v) :: after) as [|kv kw] eqn:Hkw.
  { by destruct before. }
  rewrite run_cm_bind. unfold lift at 1. rewrite Hw. cbv beta iota.
  rewrite run_cm_bind. unfold lift at 1. by rewrite Hloop.
Qed.

End update_facts.

Lemma update_refuses_unknown_field_witness :
  QuerySetMethods.update minors_query [("name", VStr "Al"); ("email", VStr "x")]
    (Demo.connect Demo.three_persons)
  = (Demo.connect Demo.three_persons,
     Raise (Exn QueryError "Unknown field: email")).
Proof.
  exact (proj2 (update_refuses_unknown_field minors_query
                  (Demo.connect Demo.three_persons))
           [("name", VStr "Al")] [] "email" (VStr "x") _ _ _
           eq_refl eq_refl eq_refl).
Defined.


(* ===================================================================== *)
(** * How chaining methods compose                                        *)
(* ===================================================================== *)

Lemma parsed_app (a b : kwargs) : parsed (a ++ b) = parsed a ++ parsed b.
Proof. apply map_app. Qed.

Ltac qs_fields :=
  cbn [QuerySet.with_filters QuerySet.with_excludes QuerySet.with_order_by
       QuerySet.with_limit QuerySet.with_offset QuerySet.with_select_related
       QuerySet.with_distinct QuerySet.with_values_fields QuerySet.with_cache
       QuerySet.model QuerySet._filters QuerySet._excludes QuerySet._order_by
       QuerySet._limit QuerySet._offset QuerySet._select_related
       QuerySet._distinct QuerySet._values_fields QuerySet._cache].

Lemma filter_filter (q : QuerySet.t) (a b : kwargs) :
  QuerySet.filter (QuerySet.filter q a) b = QuerySet.filter q (a ++ b).
Proof.
  rewrite !filter_fields, (parsed_app a b). destruct q. qs_fields.
  by rewrite <- app_assoc.
Qed.

Lemma exclude_exclude (q : QuerySet.t) (a b : kwargs) :
  QuerySet.exclude (QuerySet.exclude q a) b = QuerySet.exclude q (a ++ b).
Proof.
  rewrite !exclude_fields, (parsed_app a b). destruct q. qs_fields.
  by rewrite <- app_assoc.
Qed.

Lemma filter_exclude_swap (q : QuerySet.t) (f e : kwargs) :
  QuerySet.filter (QuerySet.exclude q e) f = QuerySet.exclude (QuerySet.filter q f) e.
Proof. rewrite !filter_fields, !exclude_fields. by destruct q. Qed.

Lemma select_related_twice (q : QuerySet.t) (a b : list string) :
  QuerySet.select_related (QuerySet.select_related q a) b
  = QuerySet.select_related q (a ++ b).
Proof.
  destruct q as [m fs es ob l o sr d vf ch].
  change (QuerySet.mk m fs es ob l o ((sr ++ a) ++ b) d vf None
          = QuerySet.mk m fs es ob l o (sr ++ a ++ b) d vf None).
  by rewrite <- app_assoc.
Qed.

(** Two [filter] calls in a row are one call with both sets of lookups,
    and likewise for [exclude] and [select_related]; [filter] and
    [exclude] can be swapped; for [order_by], [limit], [offset] and
    [values] the last call wins; [distinct] twice is [distinct]. *)
Theorem chaining_composes (q : QuerySet.t) :
  (forall a b, QuerySet.filter (QuerySet.filter q a) b = QuerySet.filter q (a ++ b))
  /\ (forall a b,
         QuerySet.exclude (QuerySet.exclude q a) b = QuerySet.exclude q (a ++ b))
  /\ (forall f e,
         QuerySet.filter (QuerySet.exclude q e) f
         = QuerySet.exclude (QuerySet.filter q f) e)
  /\ (forall a b,
         QuerySet.select_related (QuerySet.select_related q a) b
         = QuerySet.select_related q (a ++ b))
  /\ (forall a b, QuerySet.order_by (QuerySet.order_by q a) b = QuerySet.order_by q b)
  /\ (forall a b, QuerySet.limit (QuerySet.limit q a) b = QuerySet.limit q b)
  /\ (forall a b, QuerySet.offset (QuerySet.offset q a) b = QuerySet.offset q b)
  /\ (forall a b, QuerySet.values (QuerySet.values q a) b = QuerySet.values q b)
  /\ QuerySet.distinct (QuerySet.distinct q) = QuerySet.distinct q.
Proof.
  split; [exact (filter_filter q)|].
  split; [exact (exclude_exclude q)|].
  split; [exact (filter_exclude_swap q)|].
  split; [exact (select_related_twice q)|].
  destruct q. repeat split.
Qed.

(* ===================================================================== *)
(** * first, last and indexing                                            *)
(* ===================================================================== *)

Section terminal_facts.
Context `{Formatter} {DB : Type} `{Engine DB}.

(** [all] on a builder without cache: one statement, then one instance
    per row. *)
Lemma all_runs_statement (qs : QuerySet.t) (c : Connection DB)
    (sql : string) (params : list value) (d : DB) (cur : cursor) :
  QuerySet._cache qs = None ->
  QuerySet._build_sql qs = Ok (sql, params) ->
  engine_execute (conn_db c) sql params = inr (d, cur) ->
  QuerySet.all qs c
  = (Conn d (conn_trace c ++ [EvExecute sql params]),
     results ← mapM (QuerySet._create_instance qs) (fetchall cur);
     Ok (results, QuerySet.with_cache (Some (fetchall cur)) qs)).
Proof.
  intros Hcache Hsql Hrun.
  unfold QuerySet.all, QuerySet._execute, mbind at 1, CM_bind, lift, execute.
  rewrite Hcache. unfold mbind at 1, mbind at 1. rewrite Hsql. simpl.
  rewrite Hrun. simpl.
  by destruct (mapM (QuerySet._create_instance qs) (fetchall cur)).
Qed.


(** Indexing and slicing.  [qs[n]] runs the receiver with offset [n] and
    limit 1, whatever paging the receiver had, and raises [IndexError]
    when no row comes back.  A slice with both bounds sets offset [start]
    and limit [stop - start], again whatever paging the receiver had; with
    only [stop] it keeps the receiver's offset, with only [start] the
    receiver's limit; the step is ignored.  Any other key is a
    [TypeError] and nothing is sent. *)
Theorem indexing_sets_paging (self : QuerySet.t) (c : Connection DB) :
  (forall n sql params d cur,
      QuerySet._build_sql
        (QuerySet.with_limit (Some 1)
           (QuerySet.with_offset (Some n) (QuerySet.with_cache None self)))
      = Ok (sql, params) ->
      engine_execute (conn_db c) sql params = inr (d, cur) ->
      fetchall cur = [] ->
      QuerySetMethods.__getitem__ self (Index n) c
      = (Conn d (conn_trace c ++ [EvExecute sql params]),
         Raise (Exn IndexError "QuerySet index out of range")))
  /\ (forall a b l o,
         QuerySetMethods.slice_query
           (QuerySet.with_limit l (QuerySet.with_offset o self)) (Some a) (Some b)
         = QuerySet.with_limit (Some (b - a))
             (QuerySet.with_offset (Some a) (QuerySet.with_cache None self)))
  /\ (forall b,
         QuerySetMethods.slice_query self None (Some b)
         = QuerySet.with_limit (Some b) (QuerySet.with_cache None self))
  /\ (forall a,
         QuerySetMethods.slice_query self (Some a) None
         = QuerySet.with_offset (Some a) (QuerySet.with_cache None self))
  /\ (forall a b step,
         QuerySetMethods.__getitem__ self (Slice a b step) c
         = QuerySetMethods.__getitem__ self (Slice a b None) c)
  /\ QuerySetMethods.__getitem__ self OtherKey c
     = (c, Raise (Exn TypeError "QuerySet indices must be integers or slices")).
Proof.
  split; [|repeat split; intros; unfold QuerySetMethods.slice_query;
             rewrite ?clone_fields; by destruct self].
  intros n sql params d cur Hsql Hrun Hrows.
  assert (Hqs : QuerySet.limit (QuerySet.offset self n) 1
                = QuerySet.with_limit (Some 1)
                    (QuerySet.with_offset (Some n) (QuerySet.with_cache None self)))
    by by destruct self.
  unfold QuerySetMethods.__getitem__.
  rewrite Hqs, run_cm_bind.
  rewrite (all_runs_statement
             (QuerySet.with_limit (Some 1)
                (QuerySet.with_offset (Some n) (QuerySet.with_cache None self)))
             c sql params d cur eq_refl Hsql Hrun), Hrows.
  done.
Qed.
End terminal_facts.


Lemma indexing_sets_paging_witness :
  QuerySetMethods.__getitem__ (QuerySet.limit (QuerySet.__init__ Demo.Person) 10)
    (Index 5) (Demo.connect [])
  = (Conn (Demo.Db [] []) [EvExecute "SELECT * FROM persons LIMIT 1 OFFSET 5" []],
     Raise (Exn IndexError "QuerySet index out of range")).
Proof.
  assert (Hrun : engine_execute (conn_db (Demo.connect []))
                   "SELECT * FROM persons LIMIT 1 OFFSET 5" []
                 = inr (Demo.Db [] [], Cursor [] (-1)))
    by (vm_compute; reflexivity).
  assert (Hsql : QuerySet._build_sql
                   (QuerySet.with_limit (Some 1)
                      (QuerySet.with_offset (Some 5)
                         (QuerySet.with_cache None
                            (QuerySet.limit (QuerySet.__init__ Demo.Person) 10))))
                 = Ok ("SELECT * FROM persons LIMIT 1 OFFSET 5", []))
    by (vm_compute; reflexivity).
  destruct (indexing_sets_paging
              (QuerySet.limit (QuerySet.__init__ Demo.Person) 10) (Demo.connect []))
    as [Hindex _].
  apply (Hindex 5 _ _ _ _ Hsql Hrun). reflexivity.
Defined.

(* ===================================================================== *)
(** * Applying a migration                                                *)
(* ===================================================================== *)

Section apply_facts.
Context {DB : Type} `{Engine DB}.

Lemma operations_apply_trace (ops : list Operation) (c : Connection DB) :
  match for_all operation_apply ops c with
  | (c', Ok _) => conn_trace c' = conn_trace c ++ apply_events ops
  | (c', Raise e) =>
      exists k, (k < length ops)%nat
                /\ exn_cls e = ORMConnectionError
                /\ conn_trace c' = conn_trace c ++ apply_events (take (S k) ops)
  end.
Proof.
  revert c. induction ops as [|op ops IH]; intros c.
  - simpl. by rewrite app_nil_r.
  - cbn [for_all]. rewrite run_cm_bind. unfold operation_apply at 1.
    rewrite run_cm_bind.
    destruct (execute (apply_sql op) [] c) as [c1 r1] eqn:Hex.
    execute_inv_in Hex; destruct Hex as (Htrace & [(cur & -> & _)|(msg & -> & _)]).
    + cbn [mret CM_ret]. specialize (IH c1).
      destruct (for_all operation_apply ops c1) as [c2 [[]|e]].
      * rewrite IH, Htrace, <- app_assoc. done.
      * destruct IH as (k & Hk & He & Ht). exists (S k).
        split; [simpl; lia|]. split; [done|].
        rewrite Ht, Htrace, <- app_assoc. done.
    + exists 0%nat. split; [simpl; lia|]. split; [done|].
      rewrite Htrace. reflexivity.
Qed.

(** [Migration.apply] sends the statements of the operations in order and
    then commits.  When the engine refuses one, the connection error
    passes through, the operations after it are not sent and nothing is
    committed; the statements before it stay sent. *)
Theorem migration_apply_stops_at_first_refusal (m : Migration) (c : Connection DB) :
  match migration_apply m c with
  | (c', Ok _) =>
      conn_trace c' = conn_trace c ++ apply_events (operations m) ++ [EvCommit]
  | (c', Raise e) =>
      exists k, (k < length (operations m))%nat
                /\ exn_cls e = ORMConnectionError
                /\ conn_trace c'
                   = conn_trace c ++ apply_events (take (S k) (operations m))
  end.
Proof.
  unfold migration_apply. rewrite run_cm_bind.
  pose proof (operations_apply_trace (operations m) c) as Hops.
  destruct (for_all operation_apply (operations m) c) as [c1 [[]|e]]; [|done].
  unfold commit. simpl. by rewrite Hops, <- app_assoc.
Qed.
End apply_facts.

Example demo_migration_apply :
  conn_trace
    (migration_apply
       (Build_Migration "0003"
          [CreateTable "posts" [("id", "INTEGER PRIMARY KEY"); ("title", "TEXT")];
           DropTable "drafts"])
       (Demo.connect [])).1
  = [EvExecute "CREATE TABLE IF NOT EXISTS posts (id INTEGER PRIMARY KEY, title TEXT)" [];
     EvExecute "DROP TABLE IF EXISTS drafts" [];
     EvCommit].
Proof. vm_compute. reflexivity. Qed.

(* ===================================================================== *)
(** * A failing migrate                                                   *)
(* ===================================================================== *)

Section migrate_failure.
Context {DB : Type} `{Ledger DB} `{FileSystem}.
Context (Hkeep : operations_keep_ledger).

Lemma mark_migration_applied_failure (m : string) (c c' : Connection DB) e :
  mark_migration_applied m c = (c', Raise e) ->
  ledger_names (conn_db c') = ledger_names (conn_db c).
Proof.
  unfold mark_migration_applied. rewrite run_cm_bind.
  destruct (execute insert_applied_sql [VStr m] c) as [c1 r1] eqn:Hex.
  execute_inv_in Hex; destruct Hex as (_ & [(cur & -> & Hrun)|(msg & -> & Hdb)]); [done|].
  intros [= <- _]. by rewrite Hdb.
Qed.

Lemma apply_pending_failure (self : MigrationManager) (m : string)
    (c c' : Connection DB) e :
  apply_pending self m c = (c', Raise e) ->
  ledger_names (conn_db c') = ledger_names (conn_db c).
Proof.
  unfold apply_pending. rewrite run_cm_bind. unfold lift at 1.
  destruct (load_operations _) as [ops|e0] eqn:Hload; [|by intros [= <- _]].
  unfold try_except. rewrite run_cm_bind.
  unfold migration_apply at 1. rewrite run_cm_bind. simpl operations.
  destruct (for_all operation_apply ops c) as [c1 r1] eqn:Hops.
  assert (Hl1 : ledger_names (conn_db c1) = ledger_names (conn_db c)).
  { eapply operations_apply_ledger; [|exact Hops].
    intros op d d' cur Hin. by eapply Hkeep. }
  destruct r1 as [[]|e1]; [|by intros [= <- _]].
  unfold commit at 1. cbv beta iota.
  destruct (mark_migration_applied m _) as [c2 [[]|e2]] eqn:Hmark; [done|].
  intros [= <- _]. apply mark_migration_applied_failure in Hmark.
  simpl in Hmark. by rewrite Hmark, ledger_commit.
Qed.

Lemma apply_all_pending_prefix (self : MigrationManager) (pending : list string)
    (c c' : Connection DB) r :
  for_all (apply_pending self) pending c = (c', r) ->
  exists recorded rest,
    pending = recorded ++ rest
    /\ ledger_names (conn_db c') = ledger_names (conn_db c) ++ recorded
    /\ (r = Ok tt -> rest = [])
    /\ (forall e, r = Raise e ->
        exists m rest' c0,
          rest = m :: rest'
          /\ for_all (apply_pending self) recorded c = (c0, Ok tt)
          /\ ledger_names (conn_db c0) = ledger_names (conn_db c) ++ recorded
          /\ apply_pending self m c0 = (c', Raise e)).
Proof.
  revert c. induction pending as [|m pending IH]; intros c.
  - intros [= <- <-]. exists [], [].
    repeat split; rewrite ?app_nil_r; try done; intros e He; discriminate He.
  - cbn [for_all]. rewrite run_cm_bind.
    destruct (apply_pending self m c) as [c1 [[]|e]] eqn:Hm.
    + intros Hrest. apply IH in Hrest as (recorded & rest & -> & Hl & Hok & Hfail).
      pose proof (apply_pending_ledger Hkeep self m c c1 Hm) as Hl1.
      exists (m :: recorded), rest. rewrite Hl, Hl1, <- app_assoc.
      split; [done|]. split; [done|]. split; [done|].
      intros e He. destruct (Hfail e He) as (m' & rest' & c0 & -> & Hrun & Hl0 & Hm').
      exists m', rest', c0. split; [done|]. split.
      * cbn [for_all]. by rewrite run_cm_bind, Hm.
      * split; [|done]. by rewrite Hl0, Hl1, <- app_assoc.
    + intros [= <- <-]. pose proof (apply_pending_failure self m c c1 e Hm) as Hl1.
      exists [], (m :: pending). rewrite Hl1, app_nil_r.
      split; [done|]. split; [done|]. split; [done|].
      intros e' [= <-]. exists m, pending, c.
      split; [done|]. split; [done|]. split; [done|done].
Qed.

End migrate_failure.

Lemma broken_operations_keep_ledger :
  @operations_keep_ledger Demo.db Demo.engine demo_ledger Demo.broken_directory.
Proof.
  intros path ops op d d' cur. simpl.
  destruct (String.eqb path "migrations/0001_init.py").
  { intros [= <-] [<-|[]]. simpl. unfold Demo.run. simpl. by intros [= <- _]. }
  destruct (String.eqb path "migrations/0003_more.py"); [|done].
  intros [= <-] [<-|[]]. simpl. unfold Demo.run. simpl. by intros [= <- _].
Qed.

Example broken_migrate_run :
  @migrate Demo.db Demo.engine Demo.broken_directory Demo.manager (Demo.connect [])
  = (Conn (Demo.Db [] ["0001_init"])
       [EvExecute create_migrations_table_sql []; EvCommit;
        EvExecute select_applied_sql [];
        EvExecute "CREATE TABLE IF NOT EXISTS authors (id INTEGER PRIMARY KEY, name VARCHAR(100))" [];
        EvCommit;
        EvExecute insert_applied_sql [VStr "0001_init"]; EvCommit],
     Raise (Exn OtherError "invalid syntax")).
Proof. vm_compute. reflexivity. Qed.


(* ===================================================================== *)
(** * rollback                                                            *)
(* ===================================================================== *)

(** [applied[-steps:]], case by case. *)
Lemma slice_from_cases {A} (applied : list A) (steps : Z) :
  (0 < steps ->
   slice_from (- steps) applied = drop (length applied - Z.to_nat steps) applied)
  /\ (Z.of_nat (length applied) <= steps -> slice_from (- steps) applied = applied)
  /\ slice_from (- 0) applied = applied
  /\ (steps < 0 -> slice_from (- steps) applied = drop (Z.to_nat (- steps)) applied).
Proof.
  unfold slice_from. split; [|split; [|split]].
  - intros Hs. destruct (Z.ltb_spec (- steps) 0) as [_|?]; [|lia]. f_equal. lia.
  - intros Hs. destruct (Z.ltb_spec (- steps) 0) as [_|?];
      replace (Z.to_nat _) with 0%nat by lia; done.
  - change (- 0 <? 0) with false. cbv iota.
    replace (Z.to_nat _) with 0%nat by lia. done.
  - intros Hs. destruct (Z.ltb_spec (- steps) 0) as [?|_]; [lia|].
    destruct (Z.min_spec (- steps) (Z.of_nat (length applied))) as [[_ ->]|[Hle ->]].
    + done.
    + rewrite Nat2Z.id. rewrite !drop_ge; [done|lia|lia].
Qed.

Section rollback_facts.
Context `{Formatter} {DB : Type} `{Engine DB} `{FileSystem}.

Lemma rollback_runs_slice (self : MigrationManager)
    (c c1 : Connection DB) (applied : list value) (steps : Z) :
  get_applied_migrations c = (c1, Ok applied) ->
  rollback self steps c
  = for_all (rollback_one self) (rev (slice_from (- steps) applied)) c1.
Proof.
  intros Hget. unfold rollback. rewrite run_cm_bind, Hget.
  destruct applied as [|a applied']; [|done].
  unfold slice_from. by rewrite drop_nil.
Qed.

(** Which migrations [rollback(steps)] undoes, and in which order: for a
    positive [steps] the last [steps] names of the ledger, newest first;
    a negative [steps] is not refused, it undoes every migration but the
    first [-steps]. *)
Theorem rollback_selection (self : MigrationManager)
    (c c1 : Connection DB) (applied : list value) (steps : Z) :
  get_applied_migrations c = (c1, Ok applied) ->
  (0 < steps ->
   rollback self steps c
   = for_all (rollback_one self)
       (rev (drop (length applied - Z.to_nat steps) applied)) c1)
  /\ (steps < 0 ->
      rollback self steps c
      = for_all (rollback_one self) (rev (drop (Z.to_nat (- steps)) applied)) c1).
Proof.
  intros Hget. rewrite (rollback_runs_slice self c c1 applied steps Hget).
  destruct (slice_from_cases applied steps) as (Hpos & _ & _ & Hneg).
  split; intros Hs.
  - by rewrite (Hpos Hs).
  - by rewrite (Hneg Hs).
Qed.

(** [rollback(0)] does not mean "roll back nothing": it rolls back every
    applied migration, newest first, exactly as a [steps] at least the
    number applied does.  With an empty ledger any [rollback] only reads
    the ledger. *)
Theorem rollback_zero_takes_everything (self : MigrationManager)
    (c c1 : Connection DB) (applied : list value) :
  get_applied_migrations c = (c1, Ok applied) ->
  rollback self 0 c = for_all (rollback_one self) (rev applied) c1
  /\ (forall steps, Z.of_nat (length applied) <= steps ->
                    rollback self steps c = rollback self 0 c)
  /\ (applied = [] -> forall steps, rollback self steps c = (c1, Ok tt)).
Proof.
  intros Hget.
  pose proof (fun steps => rollback_runs_slice self c c1 applied steps Hget) as Hroll.
  split; [|split].
  - rewrite Hroll. by rewrite (proj1 (proj2 (proj2 (slice_from_cases applied 0)))).
  - intros steps Hs. rewrite !Hroll.
    rewrite (proj1 (proj2 (slice_from_cases applied steps)) Hs).
    by rewrite (proj1 (proj2 (proj2 (slice_from_cases applied 0)))).
  - intros -> steps. rewrite Hroll. unfold slice_from. by rewrite drop_nil.
Qed.

(** Rolling back a migration whose last operation is a DropTable or an
    AddColumn fails with the migration error before anything is sent: the
    connection is as it was, and in particular the ledger row of the
    migration is not deleted. *)
Theorem rollback_stops_at_irreversible (self : MigrationManager)
    (migration_name : value) (ops : list Operation) (op : Operation)
    (c : Connection DB) :
  load_operations
    (path_join (migrations_dir self) (name_text migration_name +:+ ".py"))
  = Ok (ops ++ [op]) ->
  reversible op = false ->
  exists msg,
    rollback_one self migration_name c
    = (c, Raise (Exn MigrationError ("Rollback failed: " +:+ msg))).
Proof.
  intros Hload Hop. unfold rollback_one. rewrite run_cm_bind. unfold lift at 1.
  rewrite Hload. cbv beta iota. unfold try_except. rewrite run_cm_bind.
  destruct (migration_reverse_stops
              (Build_Migration (name_text migration_name) (ops ++ [op]))
              ops op c eq_refl Hop) as [msg ->].
  by exists msg.
Qed.
End rollback_facts.

Definition migrated : Connection Demo.db :=
  Conn (Demo.Db [] ["0001_init"; "0002_views"]) [].

Lemma rollback_selection_witness :
  rollback Demo.manager 1 migrated
  = for_all (rollback_one Demo.manager) [VStr "0002_views"]
      (Conn (Demo.Db [] ["0001_init"; "0002_views"]) [EvExecute select_applied_sql []])
  /\ rollback Demo.manager (-1) migrated
     = for_all (rollback_one Demo.manager) [VStr "0002_views"]
         (Conn (Demo.Db [] ["0001_init"; "0002_views"]) [EvExecute select_applied_sql []]).
Proof.
  assert (Hget : get_applied_migrations migrated
                 = (Conn (Demo.Db [] ["0001_init"; "0002_views"])
                      [EvExecute select_applied_sql []],
                    Ok [VStr "0001_init"; VStr "0002_views"]))
    by (vm_compute; reflexivity).
  destruct (rollback_selection Demo.manager _ _ _ 1 Hget) as (Hpos & _).
  destruct (rollback_selection Demo.manager _ _ _ (-1) Hget) as (_ & Hneg).
  split; [exact (Hpos ltac:(lia))|exact (Hneg ltac:(lia))].
Defined.

Lemma rollback_zero_takes_everything_witness :
  rollback Demo.manager 0 migrated = rollback Demo.manager 2 migrated
  /\ rollback Demo.manager 0 (Demo.connect [])
     = (Conn (Demo.Db [] []) [EvExecute select_applied_sql []], Ok tt).
Proof.
  assert (Hget : get_applied_migrations migrated
                 = (Conn (Demo.Db [] ["0001_init"; "0002_views"])
                      [EvExecute select_applied_sql []],
                    Ok [VStr "0001_init"; VStr "0002_views"]))
    by (vm_compute; reflexivity).
  assert (Hnone : get_applied_migrations (Demo.connect [])
                  = (Conn (Demo.Db [] []) [EvExecute select_applied_sql []], Ok []))
    by (vm_compute; reflexivity).
  destruct (rollback_zero_takes_everything Demo.manager _ _ _ Hget) as (_ & Hall & _).
  destruct (rollback_zero_takes_everything Demo.manager _ _ _ Hnone) as (_ & _ & Hempty).
  split.
  - symmetry. apply Hall. simpl. lia.
  - apply Hempty. reflexivity.
Defined.

Lemma rollback_stops_at_irreversible_witness :
  exists msg,
    rollback_one Demo.manager (VStr "0002_views") migrated
    = (migrated, Raise (Exn MigrationError ("Rollback failed: " +:+ msg))).
Proof.
  assert (Hload : load_operations
                    (path_join (migrations_dir Demo.manager)
                       (name_text (VStr "0002_views") +:+ ".py"))
                  = Ok ([] ++ [AddColumn "authors" "views" "INTEGER"]))
    by (vm_compute; reflexivity).
  exact (rollback_stops_at_irreversible Demo.manager (VStr "0002_views") []
           (AddColumn "authors" "views" "INTEGER") migrated Hload eq_refl).
Defined.

Example demo_rollback_zero :
  rollback Demo.manager 0 migrated
  = (Conn (Demo.Db [] ["0001_init"; "0002_views"]) [EvExecute select_applied_sql []],
     Raise (Exn MigrationError
              "Rollback failed: Cannot reverse AddColumn - SQLite limitation")).
Proof. vm_compute. reflexivity. Qed.

(* ===================================================================== *)
(** * parse_lookup                                                        *)
(* ===================================================================== *)

Lemma prefix_append (p s : string) :
  String.prefix p s = true -> exists r, s = p +:+ r.
Proof.
  revert s. induction p as [|a p IH]; intros s.
  - intros _. by exists s.
  - destruct s as [|b s]; [done|]. simpl.
    destruct (ascii_dec a b) as [->|]; [|done].
    intros [r ->]%IH. by exists r.
Qed.

Lemma length_append (s t : string) :
  String.length (s +:+ t) = (String.length s + String.length t)%nat.
Proof. induction s as [|a s IH]; [done|]. rewrite append_cons. simpl. by rewrite IH. Qed.

Lemma rev_app_append (cur s : string) :
  String.rev_app cur s = String.rev cur +:+ s.
Proof.
  unfold String.rev. revert s. induction cur as [|c cur IH]; intros s; [done|].
  simpl. rewrite (IH (String c s)), (IH (String c EmptyString)).
  by rewrite append_assoc.
Qed.

Section split_join.
Variable c0 : ascii.
Variable sep' : string.
Let sep : string := String c0 sep'.

Lemma split_go_nonempty (s : string) (skip : nat) (cur : string) :
  split_go sep s skip cur <> [].
Proof.
  revert skip cur. induction s as [|c s IH]; intros skip cur; [discriminate|].
  cbn [split_go]. destruct skip; [|apply IH].
  destruct (String.prefix sep (String c s)); [discriminate|apply IH].
Qed.

Lemma split_go_skip (a b cur : string) :
  split_go sep (a +:+ b) (String.length a) cur = split_go sep b 0 cur.
Proof.
  induction a as [|x a IH]; [done|].
  rewrite append_cons. cbn [String.length split_go]. apply IH.
Qed.

Lemma join_cons (x : string) (l : list string) :
  l <> [] -> join sep (x :: l) = x +:+ sep +:+ join sep l.
Proof. by destruct l. Qed.

Lemma join_split_go (n : nat) :
  forall s cur, (String.length s <= n)%nat ->
                join sep (split_go sep s 0 cur) = String.rev_app cur s.
Proof.
  induction n as [|n IH]; intros s cur Hn.
  - destruct s; [|simpl in Hn; lia]. reflexivity.
  - destruct s as [|c s]; [reflexivity|].
    cbn [split_go]. destruct (String.prefix sep (String c s)) eqn:Hp.
    + apply prefix_append in Hp as [r Hr].
      unfold sep in Hr. rewrite append_cons in Hr. injection Hr as -> ->.
      replace (String.length sep - 1)%nat with (String.length sep')
        by (unfold sep; simpl; lia).
      rewrite split_go_skip, join_cons by apply split_go_nonempty.
      rewrite (IH r EmptyString).
      * rewrite (rev_app_append cur). unfold sep. by rewrite !append_cons.
      * simpl in Hn. rewrite length_append in Hn. lia.
    + rewrite (IH s (String c cur)); [done|]. simpl in Hn. lia.
Qed.

Lemma join_split (s : string) : join sep (split sep s) = s.
Proof. unfold split. by rewrite (join_split_go (String.length s)). Qed.

Lemma split_go_two (s cur : string) :
  contains sep s = true -> (2 <= length (split_go sep s 0 cur))%nat.
Proof.
  revert cur. induction s as [|c s IH]; intros cur.
  - done.
  - cbn [contains split_go].
    destruct (String.prefix sep (String c s)).
    + intros _. pose proof (split_go_nonempty s (String.length sep - 1) EmptyString).
      destruct (split_go sep s _ _); [done|simpl; lia].
    + apply IH.
Qed.

Lemma join_last (l : list string) :
  (2 <= length l)%nat ->
  join sep l = join sep (removelast l) +:+ sep +:+ List.last l EmptyString.
Proof.
  induction l as [|x l IH]; [simpl; lia|].
  destruct l as [|y l]; [simpl; lia|]. intros _.
  destruct l as [|z l].
  - reflexivity.
  - rewrite join_cons by done.
    rewrite IH by (simpl; lia).
    change (removelast (x :: y :: z :: l)) with (x :: removelast (y :: z :: l)).
    change (List.last (x :: y :: z :: l) EmptyString)
      with (List.last (y :: z :: l) EmptyString).
    rewrite join_cons.
    + by rewrite !append_assoc.
    + by destruct l.
Qed.
End split_join.


(* ===================================================================== *)
(** * Operators                                                           *)
(* ===================================================================== *)

Ltac unknown_operator op Hop :=
  repeat match goal with
         | |- context [String.eqb op ?lit] =>
             destruct (String.eqb_spec op lit) as [->|_];
             [exfalso; apply Hop; simpl; tauto|]
         end.

(** An operator that is not one of the fifteen known ones is not an
    error: the lookup is compared with [=], exactly as [exact].  And the
    case-insensitive text operators produce the same condition and
    parameter as their case-sensitive counterparts. *)
Theorem unknown_operator_is_equality `{Formatter} :
  (forall op field v,
      ~ In op known_operators ->
      get_operator_sql op = "="
      /\ filter_clause (field, op, v) = Ok (field +:+ " = ?", [v])
      /\ filter_clause (field, op, v) = filter_clause (field, "exact", v)
      /\ exclude_clause (field, op, v) = Ok ("NOT (" +:+ field +:+ " = ?)", [v]))
  /\ (forall field v,
         filter_clause (field, "icontains", v) = filter_clause (field, "contains", v)
         /\ filter_clause (field, "istartswith", v)
            = filter_clause (field, "startswith", v)
         /\ filter_clause (field, "iendswith", v)
            = filter_clause (field, "endswith", v)
         /\ exclude_clause (field, "icontains", v)
            = exclude_clause (field, "contains", v)).
Proof.
  split; [|by repeat split].
  intros op field v Hop.
  assert (Hsql : get_operator_sql op = "=").
  { unfold get_operator_sql. unknown_operator op Hop. done. }
  assert (Hfmt : format_value_for_operator v op = v).
  { unfold format_value_for_operator. unknown_operator op Hop. done. }
  assert (Hf : filter_clause (field, op, v) = Ok (field +:+ " = ?", [v])).
  { unfold filter_clause. rewrite Hsql, Hfmt. unknown_operator op Hop. done. }
  assert (He : exclude_clause (field, op, v) = Ok ("NOT (" +:+ field +:+ " = ?)", [v])).
  { unfold exclude_clause. rewrite Hsql, Hfmt. unknown_operator op Hop. done. }
  by rewrite Hf, He.
Qed.

Lemma unknown_operator_is_equality_witness :
  filter_clause ("age", "greater", VInt 18) = Ok ("age = ?", [VInt 18]).
Proof.
  refine (proj1 (proj2 (proj1 unknown_operator_is_equality "greater" "age" (VInt 18) _))).
  simpl. intros Hin.
  repeat (destruct Hin as [Hin|Hin]; [discriminate Hin|]). exact Hin.
Defined.

(* ===================================================================== *)
(** * Change detection                                                    *)
(* ===================================================================== *)

Section detect_facts.
Context `{FieldSQL} {DB : Type} `{Engine DB}.

Lemma new_columns_add_only (m : Model) (cols : list value) (ops : list Operation) :
  new_columns m cols = Ok ops ->
  Forall (fun op => exists col def, op = AddColumn (_table_name m) col def) ops.
Proof.
  unfold new_columns.
  assert (Hgen : forall fields acc ops,
             Forall (fun op => exists col def, op = AddColumn (_table_name m) col def) acc ->
             for_each
               (fun ops (f : string * Field) =>
                  let col_name := get_db_column f.2 in
                  if negb (in_applied cols col_name) then
                    col_def ← after_space (get_sql_definition f.2);
                    Ok (ops ++ [AddColumn (_table_name m) col_name col_def])
                  else Ok ops)
               acc fields = Ok ops ->
             Forall (fun op => exists col def, op = AddColumn (_table_name m) col def) ops).
  { induction fields as [|f fields IH]; intros acc ops' Hacc.
    - by intros [= <-].
    - cbn [for_each]. cbv zeta.
      destruct (negb (in_applied cols (get_db_column f.2))).
      + destruct (after_space (get_sql_definition f.2)) as [def|e]; [|done].
        simpl. apply IH. apply Forall_app. split; [done|].
        constructor; [by eexists _, _|constructor].
      + simpl. by apply IH. }
  apply Hgen. constructor.
Qed.

Lemma detect_model_grows (tables : list value) (m : Model) (c : Connection DB) :
  match detect_model tables m c with
  | (c', r) =>
      (exists evs, conn_trace c' = conn_trace c ++ evs /\ Forall reads_only evs)
      /\ match r with
         | Ok ops => Forall (grows_declared [m]) ops
         | Raise _ => True
         end
  end.
Proof.
  unfold detect_model.
  destruct (negb (in_applied tables (_table_name m))).
  - rewrite run_cm_bind. unfold lift.
    destruct (new_table_fields m) as [fields|e].
    + split; [exists []; by rewrite app_nil_r|].
      constructor; [|constructor]. exists m. split; [by left|done].
    + split; [exists []; by rewrite app_nil_r|done].
  - rewrite run_cm_bind.
    destruct (execute _ [] c) as [c1 r1] eqn:Hex.
    execute_inv_in Hex; destruct Hex as (Htrace & Hr).
    assert (Hread : Forall reads_only
                      [EvExecute ("PRAGMA table_info(" +:+ _table_name m +:+ ")") []]).
    { constructor; [|constructor]. by right. }
    destruct r1 as [cur|e]; [|by split; [eexists|]].
    rewrite run_cm_bind. unfold lift.
    destruct (mapM row1 (fetchall cur)) as [cols|e]; [|by split; [eexists|]].
    split; [by eexists|].
    destruct (new_columns m cols) as [ops|e] eqn:Hops; [|done].
    apply new_columns_add_only in Hops.
    eapply Forall_impl; [exact Hops|].
    intros op (col & def & ->). exists m. split; [by left|done].
Qed.

Lemma grows_declared_mono (models models' : list Model) (op : Operation) :
  (forall m, In m models -> In m models') ->
  grows_declared models op -> grows_declared models' op.
Proof.
  intros Hsub. destruct op as [t ?|?|t ? ?]; simpl; try done;
    intros (m & Hm & ->); exists m; auto.
Qed.

Lemma detect_models_grow (tables : list value) (all_models : list Model)
    (models : list Model) (acc : list Operation) (c : Connection DB) :
  (forall m, In m models -> In m all_models) ->
  Forall (grows_declared all_models) acc ->
  match detect_models tables acc models c with
  | (c', r) =>
      (exists evs, conn_trace c' = conn_trace c ++ evs /\ Forall reads_only evs)
      /\ match r with
         | Ok ops => Forall (grows_declared all_models) ops
         | Raise _ => True
         end
  end.
Proof.
  revert acc c. induction models as [|m models IH]; intros acc c Hsub Hacc.
  - simpl. split; [exists []; by rewrite app_nil_r|done].
  - cbn [detect_models]. rewrite run_cm_bind.
    pose proof (detect_model_grows tables m c) as Hm.
    destruct (detect_model tables m c) as [c1 [ops|e]].
    + destruct Hm as [(evs1 & Ht1 & Hr1) Hops].
      specialize (IH (acc ++ ops) c1).
      destruct (detect_models tables (acc ++ ops) models c1) as [c2 r2].
      destruct IH as [(evs2 & Ht2 & Hr2) Hres].
      * intros m' Hm'. apply Hsub. by right.
      * apply Forall_app. split; [done|].
        eapply Forall_impl; [exact Hops|]. intros op.
        apply grows_declared_mono. intros m' [<-|[]]. apply Hsub. by left.
      * split; [|done]. exists (evs1 ++ evs2).
        rewrite Ht2, Ht1, <- app_assoc. split; [done|]. by apply Forall_app.
    + destruct Hm as [Hev _]. by split.
Qed.

(** [auto_detect_changes] only reads: every statement it sends is a
    SELECT or a PRAGMA.  And what it returns only grows the schema: each
    operation is a CreateTable or an AddColumn on the table of one of the
    models given, never a DropTable. *)
Theorem auto_detect_only_grows (models : list Model) (c : Connection DB) :
  match auto_detect_changes models c with
  | (c', r) =>
      (exists evs, conn_trace c' = conn_trace c ++ evs /\ Forall reads_only evs)
      /\ match r with
         | Ok ops => Forall (grows_declared models) ops
         | Raise _ => True
         end
  end.
Proof.
  unfold auto_detect_changes. rewrite run_cm_bind.
  destruct (execute select_tables_sql [] c) as [c1 r1] eqn:Hex.
  execute_inv_in Hex; destruct Hex as (Htrace & Hr).
  assert (Hread : Forall reads_only [EvExecute select_tables_sql []]).
  { constructor; [|constructor]. by left. }
  destruct r1 as [cur|e]; [|by split; [eexists|]].
  rewrite run_cm_bind. unfold lift.
  destruct (mapM row0 (fetchall cur)) as [tables|e]; [|by split; [eexists|]].
  pose proof (detect_models_grow tables models models [] c1 (fun _ Hm => Hm)
                (Forall_nil_2 _)) as Hd.
  destruct (detect_models tables [] models c1) as [c2 r2].
  destruct Hd as [(evs & Ht & Hre) Hops]. split; [|done].
  exists (EvExecute select_tables_sql [] :: evs).
  rewrite Ht, Htrace, <- app_assoc. split; [done|].
  constructor; [by left|done].
Qed.
End detect_facts.

Example demo_auto_detect :
  auto_detect_changes [Demo.Person] (Demo.connect [])
  = (Conn (Demo.Db [] []) [EvExecute select_tables_sql []],
     Ok [CreateTable "persons"
           [("id", "INTEGER PRIMARY KEY"); ("name", "VARCHAR(100) NOT NULL");
            ("age", "INTEGER")]]).
Proof. vm_compute. reflexivity. Qed.

(* ===================================================================== *)
(** * values_list, and deleting through the manager                       *)
(* ===================================================================== *)

Lemma mapM_Raise_Exists {A B} (f : A -> result B) (l : list A) (e : exn) :
  mapM f l = Raise e -> Exists (fun x => f x = Raise e) l.
Proof.
  induction l as [|x l IH]; [done|]. rewrite mapM_cons.
  destruct (f x) as [y|e'] eqn:Hx; simpl.
  - destruct (mapM f l) as [k|e'']; [done|]. simpl.
    intros [= <-]. right. by apply IH.
  - intros [= <-]. by left.
Qed.

Lemma row_item_Ok (f : string) (r : row) (v : value) :
  QuerySetMethods.row_item f r = Ok v <-> row_lookup f r = Some v.
Proof.
  unfold QuerySetMethods.row_item.
  destruct (row_lookup f r); split; intros Hv; by simplify_eq.
Qed.

Lemma row_item_Raise (f : string) (r : row) (e : exn) :
  QuerySetMethods.row_item f r = Raise e ->
  exn_cls e = IndexError /\ row_lookup f r = None.
Proof.
  unfold QuerySetMethods.row_item. destruct (row_lookup f r); [done|].
  by intros [= <-].
Qed.

Section values_list_facts.
Context `{Formatter} {DB : Type} `{Engine DB}.

(** [values_list] runs the statement of the builder, through its cache,
    and fails as that does.  Otherwise it takes the named columns out of
    each row, a name matching a column as [sqlite3.Row] has it: bare
    values for [flat=True] with exactly one field, tuples otherwise;
    [flat=True] with any other number of fields is not refused, it gives
    the tuples.  From there it can only fail with an [IndexError], and
    only when some row has no column for one of the names. *)
Theorem values_list_shapes (self : QuerySet.t) (fields : list string)
    (c : Connection DB) :
  match QuerySet._execute self c with
  | (c1, Raise e) =>
      forall flat, QuerySetMethods.values_list self fields flat c = (c1, Raise e)
  | (c1, Ok (rows, self')) =>
      (forall f,
          match QuerySetMethods.values_list self [f] true c with
          | (c', Ok (vals, q)) =>
              c' = c1 /\ q = self'
              /\ Forall2 (fun r v => row_lookup f r = Some v) rows vals
          | (c', Raise e) =>
              c' = c1 /\ exn_cls e = IndexError
              /\ Exists (fun r => row_lookup f r = None) rows
          end)
      /\ (length fields <> 1%nat ->
          QuerySetMethods.values_list self fields true c
          = QuerySetMethods.values_list self fields false c)
      /\ match QuerySetMethods.values_list self fields false c with
         | (c', Ok (vals, q)) =>
             c' = c1 /\ q = self'
             /\ Forall2 (fun r v =>
                           exists items,
                             v = VTuple items
                             /\ Forall2 (fun f x => row_lookup f r = Some x)
                                  fields items)
                  rows vals
         | (c', Raise e) =>
             c' = c1 /\ exn_cls e = IndexError
             /\ Exists (fun r => Exists (fun f => row_lookup f r = None) fields)
                  rows
         end
  end.
Proof.
  destruct (QuerySet._execute self c) as [c1 [[rows self']|e]] eqn:Hex.
  2: { intros flat. unfold QuerySetMethods.values_list.
       by rewrite run_cm_bind, Hex. }
  unfold QuerySetMethods.values_list. split; [|split].
  - intros f. rewrite run_cm_bind, Hex. cbv beta iota.
    rewrite run_cm_bind. unfold lift. simpl.
    destruct (mapM (fun r => QuerySetMethods.row_item f r) rows) as [vals|e] eqn:Hm.
    + split; [done|]. split; [done|].
      apply mapM_Ok_Forall2 in Hm. eapply Forall2_impl; [exact Hm|].
      intros r v. apply row_item_Ok.
    + apply mapM_Raise_Exists in Hm.
      assert (Hcls : exn_cls e = IndexError).
      { apply Exists_exists in Hm as (r & _ & Hr). by apply row_item_Raise in Hr as [? ?]. }
      split; [done|]. split; [done|].
      eapply Exists_impl; [exact Hm|]. intros r Hr. by apply row_item_Raise in Hr as [? ?].
  - intros Hlen. destruct (Nat.eqb_spec (length fields) 1) as [?|_]; [done|].
    done.
  - rewrite run_cm_bind, Hex. cbv beta iota.
    rewrite run_cm_bind. unfold lift. simpl.
    destruct (mapM (fun r => QuerySetMethods.row_tuple fields r) rows) as [vals|e] eqn:Hm.
    + split; [done|]. split; [done|].
      apply mapM_Ok_Forall2 in Hm. eapply Forall2_impl; [exact Hm|].
      intros r v. unfold QuerySetMethods.row_tuple.
      destruct (mapM (fun f => QuerySetMethods.row_item f r) fields) as [items|e] eqn:Hi; [|done].
      intros [= <-]. exists items. split; [done|].
      apply mapM_Ok_Forall2 in Hi. eapply Forall2_impl; [exact Hi|].
      intros f x. apply row_item_Ok.
    + apply mapM_Raise_Exists in Hm.
      assert (Hrow : forall r, QuerySetMethods.row_tuple fields r = Raise e ->
                               exn_cls e = IndexError
                               /\ Exists (fun f => row_lookup f r = None) fields).
      { intros r. unfold QuerySetMethods.row_tuple.
        destruct (mapM (fun f => QuerySetMethods.row_item f r) fields) as [items|e'] eqn:Hi; [done|].
        intros [= ->]. apply mapM_Raise_Exists in Hi. split.
        - apply Exists_exists in Hi as (f & _ & Hf). by apply row_item_Raise in Hf as [? ?].
        - eapply Exists_impl; [exact Hi|]. intros f Hf. by apply row_item_Raise in Hf as [? ?]. }
      split; [done|]. split.
      * apply Exists_exists in Hm as (r & _ & Hr). by apply Hrow in Hr as [? ?].
      * eapply Exists_impl; [exact Hm|]. intros r Hr. by apply Hrow in Hr as [? ?].
Qed.

(** The error of [delete] tells the caller to use
    [Model.objects.all().delete()]; that call is refused with the very
    same error and sends nothing, as are [filter()] and [exclude()]
    without lookups. *)
Theorem delete_of_everything_is_refused (m : Model) (c : Connection DB) :
  let refused :=
    (c, Raise (Exn QueryError
                 "Cannot delete without filters (use Model.objects.all().delete())"))
  in
  QuerySet.delete (Manager.all m) c = refused
  /\ QuerySet.delete (Manager.filter m []) c = refused
  /\ QuerySet.delete (Manager.exclude m []) c = refused.
Proof.
  cbv zeta. unfold QuerySet.delete. rewrite !run_cm_bind. unfold lift.
  rewrite !where_clause_of_nothing by done. done.
Qed.
End values_list_facts.

Lemma values_list_shapes_witness :
  QuerySetMethods.values_list (QuerySet.__init__ Demo.Person) ["name"; "age"] true
    (Demo.connect Demo.three_persons)
  = QuerySetMethods.values_list (QuerySet.__init__ Demo.Person) ["name"; "age"] false
      (Demo.connect Demo.three_persons)
  /\ QuerySetMethods.values_list unbuildable_query ["name"] true
       (Demo.connect Demo.three_persons)
     = (Demo.connect Demo.three_persons,
        Raise (Exn TypeError "object of type 'int' has no len()")).
Proof.
  pose proof (values_list_shapes (QuerySet.__init__ Demo.Person) ["name"; "age"]
                (Demo.connect Demo.three_persons)) as Hrows.
  pose proof (values_list_shapes unbuildable_query ["name"]
                (Demo.connect Demo.three_persons)) as Hfail.
  split.
  - destruct (QuerySet._execute (QuerySet.__init__ Demo.Person)
                (Demo.connect Demo.three_persons)) as [c1 [[rows self']|e]] eqn:Hex;
      [|vm_compute in Hex; discriminate Hex].
    destruct Hrows as (_ & Hflat & _). apply Hflat. simpl. lia.
  - exact (Hfail true).
Defined.

Example demo_values_list :
  (QuerySetMethods.values_list (QuerySet.__init__ Demo.Person) ["NAME"] true
     (Demo.connect Demo.three_persons)).2
  = Ok ([VStr "Ann"; VStr "Bob"; VStr "Ann"],
        QuerySet.with_cache (Some Demo.three_persons) (QuerySet.__init__ Demo.Person)).
Proof. vm_compute. reflexivity. Qed.


(* ===================================================================== *)
(** * pluralize and escape_sql_identifier                                 *)
(* ===================================================================== *)

Lemma substring_append_r (x p : string) :
  String.substring (String.length x) (String.length p) (x +:+ p) = p.
Proof.
  induction x as [|a x IH]; [apply substring_all|].
  rewrite append_cons. exact IH.
Qed.

Lemma endswith_append (x p : string) : endswith p (x +:+ p) = true.
Proof.
  unfold endswith. rewrite length_append.
  destruct (Nat.leb_spec (String.length p) (String.length x + String.length p))
    as [_|?]; [|lia].
  replace (String.length x + String.length p - String.length p)%nat
    with (String.length x) by lia.
  rewrite substring_append_r. apply String.eqb_refl.
Qed.

Lemma length_substring_0 (n : nat) (s : string) :
  String.length (String.substring 0 n s) = Nat.min n (String.length s).
Proof.
  revert n. induction s as [|a s IH]; intros [|n]; simpl; try done.
  by rewrite IH.
Qed.

(** A pluralised word always ends in [s] and is longer than the word;
    but two different words can have the same plural, so two model
    classes can be given the same table name. *)
Theorem pluralize_ends_in_s (word : string) :
  endswith "s" (pluralize word) = true
  /\ (String.length word < String.length (pluralize word))%nat
  /\ exists a b, a <> b /\ pluralize a = pluralize b.
Proof.
  split; [|split].
  - unfold pluralize.
    destruct (endswith "y" word); [|destruct (endswith "s" word)].
    + change "ies" with ("ie" +:+ "s"). rewrite <- append_assoc.
      apply endswith_append.
    + change "es" with ("e" +:+ "s"). rewrite <- append_assoc.
      apply endswith_append.
    + apply endswith_append.
  - unfold pluralize.
    destruct (endswith "y" word) eqn:Hy; [|destruct (endswith "s" word)].
    + unfold drop_last. rewrite length_append, length_substring_0.
      destruct word as [|a w]; [done|]. simpl. lia.
    + rewrite length_append. simpl. lia.
    + rewrite length_append. simpl. lia.
  - by exists "y", "ie".
Qed.

Lemma read_quoted_escaped (s rest : string) :
  starts_with_quote rest = false ->
  read_quoted
    (replace_char quote (String quote (String quote EmptyString)) s
       +:+ String quote rest)
  = Some (s, rest).
Proof.
  intros Hrest. induction s as [|a s IH].
  - simpl. destruct rest as [|b rest]; [done|].
    simpl in Hrest. change (Ascii.eqb quote quote) with true. cbv iota.
    by rewrite Hrest.
  - cbn [replace_char]. destruct (Ascii.eqb_spec a quote) as [->|Ha].
    + rewrite !append_cons. change (EmptyString +:+ ?x) with x.
      cbn [read_quoted]. change (Ascii.eqb quote quote) with true. cbv iota.
      change (EmptyString +:+ replace_char quote
                (String quote (String quote EmptyString)) s)
        with (replace_char quote (String quote (String quote EmptyString)) s).
      by rewrite IH.
    + rewrite !append_cons.
      change (EmptyString +:+ replace_char quote
                (String quote (String quote EmptyString)) s)
        with (replace_char quote (String quote (String quote EmptyString)) s).
      cbn [read_quoted]. destruct (Ascii.eqb_spec a quote) as [?|_]; [done|].
      by rewrite IH.
Qed.

(** An escaped identifier reads back as the identifier, whatever it
    holds: SQL reads the whole of it as one quoted name and stops exactly
    at its end.  So escaping loses nothing, and no identifier can close
    the quotes early. *)
Theorem escape_sql_identifier_reads_back (identifier rest : string) :
  starts_with_quote rest = false ->
  read_identifier (escape_sql_identifier identifier +:+ rest)
  = Some (identifier, rest).
Proof.
  intros Hrest. unfold escape_sql_identifier, read_identifier.
  rewrite !append_cons. change (EmptyString +:+ ?x) with x.
  change (Ascii.eqb quote quote) with true. cbv iota.
  rewrite append_assoc, append_cons.
  change (EmptyString +:+ rest) with rest.
  by apply read_quoted_escaped.
Qed.

Lemma escape_sql_identifier_reads_back_witness :
  read_identifier
    (escape_sql_identifier (String "a" (String quote (String "b" EmptyString)))
       +:+ " FROM t")
  = Some (String "a" (String quote (String "b" EmptyString)), " FROM t").
Proof. apply escape_sql_identifier_reads_back. reflexivity. Defined.

(* ===================================================================== *)
(** * Column definitions                                                  *)
(* ===================================================================== *)

Lemma after_space_append (a d : string) :
  contains " " a = false -> after_space (a +:+ " " +:+ d) = Ok d.
Proof.
  induction a as [|c a IH]; intros Ha.
  - reflexivity.
  - rewrite append_cons. cbn [after_space].
    cbn [contains] in Ha.
    destruct (Ascii.eqb_spec c " ") as [->|Hc].
    + exfalso. by destruct a.
    + apply IH. by destruct (String.prefix " " (String c a)).
Qed.

Lemma join_first (sep x y : string) (l : list string) :
  join sep (x :: y :: l) = x +:+ sep +:+ join sep (y :: l).
Proof. reflexivity. Qed.

(** Change detection cuts a column definition at its first space to drop
    the column name.  For every field class, as long as the column name
    holds no space, that gives back exactly what follows the name: the
    definition is the name, a space and the part kept. *)
Theorem column_definition_splits `{Formatter} (f : Fields.t) :
  contains " " (Fields.get_db_column f) = false ->
  exists d,
    after_space (Fields.get_sql_definition f) = Ok d
    /\ Fields.get_sql_definition f = Fields.get_db_column f +:+ " " +:+ d.
Proof.
  intros Hcol.
  assert (Hparts : exists ty more,
             Fields.get_sql_definition f
             = join " " (Fields.get_db_column f :: ty :: more)).
  { unfold Fields.get_sql_definition.
    destruct (Fields.field_kind f) as [ty to_db|auto|len|ref on_delete];
      cbv zeta; [| |by eexists _, _..]; [by eexists _, _|].
    destruct (Fields.primary_key (Fields.field_options f));
      [destruct auto|]; by eexists _, _. }
  destruct Hparts as (ty & more & ->). rewrite join_first.
  eexists. split; [by apply after_space_append|done].
Qed.

Lemma column_definition_splits_witness :
  exists d,
    after_space
      (@Fields.get_sql_definition Demo.formatter
         (Fields.Decl (Fields.CharField (VInt 100))
            (Fields.Options false true false Fields.NoDefault None "name")))
    = Ok d
    /\ @Fields.get_sql_definition Demo.formatter
         (Fields.Decl (Fields.CharField (VInt 100))
            (Fields.Options false true false Fields.NoDefault None "name"))
       = "name" +:+ " " +:+ d.
Proof.
  apply (@column_definition_splits Demo.formatter
           (Fields.Decl (Fields.CharField (VInt 100))
              (Fields.Options false true false Fields.NoDefault None "name"))).
  reflexivity.
Defined.

Example char_field_definition :
  @Fields.get_sql_definition Demo.formatter
    (Fields.Decl (Fields.CharField (VInt 100))
       (Fields.Options false true false (Fields.ValueDefault (VStr "x")) None "name"))
  = "name VARCHAR(100) UNIQUE NOT NULL DEFAULT 'x'".
Proof. vm_compute. reflexivity. Qed.

Example column_name_with_space :
  after_space
    (@Fields.get_sql_definition Demo.formatter
       (Fields.Decl (Fields.IntegerField true)
          (Fields.Options true false true Fields.NoDefault (Some "row id") "id")))
  = Ok "id INTEGER PRIMARY KEY AUTOINCREMENT".
Proof. vm_compute. reflexivity. Qed.

(* ===================================================================== *)
(** * Change detection on a schema without the models' tables             *)
(* ===================================================================== *)

Section detect_new_tables.
Context `{FieldSQL} {DB : Type} `{Engine DB}.

Lemma detect_models_new (tables : list value) (models : list Model)
    (acc : list Operation) (c : Connection DB) :
  Forall (fun m => in_applied tables (_table_name m) = false) models ->
  detect_models tables acc models c
  = (c, ops ← mapM (fun m => fields ← new_table_fields m;
                             Ok (CreateTable (_table_name m) fields)) models;
        Ok (acc ++ ops)).
Proof.
  revert acc. induction models as [|m models IH]; intros acc Hnew.
  - simpl. by rewrite app_nil_r.
  - inversion Hnew as [|? ? Hm Hrest]; subst.
    cbn [detect_models]. rewrite run_cm_bind. unfold detect_model.
    rewrite Hm. cbn [negb]. rewrite run_cm_bind. unfold lift.
    rewrite mapM_cons.
    destruct (new_table_fields m) as [fields|e]; [|done].
    cbn [mret CM_ret]. rewrite (IH _ Hrest). simpl.
    destruct (mapM _ models) as [ops|e]; [|done].
    simpl. by rewrite <- app_assoc.
Qed.

(** On a database that has none of the models' tables, change detection
    sends the one SELECT on [sqlite_master] and returns one CreateTable
    per model, in the order given, each with the model's columns; it
    fails only if a column definition holds no space. *)
Theorem auto_detect_creates_missing_tables (models : list Model)
    (c c1 : Connection DB) (cur : cursor) (tables : list value) :
  execute select_tables_sql [] c = (c1, Ok cur) ->
  mapM row0 (fetchall cur) = Ok tables ->
  Forall (fun m => in_applied tables (_table_name m) = false) models ->
  auto_detect_changes models c
  = (c1, mapM (fun m => fields ← new_table_fields m;
                        Ok (CreateTable (_table_name m) fields)) models).
Proof.
  intros Hex Htables Hnew. unfold auto_detect_changes.
  rewrite run_cm_bind, Hex. cbv beta iota. rewrite run_cm_bind. unfold lift.
  rewrite Htables. cbv beta iota. rewrite (detect_models_new _ _ _ _ Hnew).
  by destruct (mapM _ models).
Qed.
End detect_new_tables.

Lemma auto_detect_creates_missing_tables_witness :
  auto_detect_changes [Demo.Person] (Demo.connect [])
  = (Conn (Demo.Db [] []) [EvExecute select_tables_sql []],
     mapM (fun m => fields ← new_table_fields m;
                    Ok (CreateTable (_table_name m) fields)) [Demo.Person]).
Proof.
  assert (Hex : execute select_tables_sql [] (Demo.connect [])
                = (Conn (Demo.Db [] []) [EvExecute select_tables_sql []],
                   Ok (Cursor [] (-1))))
    by (vm_compute; reflexivity).
  assert (Htables : mapM row0 (fetchall (Cursor [] (-1))) = Ok []) by reflexivity.
  apply (auto_detect_creates_missing_tables [Demo.Person] _ _ _ [] Hex Htables).
  constructor; [reflexivity|constructor].
Defined.
